(** * The simulation engine of the artificial-life simulator (als.c)

    A shallow embedding of the engine: the spawners, the per-agent updater,
    the interaction resolver, and [simulate_step] with its population
    turnover; and of the renderer, as the sequence of SDL calls that draw
    a frame.  The set-up and tear-down of SDL and the event loop of [main]
    are not modelled.

    Conventions of the embedding.
    - A C [double] is an exact rational ([Q]): no rounding, no infinities,
      no NaN.  Equalities between energies and positions are therefore
      stated with [==] ([Qeq]).
    - The two global arrays are lists holding one element per allocated
      slot, next to their element counts, as in the source; slots at or
      above the count hold stale data.  An access outside the allocation is
      undefined behaviour in C and is the result [OutOfBounds] here.
    - [rand()] reads the next element of a fixed sequence [rand_seq]; the
      number of calls made so far is part of the state.  [RAND_MAX] and
      the functions of math.h are parameters ([Stdlib_h], [Math_h]).
    - The outcome of [malloc] in [simulate_step] is an argument: [None]
      for a null pointer, [Some buf] for a fresh buffer with arbitrary
      contents.
    - Where C leaves the evaluation order of two [rand()] calls in one
      argument list open, they are taken left to right ([offspring]).
      The theorems about the tick describe a spawned life form by
      [child_of] or by bounds, which leave open which draw of the
      generator gave which coordinate, and so hold under either order.
    - An [int] is a 32-bit integer, held in [Z]; an [int] operation that
      overflows, and a conversion of a double to an integer type that
      cannot hold its integral part, are undefined behaviour in C and the
      result [None] in the renderer. *)

From Stdlib Require Import ZArith QArith Qminmax Qround Lqa Lia Bool List.
From stdpp Require Import base list.

Set Default Proof Using "Type".

(** ** Simulation parameters *)

Definition INITIAL_LIFE_FORMS : nat := 10.
Definition INITIAL_FOOD_SOURCES : nat := 50.
Definition MAX_LIFE_FORMS : nat := 200.
Definition MAX_FOOD_SOURCES : nat := 100.

Definition WINDOW_WIDTH : Q := 800.
Definition WINDOW_HEIGHT : Q := 600.

Definition LIFE_FORM_RADIUS : Q := 8.
Definition FOOD_RADIUS : Q := 3.

Definition MAX_ENERGY : Q := 100.
Definition REPRODUCTION_THRESHOLD : Q := 80.
Definition ENERGY_LOSS_PER_STEP : Q := 5 # 100.
Definition ENERGY_GAIN_FROM_FOOD : Q := 20.
Definition MAX_SPEED : Q := 15 # 10.

(** Comparison of two doubles, as a boolean. *)
Definition Qlt_bool (a b : Q) : bool := negb (Qle_bool b a).

(** ** Entities *)

Module LifeForm.
Record t : Type := mk {
  x : Q; y : Q;
  vx : Q; vy : Q;
  energy : Q;
  speed_factor : Q;
  id : nat;
  r : Z; g : Z; b : Z
}.

Definition set_x (v : Q) (lf : t) : t :=
  mk v (y lf) (vx lf) (vy lf) (energy lf) (speed_factor lf) (id lf) (r lf) (g lf) (b lf).
Definition set_y (v : Q) (lf : t) : t :=
  mk (x lf) v (vx lf) (vy lf) (energy lf) (speed_factor lf) (id lf) (r lf) (g lf) (b lf).
Definition set_vx (v : Q) (lf : t) : t :=
  mk (x lf) (y lf) v (vy lf) (energy lf) (speed_factor lf) (id lf) (r lf) (g lf) (b lf).
Definition set_vy (v : Q) (lf : t) : t :=
  mk (x lf) (y lf) (vx lf) v (energy lf) (speed_factor lf) (id lf) (r lf) (g lf) (b lf).
Definition set_energy (v : Q) (lf : t) : t :=
  mk (x lf) (y lf) (vx lf) (vy lf) v (speed_factor lf) (id lf) (r lf) (g lf) (b lf).
End LifeForm.

Module Food.
Record t : Type := mk {
  x : Q; y : Q;
  is_present : bool
}.

Definition set_is_present (v : bool) (f : t) : t := mk (x f) (y f) v.
End Food.

(** ** Global state *)

Record World : Type := mkWorld {
  life_forms : list LifeForm.t;
  food_sources : list Food.t;
  life_form_count : nat;
  food_count : nat;
  rand_calls : nat
}.

Definition set_life_forms (v : list LifeForm.t) (w : World) : World :=
  mkWorld v (food_sources w) (life_form_count w) (food_count w) (rand_calls w).
Definition set_food_sources (v : list Food.t) (w : World) : World :=
  mkWorld (life_forms w) v (life_form_count w) (food_count w) (rand_calls w).
Definition set_life_form_count (v : nat) (w : World) : World :=
  mkWorld (life_forms w) (food_sources w) v (food_count w) (rand_calls w).
Definition set_food_count (v : nat) (w : World) : World :=
  mkWorld (life_forms w) (food_sources w) (life_form_count w) v (rand_calls w).
Definition set_rand_calls (v : nat) (w : World) : World :=
  mkWorld (life_forms w) (food_sources w) (life_form_count w) (food_count w) v.

(** ** Results and the state monad of the engine *)

Inductive result (A : Type) : Type :=
| Ok (a : A)
| OutOfBounds
| OutOfFuel.
Arguments Ok {A} a.
Arguments OutOfBounds {A}.
Arguments OutOfFuel {A}.

Definition M (A : Type) : Type := World -> result (A * World).

Definition ret {A} (a : A) : M A := fun w => Ok (a, w).

Definition bind {A B} (m : M A) (k : A -> M B) : M B :=
  fun w => match m w with
           | Ok (a, w') => k a w'
           | OutOfBounds => OutOfBounds
           | OutOfFuel => OutOfFuel
           end.

Declare Scope engine_scope.
Delimit Scope engine_scope with engine.
Notation "'let*' x ':=' c1 'in' c2" := (bind c1 (fun x => c2))
  (at level 10, x binder, c1 at level 100, c2 at level 200, only parsing) : engine_scope.
Notation "c1 ;; c2" := (bind c1 (fun _ => c2))
  (at level 100, c2 at level 200, right associativity, only parsing) : engine_scope.
Open Scope engine_scope.

Definition gets {A} (f : World -> A) : M A := fun w => Ok (f w, w).
Definition modify (f : World -> World) : M unit := fun w => Ok (tt, f w).

(** Array accesses.  [arr[i]] on an array of [length arr] slots. *)
Definition load {A} (arr : list A) (i : nat) : M A :=
  fun w => match arr !! i with
           | Some a => Ok (a, w)
           | None => OutOfBounds
           end.

Definition load_life_form (i : nat) : M LifeForm.t :=
  fun w => load (life_forms w) i w.
Definition load_food (i : nat) : M Food.t :=
  fun w => load (food_sources w) i w.

Definition store_life_form (i : nat) (v : LifeForm.t) : M unit :=
  fun w => if (i <? length (life_forms w))%nat
           then Ok (tt, set_life_forms (<[i := v]> (life_forms w)) w)
           else OutOfBounds.
Definition store_food (i : nat) (v : Food.t) : M unit :=
  fun w => if (i <? length (food_sources w))%nat
           then Ok (tt, set_food_sources (<[i := v]> (food_sources w)) w)
           else OutOfBounds.

(** [for (i = start; i < bound; ++i) body], where [bound] is re-read before
    every iteration and [a] holds the local variables the body updates.
    Each iteration uses one unit of [fuel]. *)
Fixpoint for_loop {A} (bound : A -> World -> nat) (body : nat -> A -> M A)
    (fuel i : nat) (a : A) : M A :=
  fun w =>
    if (i <? bound a w)%nat then
      match fuel with
      | O => OutOfFuel
      | S fuel' =>
          match body i a w with
          | Ok (a', w') => for_loop bound body fuel' (S i) a' w'
          | OutOfBounds => OutOfBounds
          | OutOfFuel => OutOfFuel
          end
      end
    else Ok (a, w).

(** The loops of the engine start at 0; a bound that grows inside the loop
    is capped by the capacity [cap] of the array it counts. *)
Definition for_upto {A} (cap : nat) (bound : A -> World -> nat)
    (body : nat -> A -> M A) (a : A) : M A :=
  fun w => for_loop bound body (Nat.max cap (bound a w)) 0 a w.

(** ** The C library *)

Class Stdlib_h : Type := {
  RAND_MAX : Z;
  rand_seq : nat -> Z
}.

Class Math_h : Type := {
  atan2 : Q -> Q -> Q;
  cos : Q -> Q;
  sin : Q -> Q;
  sqrt : Q -> Q
}.

Section Engine.
Context {stdlib_h : Stdlib_h} {math_h : Math_h}.

Definition rand : M Z :=
  fun w => Ok (rand_seq (rand_calls w), set_rand_calls (S (rand_calls w)) w).

(** [(double)rand() / RAND_MAX] *)
Definition rand_unit : M Q :=
  let* n := rand in ret (inject_Z n / inject_Z RAND_MAX)%Q.

Definition distance_sq (x1 y1 x2 y2 : Q) : Q :=
  let dx := (x1 - x2)%Q in
  let dy := (y1 - y2)%Q in
  (dx * dx + dy * dy)%Q.

Definition spawn_life_form (x y energy speed_factor : Q) (r g b : Z) : M unit :=
  let* n := gets life_form_count in
  if (n <? MAX_LIFE_FORMS)%nat then
    let* u1 := rand_unit in
    let* u2 := rand_unit in
    store_life_form n
      {| LifeForm.x := x; LifeForm.y := y;
         LifeForm.energy := energy; LifeForm.speed_factor := speed_factor;
         LifeForm.id := n;
         LifeForm.r := r; LifeForm.g := g; LifeForm.b := b;
         LifeForm.vx := (u1 - 0.5) * MAX_SPEED * speed_factor;
         LifeForm.vy := (u2 - 0.5) * MAX_SPEED * speed_factor |} ;;
    modify (set_life_form_count (S n))
  else ret tt.

Definition spawn_food (x y : Q) : M unit :=
  let* n := gets food_count in
  if (n <? MAX_FOOD_SOURCES)%nat then
    store_food n {| Food.x := x; Food.y := y; Food.is_present := true |} ;;
    modify (set_food_count (S n))
  else ret tt.

(** Step 3 of [update_life_form]: bounce off the window boundaries. *)
Definition bounce_x (lf : LifeForm.t) : LifeForm.t :=
  if Qlt_bool (LifeForm.x lf - LIFE_FORM_RADIUS) 0 then
    let lf := LifeForm.set_x LIFE_FORM_RADIUS lf in
    LifeForm.set_vx (LifeForm.vx lf * -1) lf
  else if Qlt_bool WINDOW_WIDTH (LifeForm.x lf + LIFE_FORM_RADIUS) then
    let lf := LifeForm.set_x (WINDOW_WIDTH - LIFE_FORM_RADIUS) lf in
    LifeForm.set_vx (LifeForm.vx lf * -1) lf
  else lf.

Definition bounce_y (lf : LifeForm.t) : LifeForm.t :=
  if Qlt_bool (LifeForm.y lf - LIFE_FORM_RADIUS) 0 then
    let lf := LifeForm.set_y LIFE_FORM_RADIUS lf in
    LifeForm.set_vy (LifeForm.vy lf * -1) lf
  else if Qlt_bool WINDOW_HEIGHT (LifeForm.y lf + LIFE_FORM_RADIUS) then
    let lf := LifeForm.set_y (WINDOW_HEIGHT - LIFE_FORM_RADIUS) lf in
    LifeForm.set_vy (LifeForm.vy lf * -1) lf
  else lf.

(** Step 4, the scan: the locals are [(nearest_food_dist_sq,
    nearest_food_idx)], the index being -1 while no present food was seen. *)
Definition nearest_food_body (lf : LifeForm.t) (foods : list Food.t)
    (i : nat) (near : Q * Z) : M (Q * Z) :=
  let* f := load foods i in
  if Food.is_present f then
    let dist_sq := distance_sq (LifeForm.x lf) (LifeForm.y lf) (Food.x f) (Food.y f) in
    if (snd near =? -1)%Z || Qlt_bool dist_sq (fst near)
    then ret (dist_sq, Z.of_nat i)
    else ret near
  else ret near.

Definition clamp_energy (lf : LifeForm.t) : LifeForm.t :=
  let lf := if Qlt_bool MAX_ENERGY (LifeForm.energy lf)
            then LifeForm.set_energy MAX_ENERGY lf else lf in
  if Qlt_bool (LifeForm.energy lf) 0 then LifeForm.set_energy 0 lf else lf.

(** Step 4, the steering: towards the nearest food if there is one,
    otherwise a new random direction once in a hundred calls. *)
Definition steer (lf : LifeForm.t) (foods : list Food.t) (nearest_food_idx : Z)
    : M LifeForm.t :=
  if negb (nearest_food_idx =? -1)%Z then
    let* f := load foods (Z.to_nat nearest_food_idx) in
    let angle := atan2 (Food.y f - LifeForm.y lf) (Food.x f - LifeForm.x lf) in
    let current_speed :=
      sqrt (LifeForm.vx lf * LifeForm.vx lf + LifeForm.vy lf * LifeForm.vy lf) in
    let current_speed :=
      if Qeq_bool current_speed 0
      then (MAX_SPEED * LifeForm.speed_factor lf)%Q else current_speed in
    let lf := LifeForm.set_vx (cos angle * MAX_SPEED * LifeForm.speed_factor lf) lf in
    let lf := LifeForm.set_vy (sin angle * MAX_SPEED * LifeForm.speed_factor lf) lf in
    ret lf
  else
    let* u := rand_unit in
    if Qlt_bool u 0.01 then
      let* u1 := rand_unit in
      let lf := LifeForm.set_vx ((u1 - 0.5) * MAX_SPEED * LifeForm.speed_factor lf) lf in
      let* u2 := rand_unit in
      let lf := LifeForm.set_vy ((u2 - 0.5) * MAX_SPEED * LifeForm.speed_factor lf) lf in
      ret lf
    else ret lf.

Definition update_life_form (lf : LifeForm.t) (foods : list Food.t)
    (num_foods : nat) : M LifeForm.t :=
  (* 1. Energy loss *)
  let lf := LifeForm.set_energy (LifeForm.energy lf - ENERGY_LOSS_PER_STEP) lf in
  (* 2. Movement *)
  let lf := LifeForm.set_x (LifeForm.x lf + LifeForm.vx lf) lf in
  let lf := LifeForm.set_y (LifeForm.y lf + LifeForm.vy lf) lf in
  (* 3. Bounce off walls *)
  let lf := bounce_y (bounce_x lf) in
  (* 4. Seek the nearest food *)
  let* near := for_upto 0 (fun _ _ => num_foods) (nearest_food_body lf foods)
                 ((-1)%Q, (-1)%Z) in
  let* lf := steer lf foods (snd near) in
  (* Clamp energy *)
  ret (clamp_energy lf).

(** [handle_interactions], the feeding test of one (life form, food) pair. *)
Definition feed (i j : nat) (_ : unit) : M unit :=
  let* f := load_food j in
  if Food.is_present f then
    let combined_radius_sq :=
      ((LIFE_FORM_RADIUS + FOOD_RADIUS) * (LIFE_FORM_RADIUS + FOOD_RADIUS))%Q in
    let* lf := load_life_form i in
    if Qlt_bool (distance_sq (LifeForm.x lf) (LifeForm.y lf) (Food.x f) (Food.y f))
                combined_radius_sq then
      store_life_form i (LifeForm.set_energy (LifeForm.energy lf + ENERGY_GAIN_FROM_FOOD) lf) ;;
      store_food j (Food.set_is_present false f) ;;
      let* u := rand_unit in
      if Qlt_bool u 0.8 then
        let* u1 := rand_unit in
        let* u2 := rand_unit in
        spawn_food (u1 * WINDOW_WIDTH) (u2 * WINDOW_HEIGHT)
      else ret tt
    else ret tt
  else ret tt.

Definition feed_all (i : nat) (_ : unit) : M unit :=
  for_upto MAX_FOOD_SOURCES (fun _ w => food_count w) (feed i) tt.

(** The feeding loops of [handle_interactions]. *)
Definition feeding_pass : M unit :=
  for_upto 0 (fun _ w => life_form_count w) feed_all tt.

(** The compaction loop: the local is [current_food_idx]. *)
Definition compact_body (i : nat) (current_food_idx : nat) : M nat :=
  let* f := load_food i in
  if Food.is_present f then
    store_food current_food_idx f ;;
    ret (S current_food_idx)
  else ret current_food_idx.

Definition compact_food : M unit :=
  let* current_food_idx := for_upto 0 (fun _ w => food_count w) compact_body 0%nat in
  modify (set_food_count current_food_idx).

Definition handle_interactions : M unit :=
  feeding_pass ;;
  compact_food.

(** Step 1 of [simulate_step]. *)
Definition update_body (i : nat) (_ : unit) : M unit :=
  let* lf := load_life_form i in
  let* foods := gets food_sources in
  let* num_foods := gets food_count in
  let* lf' := update_life_form lf foods num_foods in
  store_life_form i lf'.

Definition update_pass : M unit :=
  for_upto 0 (fun _ w => life_form_count w) update_body tt.

(** Step 3 of [simulate_step].  The locals are the scratch array
    [temp_life_forms] and [temp_life_form_count]. *)
Definition temp_push (temp : list LifeForm.t * nat) (lf : LifeForm.t)
    : M (list LifeForm.t * nat) :=
  if (snd temp <? MAX_LIFE_FORMS)%nat then
    if (snd temp <? length (fst temp))%nat
    then ret (<[snd temp := lf]> (fst temp), S (snd temp))
    else fun _ => OutOfBounds
  else ret temp.

Definition turnover_body (i : nat) (temp : list LifeForm.t * nat)
    : M (list LifeForm.t * nat) :=
  let* lf := load_life_form i in
  if Qlt_bool 0 (LifeForm.energy lf) then
    if Qle_bool REPRODUCTION_THRESHOLD (LifeForm.energy lf)
       && (snd temp + 1 <? MAX_LIFE_FORMS)%nat then
      let lf := LifeForm.set_energy (LifeForm.energy lf / 2) lf in
      store_life_form i lf ;;
      let* u := rand_unit in
      let new_speed_factor := (LifeForm.speed_factor lf + (u - 0.5) * 0.4)%Q in
      let new_speed_factor :=
        if Qlt_bool new_speed_factor 0.5 then 0.5%Q else new_speed_factor in
      let new_speed_factor :=
        if Qlt_bool 2.0 new_speed_factor then 2.0%Q else new_speed_factor in
      let* temp := temp_push temp lf in
      let* ux := rand_unit in
      let* uy := rand_unit in
      spawn_life_form (LifeForm.x lf + (ux - 0.5) * 10.0)
                      (LifeForm.y lf + (uy - 0.5) * 10.0)
                      (LifeForm.energy lf)
                      new_speed_factor
                      (LifeForm.r lf) (LifeForm.g lf) (LifeForm.b lf) ;;
      ret temp
    else
      temp_push temp lf
  else ret temp.

Definition turnover_loop (temp : list LifeForm.t * nat) : M (list LifeForm.t * nat) :=
  for_upto MAX_LIFE_FORMS (fun _ w => life_form_count w) turnover_body temp.

Definition copy_back_body (temp : list LifeForm.t) (i : nat) (_ : unit) : M unit :=
  let* lf := load temp i in
  store_life_form i lf.

Definition simulate_step (temp_life_forms : option (list LifeForm.t)) : M unit :=
  (* 1. Update all life forms *)
  update_pass ;;
  (* 2. Handle interactions (feeding) *)
  handle_interactions ;;
  (* 3. Handle reproduction and death *)
  match temp_life_forms with
  | None => ret tt
  | Some temp_life_forms =>
      let* temp := turnover_loop (temp_life_forms, 0%nat) in
      let temp_life_forms := fst temp in
      let temp_life_form_count := snd temp in
      let* n := gets life_form_count in
      (if (temp_life_form_count <? n)%nat
       then modify (set_life_form_count temp_life_form_count) else ret tt) ;;
      for_upto 0 (fun _ _ => temp_life_form_count) (copy_back_body temp_life_forms) tt ;;
      modify (set_life_form_count temp_life_form_count)
  end.

(** [Uint8 c = rand() % 256]: the remainder of C, converted to 8 bits. *)
Definition rand_colour : M Z :=
  let* n := rand in ret (Z.rem n 256 mod 256)%Z.

Definition initial_life_form (_ : nat) (_ : unit) : M unit :=
  let* r := rand_colour in
  let* g := rand_colour in
  let* b := rand_colour in
  let* ux := rand_unit in
  let* uy := rand_unit in
  spawn_life_form (ux * WINDOW_WIDTH) (uy * WINDOW_HEIGHT) (MAX_ENERGY / 2.0) 1.0 r g b.

Definition initial_food (_ : nat) (_ : unit) : M unit :=
  let* ux := rand_unit in
  let* uy := rand_unit in
  spawn_food (ux * WINDOW_WIDTH) (uy * WINDOW_HEIGHT).

Definition initialize_simulation : M unit :=
  modify (set_life_form_count 0) ;;
  modify (set_food_count 0) ;;
  for_upto 0 (fun _ _ => INITIAL_LIFE_FORMS) initial_life_form tt ;;
  for_upto 0 (fun _ _ => INITIAL_FOOD_SOURCES) initial_food tt.

End Engine.

(** * The renderer *)

(** The calls to SDL that draw a frame.  They all go to [gRenderer], and
    the source ignores what they return. *)
Inductive SDL_call : Type :=
| SDL_SetRenderDrawColor (r g b a : Z)
| SDL_RenderClear
| SDL_RenderDrawPoint (x y : Z)
| SDL_RenderFillRect (x y w h : Z)
| SDL_RenderPresent.

Definition SCALE_FACTOR : Q := 1.
Definition LIFE_FORM_RADIUS_PX : Z := 8.
Definition FOOD_RADIUS_PX : Z := 3.

Definition INT_MIN : Z := -2147483648.
Definition INT_MAX : Z := 2147483647.

(** The result of an [int] operation. *)
Definition to_int (z : Z) : option Z :=
  if ((INT_MIN <=? z) && (z <=? INT_MAX))%Z then Some z else None.

(** The integral part of a double: the fraction is discarded. *)
Definition integral_part (d : Q) : Z :=
  if Qle_bool 0 d then Qfloor d else Qceiling d.

(** [(int)d] and [(Uint8)d] *)
Definition double_to_int (d : Q) : option Z := to_int (integral_part d).

Definition double_to_Uint8 (d : Q) : option Z :=
  let z := integral_part d in
  if ((0 <=? z) && (z <=? 255))%Z then Some z else None.

(** [round] of math.h: to the nearest integer, halfway cases away from
    zero. *)
Definition round (d : Q) : Q :=
  inject_Z (if Qle_bool 0 d then Qfloor (d + (1 # 2)) else Qceiling (d - (1 # 2))).

(** The calls that [body] makes on the elements of [l], in order. *)
Fixpoint draw_each {A} (body : A -> option (list SDL_call)) (l : list A)
    : option (list SDL_call) :=
  match l with
  | [] => Some []
  | a :: l =>
      calls ← body a;
      rest ← draw_each body l;
      Some (calls ++ rest)
  end.

(** [for (int i = lo; i <= hi; i++) body]; the last [i++] goes to
    [hi + 1]. *)
Definition for_int (lo hi : Z) (body : Z -> option (list SDL_call))
    : option (list SDL_call) :=
  if (lo <=? hi)%Z then
    calls ← draw_each body (seqZ lo (hi - lo + 1));
    _ ← to_int (hi + 1);
    Some calls
  else Some [].

Definition draw_circle (x y radius : Z) : option (list SDL_call) :=
  lo_x ← to_int (x - radius);
  hi_x ← to_int (x + radius);
  for_int lo_x hi_x (fun i =>
    lo_y ← to_int (y - radius);
    hi_y ← to_int (y + radius);
    for_int lo_y hi_y (fun j =>
      radius_sq ← to_int (radius * radius);
      if Qle_bool (distance_sq (inject_Z x) (inject_Z y) (inject_Z i) (inject_Z j))
                  (inject_Z radius_sq)
      then Some [SDL_RenderDrawPoint i j]
      else Some [])).

(** The body of the first loop of [draw_simulation_state]. *)
Definition draw_food (f : Food.t) : option (list SDL_call) :=
  if Food.is_present f then
    px ← double_to_int (round (Food.x f * SCALE_FACTOR));
    py ← double_to_int (round (Food.y f * SCALE_FACTOR));
    draw_circle px py FOOD_RADIUS_PX
  else Some [].

(** The body of the second loop of [draw_simulation_state]: the disc, and
    the energy bar above it. *)
Definition draw_life_form (lf : LifeForm.t) : option (list SDL_call) :=
  if Qlt_bool 0 (LifeForm.energy lf) then
    px ← double_to_int (round (LifeForm.x lf * SCALE_FACTOR));
    py ← double_to_int (round (LifeForm.y lf * SCALE_FACTOR));
    circle ← draw_circle px py LIFE_FORM_RADIUS_PX;
    energy_r ← double_to_Uint8 (255 * (1 - LifeForm.energy lf / MAX_ENERGY));
    energy_g ← double_to_Uint8 (255 * (LifeForm.energy lf / MAX_ENERGY));
    bar_x ← to_int (px - LIFE_FORM_RADIUS_PX);
    bar_top ← to_int (py - LIFE_FORM_RADIUS_PX);
    bar_y ← to_int (bar_top - 5);
    bar_w ← double_to_int (inject_Z (LIFE_FORM_RADIUS_PX * 2)
                           * (LifeForm.energy lf / MAX_ENERGY));
    Some ([SDL_SetRenderDrawColor (LifeForm.r lf) (LifeForm.g lf) (LifeForm.b lf) 255]
          ++ circle
          ++ [SDL_SetRenderDrawColor energy_r energy_g 0 255;
              SDL_RenderFillRect bar_x bar_y bar_w 3])
  else Some [].

Definition draw_simulation_state (w : World) : option (list SDL_call) :=
  foods ← draw_each (fun i => f ← food_sources w !! i; draw_food f)
                    (seq 0 (food_count w));
  agents ← draw_each (fun i => lf ← life_forms w !! i; draw_life_form lf)
                     (seq 0 (life_form_count w));
  Some ([SDL_SetRenderDrawColor 173 216 230 255; SDL_RenderClear;
         SDL_SetRenderDrawColor 76 175 80 255]
        ++ foods ++ agents ++ [SDL_RenderPresent]).

(** * Vocabulary of the statements *)

Section Vocabulary.
Context {stdlib_h : Stdlib_h} {math_h : Math_h}.

(** Steps 1 to 3 of [update_life_form]. *)
Definition moved (lf : LifeForm.t) : LifeForm.t :=
  let lf := LifeForm.set_energy (LifeForm.energy lf - ENERGY_LOSS_PER_STEP) lf in
  let lf := LifeForm.set_x (LifeForm.x lf + LifeForm.vx lf) lf in
  let lf := LifeForm.set_y (LifeForm.y lf + LifeForm.vy lf) lf in
  bounce_y (bounce_x lf).

(** [lf'] is [lf] with another velocity. *)
Definition revectored (lf lf' : LifeForm.t) : Prop :=
  lf' = LifeForm.set_vy (LifeForm.vy lf') (LifeForm.set_vx (LifeForm.vx lf') lf).

(** The value of [(double)rand() / RAND_MAX] at the [n]-th call of
    [rand()], and at the next call. *)
Definition unit_at (n : nat) : Q :=
  (inject_Z (rand_seq n) / inject_Z RAND_MAX)%Q.

Definition next_unit (w : World) : Q := unit_at (rand_calls w).

(** [w'] is [w] after some calls of [rand()]. *)
Definition rand_only (w w' : World) : Prop :=
  w' = set_rand_calls (rand_calls w') w.

Definition no_food_present (foods : list Food.t) (n : nat) : Prop :=
  forall j f, (j < n)%nat -> foods !! j = Some f -> Food.is_present f = false.

(** Both arrays have the size [main] allocates. *)
Definition allocated (w : World) : Prop :=
  length (life_forms w) = MAX_LIFE_FORMS /\
  length (food_sources w) = MAX_FOOD_SOURCES.

Definition within_capacity (w : World) : Prop :=
  (life_form_count w <= MAX_LIFE_FORMS)%nat /\
  (food_count w <= MAX_FOOD_SOURCES)%nat.

Definition well_formed (w : World) : Prop :=
  allocated w /\ within_capacity w.

(** The collections: the slots below the counts. *)
Definition population (w : World) : list LifeForm.t :=
  take (life_form_count w) (life_forms w).

Definition food_pool (w : World) : list Food.t :=
  take (food_count w) (food_sources w).

(** The feeding test of [handle_interactions]. *)
Definition in_reach (lf : LifeForm.t) (f : Food.t) : bool :=
  Qlt_bool (distance_sq (LifeForm.x lf) (LifeForm.y lf) (Food.x f) (Food.y f))
           ((LIFE_FORM_RADIUS + FOOD_RADIUS) * (LIFE_FORM_RADIUS + FOOD_RADIUS)).

Definition edible (lf : LifeForm.t) (f : Food.t) : bool :=
  Food.is_present f && in_reach lf f.

(** No life form of the collection is within reach of a present food item
    of the pool. *)
Definition out_of_reach (w : World) : Prop :=
  forall i j lf f,
    (i < life_form_count w)%nat -> (j < food_count w)%nat ->
    life_forms w !! i = Some lf -> food_sources w !! j = Some f ->
    edible lf f = false.

(** [n] portions of food. *)
Definition portions (n : nat) : Q := (inject_Z (Z.of_nat n) * ENERGY_GAIN_FROM_FOOD)%Q.

(** The tests of the turnover loop. *)
Definition alive (lf : LifeForm.t) : bool := Qlt_bool 0 (LifeForm.energy lf).

Definition reproduces (lf : LifeForm.t) (temp_life_form_count : nat) : bool :=
  Qle_bool REPRODUCTION_THRESHOLD (LifeForm.energy lf)
  && (temp_life_form_count + 1 <? MAX_LIFE_FORMS)%nat.

(** The parent after [lf->energy /= 2]. *)
Definition halved (lf : LifeForm.t) : LifeForm.t :=
  LifeForm.set_energy (LifeForm.energy lf / 2) lf.

(** The mutated and clamped speed factor, from the draw [u]. *)
Definition mutated_speed_factor (speed_factor u : Q) : Q :=
  let new_speed_factor := (speed_factor + (u - 0.5) * 0.4)%Q in
  let new_speed_factor :=
    if Qlt_bool new_speed_factor 0.5 then 0.5%Q else new_speed_factor in
  if Qlt_bool 2.0 new_speed_factor then 2.0%Q else new_speed_factor.

(** The life form that the turnover loop spawns for the (already halved)
    [parent] into slot [n], when the generator has been called [c] times
    before the mutation is drawn. *)
Definition offspring (parent : LifeForm.t) (n c : nat) : LifeForm.t :=
  let speed_factor := mutated_speed_factor (LifeForm.speed_factor parent) (unit_at c) in
  {| LifeForm.x := LifeForm.x parent + (unit_at (c + 1) - 0.5) * 10.0;
     LifeForm.y := LifeForm.y parent + (unit_at (c + 2) - 0.5) * 10.0;
     LifeForm.vx := (unit_at (c + 3) - 0.5) * MAX_SPEED * speed_factor;
     LifeForm.vy := (unit_at (c + 4) - 0.5) * MAX_SPEED * speed_factor;
     LifeForm.energy := LifeForm.energy parent;
     LifeForm.speed_factor := speed_factor;
     LifeForm.id := n;
     LifeForm.r := LifeForm.r parent;
     LifeForm.g := LifeForm.g parent;
     LifeForm.b := LifeForm.b parent |}.

(** What [malloc] may hand to [simulate_step]: a null pointer, or a buffer
    of [MAX_LIFE_FORMS] slots. *)
Definition scratch_ok (temp_life_forms : option (list LifeForm.t)) : Prop :=
  match temp_life_forms with
  | None => True
  | Some temp => length temp = MAX_LIFE_FORMS
  end.

(** Steps 1 and 2 of [simulate_step]. *)
Definition update_and_feed : M unit :=
  update_pass ;; handle_interactions.

(** The turnover loop of [simulate_step] from iteration [i] on. *)
Definition turnover_from (fuel i : nat) (temp : list LifeForm.t * nat)
    : M (list LifeForm.t * nat) :=
  for_loop (fun _ w => life_form_count w) turnover_body fuel i temp.

(** What holds of the turnover loop before iteration [i]: both arrays have
    their allocated size, and the scratch array has received at most one
    agent per iteration. *)
Definition turnover_state (i : nat) (temp : list LifeForm.t * nat) (w : World) : Prop :=
  length (life_forms w) = MAX_LIFE_FORMS /\
  length (fst temp) = MAX_LIFE_FORMS /\
  (snd temp <= i)%nat /\
  (i <= life_form_count w <= MAX_LIFE_FORMS)%nat.

(** The worlds the program goes through: [main] allocates the arrays and
    calls [initialize_simulation], then [simulate_step] once per frame. *)
Inductive reachable : World -> Prop :=
| reachable_init w0 w :
    allocated w0 -> initialize_simulation w0 = Ok (tt, w) -> reachable w
| reachable_step temp_life_forms w w' :
    reachable w -> scratch_ok temp_life_forms ->
    simulate_step temp_life_forms w = Ok (tt, w') -> reachable w'.

(** [rand()] stays within its range, and the range is not empty. *)
Definition rand_in_range : Prop :=
  (0 < RAND_MAX)%Z /\ forall n, (0 <= rand_seq n <= RAND_MAX)%Z.

(** [v] put back into [[lo, hi]]. *)
Definition clamped (lo hi v : Q) : Q := Qmax lo (Qmin hi v).

(** The squared distance the nearest-food scan compares. *)
Definition food_distance (lf : LifeForm.t) (f : Food.t) : Q :=
  distance_sq (LifeForm.x lf) (LifeForm.y lf) (Food.x f) (Food.y f).

(** How many items of a list of food are present. *)
Definition present_count (l : list Food.t) : nat :=
  length (List.filter Food.is_present l).

(** Every item of the pool is present. *)
Definition pool_clean (w : World) : Prop :=
  forall f, f ∈ food_pool w -> Food.is_present f = true.

(** A value of type [Uint8]. *)
Definition is_Uint8 (c : Z) : Prop := (0 <= c < 256)%Z.

(** What the engine keeps true of every life form of the collection. *)
Definition viable (lf : LifeForm.t) : Prop :=
  (0 <= LifeForm.energy lf)%Q /\
  (0.5 <= LifeForm.speed_factor lf <= 2.0)%Q /\
  is_Uint8 (LifeForm.r lf) /\ is_Uint8 (LifeForm.g lf) /\ is_Uint8 (LifeForm.b lf).

(** A position inside the window. *)
Definition in_window (x y : Q) : Prop :=
  (0 <= x <= WINDOW_WIDTH)%Q /\ (0 <= y <= WINDOW_HEIGHT)%Q.

(** A position that the renderer can turn into a pixel and scan around
    without leaving [int]. *)
Definition paintable (x y : Q) : Prop :=
  (-1000000000 <= x <= 1000000000)%Q /\ (-1000000000 <= y <= 1000000000)%Q.

Definition is_fill_rect (c : SDL_call) : bool :=
  match c with SDL_RenderFillRect _ _ _ _ => true | _ => false end.

(** A call that neither clears nor presents the frame. *)
Definition paints (c : SDL_call) : Prop :=
  c <> SDL_RenderClear /\ c <> SDL_RenderPresent.

(** Inside the window, a radius away from every edge. *)
Definition on_field (lf : LifeForm.t) : Prop :=
  (LIFE_FORM_RADIUS <= LifeForm.x lf <= WINDOW_WIDTH - LIFE_FORM_RADIUS)%Q /\
  (LIFE_FORM_RADIUS <= LifeForm.y lf <= WINDOW_HEIGHT - LIFE_FORM_RADIUS)%Q.

(** Slot [j] held a live item before ([wa]: present, or not yet in the
    pool and so spawned since) and holds an absent one after ([wb]). *)
Definition turned_absent (wa wb : World) (j : nat) : bool :=
  match food_sources wb !! j with
  | Some g =>
      negb (Food.is_present g) &&
      ((food_count wa <=? j)%nat ||
       match food_sources wa !! j with
       | Some f => Food.is_present f
       | None => false
       end)
  | None => false
  end.

(** The slots of the pool that a run from [wa] to [wb] turned absent. *)
Definition eaten (wa wb : World) : list nat :=
  List.filter (turned_absent wa wb) (seq 0 (food_count wb)).

(** What the outer loop of the interaction pass has established of the
    world [w] it started from when it reaches life form [s]: the item [j]
    is untouched up to and including the scan of its first eater [i] and
    absent from then on. *)
Definition feeding_state (w : World) (i j : nat) (f : Food.t) (s : nat) (w' : World)
    : Prop :=
  life_form_count w' = life_form_count w /\
  length (life_forms w') = length (life_forms w) /\
  length (food_sources w') = MAX_FOOD_SOURCES /\
  (food_count w <= food_count w' <= MAX_FOOD_SOURCES)%nat /\
  (forall m, (s <= m)%nat -> life_forms w' !! m = life_forms w !! m) /\
  (forall m lf, life_forms w !! m = Some lf ->
     exists e, life_forms w' !! m = Some (LifeForm.set_energy e lf)) /\
  ((s <= i)%nat -> food_sources w' !! j = Some f) /\
  ((i < s)%nat -> food_sources w' !! j = Some (Food.set_is_present false f)).

(** [m] neither reads nor writes [life_form_count]. *)
Definition count_blind {A} (m : M A) : Prop :=
  forall n w a w',
    m w = Ok (a, w') ->
    m (set_life_form_count n w) = Ok (a, set_life_form_count n w').

(** The energy test of the reproduction branch. *)
Definition fertile (lf : LifeForm.t) : bool :=
  Qle_bool REPRODUCTION_THRESHOLD (LifeForm.energy lf).

(** What the turnover pushes to the scratch array for a live agent when
    the array has headroom. *)
Definition kept (lf : LifeForm.t) : LifeForm.t :=
  if fertile lf then halved lf else lf.

(** [child] is a life form that [spawn_life_form] may write to slot [slot]
    for the (already halved) [parent]: it has the parent's energy and
    colour, the slot as its id, a speed factor mutated from the parent's by
    a draw, a position displaced from the parent's by a draw on each axis,
    and a velocity drawn for its speed factor.  Which draw of the generator
    each of them is, is left open. *)
Definition child_of (parent child : LifeForm.t) (slot : nat) : Prop :=
  LifeForm.energy child = LifeForm.energy parent /\
  LifeForm.id child = slot /\
  (LifeForm.r child, LifeForm.g child, LifeForm.b child)
    = (LifeForm.r parent, LifeForm.g parent, LifeForm.b parent) /\
  exists cs cx cy cvx cvy : nat,
    LifeForm.speed_factor child
      = mutated_speed_factor (LifeForm.speed_factor parent) (unit_at cs) /\
    LifeForm.x child = (LifeForm.x parent + (unit_at cx - 0.5) * 10.0)%Q /\
    LifeForm.y child = (LifeForm.y parent + (unit_at cy - 0.5) * 10.0)%Q /\
    LifeForm.vx child
      = ((unit_at cvx - 0.5) * MAX_SPEED * LifeForm.speed_factor child)%Q /\
    LifeForm.vy child
      = ((unit_at cvy - 0.5) * MAX_SPEED * LifeForm.speed_factor child)%Q.

(** What holds before iteration [m] of the turnover loop, while it is still
    among the life forms that the world [w2] had when the loop started:
    the scratch array holds the live ones among the first [m], halved if
    they were at the threshold; the slots not yet visited are as in [w2];
    every life form at the threshold has spawned, as long as there was
    room; and what was spawned is alive. *)
Definition originals_state (w2 : World) (m : nat) (temp : list LifeForm.t * nat)
    (w : World) : Prop :=
  let seen := take m (life_forms w2) in
  snd temp = length (List.filter alive seen) /\
  take (snd temp) (fst temp) = List.map kept (List.filter alive seen) /\
  (forall k, (m <= k < life_form_count w2)%nat ->
     life_forms w !! k = life_forms w2 !! k) /\
  (life_form_count w2 <= life_form_count w)%nat /\
  ((life_form_count w2 + length (List.filter fertile seen) <= MAX_LIFE_FORMS)%nat ->
   life_form_count w
   = (life_form_count w2 + length (List.filter fertile seen))%nat) /\
  (forall k, (life_form_count w2 <= k < life_form_count w)%nat ->
     exists l, life_forms w !! k = Some l /\ alive l = true).

End Vocabulary.

(** ** Concrete inputs *)

(** A generator that returns 0 on every call, with the RAND_MAX of a
    small C library. *)
Definition zero_rand : Stdlib_h := {| RAND_MAX := 32767; rand_seq := fun _ => 0%Z |}.

(** A generator stuck at RAND_MAX / 2, rounded down. *)
Definition mid_rand : Stdlib_h := {| RAND_MAX := 32767; rand_seq := fun _ => 16383%Z |}.

Definition blank_life_form : LifeForm.t := LifeForm.mk 0 0 0 0 0 0 0 0 0 0.
Definition blank_food : Food.t := Food.mk 0 0 false.

(** A world with both arrays allocated and nothing in them. *)
Definition empty_world : World :=
  mkWorld (replicate MAX_LIFE_FORMS blank_life_form)
          (replicate MAX_FOOD_SOURCES blank_food) 0 0 0.
(** A world from the contents of its two collections: the arrays are
    filled up with blank slots to their allocated sizes. *)
Definition world_of (lfs : list LifeForm.t) (foods : list Food.t) : World :=
  mkWorld (lfs ++ replicate (MAX_LIFE_FORMS - length lfs) blank_life_form)
          (foods ++ replicate (MAX_FOOD_SOURCES - length foods) blank_food)
          (length lfs) (length foods) 0.

(** A scratch buffer as [malloc] may return it. *)
Definition blank_scratch : list LifeForm.t :=
  replicate MAX_LIFE_FORMS blank_life_form.
(** What a test can see of a world: the energies (in lowest terms) and the
    ids of the collection, in order. *)
Definition energies (w : World) : list Q :=
  map (fun lf => Qred (LifeForm.energy lf)) (population w).

Definition ids (w : World) : list nat :=
  map LifeForm.id (population w).

(** An observation of the world a run ends in. *)
Definition observe {A} (obs : World -> A) (r : result (unit * World)) : option A :=
  match r with
  | Ok (_, w) => Some (obs w)
  | _ => None
  end.

(** One agent with full energy sitting on six food items. *)
Definition feast_world : World :=
  world_of [LifeForm.mk 100 100 0 0 100 1 0 200 30 30]
           (replicate 6 (Food.mk 100 100 true)).

(** One agent about to starve, and no food. *)
Definition starving_world : World :=
  world_of [LifeForm.mk 100 100 0 0 (1 # 100) 1 0 200 30 30] [].

(** Two agents on the same spot, one food item under them. *)
Definition shared_meal_world : World :=
  world_of [LifeForm.mk 100 100 0 0 50 1 0 200 30 30;
            LifeForm.mk 100 100 0 0 50 1 1 30 200 30]
           [Food.mk 100 100 true].
(** What the second agent of a world sees of the first food item: its own
    energy (in lowest terms), and whether the item is present and within
    reach. *)
Definition second_agent_view (w : World) : option (Q * bool * bool) :=
  match life_forms w !! 1%nat, food_sources w !! 0%nat with
  | Some lf, Some f =>
      Some (Qred (LifeForm.energy lf), Food.is_present f, in_reach lf f)
  | _, _ => None
  end.
(** One agent with energy 90, moving east, and no food. *)
Definition fertile_world : World :=
  world_of [LifeForm.mk 100 100 1 0 90 1 0 200 30 30] [].
(** Ids 1 and 2 are alive (id 0 has died and the collection was compacted);
    the agent with id 1 sits on a food item with energy 70. *)
Definition after_a_death_world : World :=
  world_of [LifeForm.mk 100 100 0 0 70 1 1 200 30 30;
            LifeForm.mk 500 400 0 0 50 1 2 30 200 30]
           [Food.mk 100 100 true].

(** 199 agents with ids 0 to 198: the first with full energy on four food
    items, the others elsewhere with energy 50. *)
Definition crowded_world : World :=
  world_of (LifeForm.mk 100 100 0 0 100 1 0 200 30 30
            :: map (fun n => LifeForm.mk 500 400 0 0 50 1 n 30 200 30) (seq 1 198))
           (replicate 4 (Food.mk 100 100 true)).

(** What a test reads off [crowded_world] after a tick: the count, the
    energies of the first and the last agent, and the id of the last. *)
Definition first_and_last (w : World)
    : nat * option Q * option Q * option nat :=
  (life_form_count w, energies w !! 0%nat, energies w !! 199%nat, ids w !! 199%nat).
(** One agent, and one food item far away from it. *)
Definition distant_food_world : World :=
  world_of [LifeForm.mk 100 100 0 0 50 1 0 200 30 30] [Food.mk 500 400 true].

(** A full collection: 200 agents with energy 90, and no food. *)
Definition full_world : World :=
  world_of (map (fun n => LifeForm.mk 100 100 0 0 90 1 n 30 200 30)
                (seq 0 MAX_LIFE_FORMS)) [].
(** The first agent of [feast_world] after the tick that takes it to
    energy 109.975. *)
Definition overfed_life_form : LifeForm.t :=
  LifeForm.mk 100 100 0 0 (4399 # 40) 1 0 200 30 30.

(** * Verification *)

(** ** The monad and the loop rule *)

Lemma bind_Ok {A B} (m : M A) (k : A -> M B) w a w1 :
  m w = Ok (a, w1) -> bind m k w = k a w1.
Proof. unfold bind. now intros ->. Qed.

Lemma bind_Ok_inv {A B} (m : M A) (k : A -> M B) w r :
  bind m k w = Ok r -> exists a w1, m w = Ok (a, w1) /\ k a w1 = Ok r.
Proof.
  unfold bind. destruct (m w) as [[a w1]| |]; try discriminate.
  intros H. now exists a, w1.
Qed.

Lemma load_Ok {A} (arr : list A) i a w :
  arr !! i = Some a -> load arr i w = Ok (a, w).
Proof. unfold load. now intros ->. Qed.

Lemma load_life_form_Ok i lf w :
  life_forms w !! i = Some lf -> load_life_form i w = Ok (lf, w).
Proof. apply load_Ok. Qed.

Lemma load_food_Ok i f w :
  food_sources w !! i = Some f -> load_food i w = Ok (f, w).
Proof. apply load_Ok. Qed.

Lemma store_life_form_Ok i v w :
  (i < length (life_forms w))%nat ->
  store_life_form i v w = Ok (tt, set_life_forms (<[i := v]> (life_forms w)) w).
Proof.
  unfold store_life_form. intros H.
  now apply Nat.ltb_lt in H as ->.
Qed.

Lemma store_food_Ok i v w :
  (i < length (food_sources w))%nat ->
  store_food i v w = Ok (tt, set_food_sources (<[i := v]> (food_sources w)) w).
Proof.
  unfold store_food. intros H.
  now apply Nat.ltb_lt in H as ->.
Qed.

(** The rule for loops: an invariant [I] that every iteration re-establishes
    and that keeps the bound below [B] gives a result, with the invariant,
    at an index past the final bound.  With [B - i] units of fuel the loop
    never runs dry. *)
Lemma for_loop_rule {A} (I : nat -> A -> World -> Prop)
    (bound : A -> World -> nat) (body : nat -> A -> M A) (B : nat) :
  (forall i a w, I i a w -> (i < bound a w)%nat ->
     (bound a w <= B)%nat /\
     exists a' w', body i a w = Ok (a', w') /\ I (S i) a' w') ->
  forall fuel i a w, I i a w -> (B - i <= fuel)%nat ->
  exists j a' w',
    for_loop bound body fuel i a w = Ok (a', w') /\
    I j a' w' /\ (bound a' w' <= j)%nat /\ (i <= j)%nat.
Proof.
  intros Hstep fuel. induction fuel as [|fuel IH]; intros i a w HI Hfuel.
  - simpl. destruct (Nat.ltb_spec i (bound a w)) as [Hlt|Hge].
    + destruct (Hstep _ _ _ HI Hlt) as [HB _]. lia.
    + exists i, a, w. auto.
  - simpl. destruct (Nat.ltb_spec i (bound a w)) as [Hlt|Hge].
    + destruct (Hstep _ _ _ HI Hlt) as [HB (a' & w' & Hbody & HI')].
      rewrite Hbody.
      destruct (IH (S i) a' w' HI') as (j & a'' & w'' & Hrun & HI'' & Hj & Hij);
        [lia|].
      exists j, a'', w''. repeat split; auto; lia.
    + exists i, a, w. auto.
Qed.

Lemma for_loop_step {A} (bound : A -> World -> nat) (body : nat -> A -> M A)
    fuel i a w a' w' :
  body i a w = Ok (a', w') -> (i < bound a w)%nat ->
  for_loop bound body (S fuel) i a w = for_loop bound body fuel (S i) a' w'.
Proof.
  intros Hbody Hlt. simpl. apply Nat.ltb_lt in Hlt. now rewrite Hlt, Hbody.
Qed.

Lemma for_loop_done {A} (bound : A -> World -> nat) (body : nat -> A -> M A)
    fuel i a w :
  (bound a w <= i)%nat -> for_loop bound body fuel i a w = Ok (a, w).
Proof.
  intros Hge. apply Nat.ltb_ge in Hge. destruct fuel; simpl; now rewrite Hge.
Qed.

Lemma for_upto_rule {A} (I : nat -> A -> World -> Prop)
    (cap : nat) (bound : A -> World -> nat) (body : nat -> A -> M A) a w :
  (forall i a' w', I i a' w' -> (i < bound a' w')%nat ->
     (bound a' w' <= Nat.max cap (bound a w))%nat /\
     exists a'' w'', body i a' w' = Ok (a'', w'') /\ I (S i) a'' w'') ->
  I 0%nat a w ->
  exists j a' w',
    for_upto cap bound body a w = Ok (a', w') /\
    I j a' w' /\ (bound a' w' <= j)%nat.
Proof.
  intros Hstep HI. unfold for_upto.
  destruct (for_loop_rule I bound body _ Hstep (Nat.max cap (bound a w)) 0%nat a w HI)
    as (j & a' & w' & Hrun & HI' & Hj & _); [lia|].
  now exists j, a', w'.
Qed.

(** ** Arithmetic on doubles *)

Lemma Qlt_bool_iff (a b : Q) : Qlt_bool a b = true <-> (a < b)%Q.
Proof.
  unfold Qlt_bool. rewrite negb_true_iff, <- not_true_iff_false, Qle_bool_iff.
  split; [apply Qnot_le_lt | apply Qlt_not_le].
Qed.

Lemma Qlt_bool_false (a b : Q) : Qlt_bool a b = false <-> (b <= a)%Q.
Proof.
  unfold Qlt_bool. rewrite negb_false_iff. apply Qle_bool_iff.
Qed.

Ltac unfold_params :=
  unfold WINDOW_WIDTH, WINDOW_HEIGHT, LIFE_FORM_RADIUS, FOOD_RADIUS, MAX_ENERGY,
    REPRODUCTION_THRESHOLD, ENERGY_LOSS_PER_STEP, ENERGY_GAIN_FROM_FOOD, MAX_SPEED in *.

(** Turn the boolean tests of the code into comparisons. *)
Ltac reflect_tests :=
  repeat match goal with
    | H : Qlt_bool _ _ = true |- _ => apply Qlt_bool_iff in H
    | H : Qlt_bool _ _ = false |- _ => apply Qlt_bool_false in H
    | H : Qle_bool _ _ = true |- _ => apply Qle_bool_iff in H
    | H : Qle_bool _ _ = false |- _ =>
        apply not_true_iff_false in H; rewrite Qle_bool_iff in H;
        apply Qnot_le_lt in H
    end.

(** Projections of updated records. *)
Ltac fields :=
  cbn [LifeForm.x LifeForm.y LifeForm.vx LifeForm.vy LifeForm.energy
       LifeForm.speed_factor LifeForm.id LifeForm.r LifeForm.g LifeForm.b
       LifeForm.set_x LifeForm.set_y LifeForm.set_vx LifeForm.set_vy
       LifeForm.set_energy Food.x Food.y Food.is_present Food.set_is_present
       fst snd] in *.

Ltac qarith := unfold_params; reflect_tests; fields; lra.

(** Case analysis on the tests the goal branches on. *)
Ltac case_tests :=
  fields;
  repeat match goal with
    | |- context [if Qlt_bool ?a ?b then _ else _] =>
        let H := fresh "Htest" in destruct (Qlt_bool a b) eqn:H; fields
    | |- context [if Qle_bool ?a ?b then _ else _] =>
        let H := fresh "Htest" in destruct (Qle_bool a b) eqn:H; fields
    end;
  try discriminate.

(** ** The per-agent updater *)

Section Updater.
Context {stdlib_h : Stdlib_h} {math_h : Math_h}.

Lemma rand_only_refl w : rand_only w w.
Proof. now destruct w. Qed.

Lemma rand_only_trans w1 w2 w3 :
  rand_only w1 w2 -> rand_only w2 w3 -> rand_only w1 w3.
Proof. unfold rand_only. intros H1 ->. now rewrite H1. Qed.

Lemma rand_unit_Ok w :
  rand_unit w = Ok (next_unit w, set_rand_calls (S (rand_calls w)) w).
Proof. reflexivity. Qed.

Lemma rand_only_step w : rand_only w (set_rand_calls (S (rand_calls w)) w).
Proof. reflexivity. Qed.

Lemma revectored_refl lf : revectored lf lf.
Proof. now destruct lf. Qed.

Lemma clamp_energy_revectored lf lf' :
  revectored lf lf' -> revectored (clamp_energy lf) (clamp_energy lf').
Proof.
  destruct lf, lf'. unfold revectored, clamp_energy. simpl.
  intros [= -> -> -> -> -> -> -> ->]. fields. case_tests; reflexivity.
Qed.

Lemma nearest_food_scan lf foods n w :
  (n <= length foods)%nat ->
  exists near,
    for_upto 0 (fun _ _ => n) (nearest_food_body lf foods) ((-1)%Q, (-1)%Z) w
      = Ok (near, w) /\
    (snd near = (-1)%Z \/ (0 <= snd near < Z.of_nat n)%Z) /\
    (no_food_present foods n -> snd near = (-1)%Z).
Proof.
  intros Hn.
  destruct (for_upto_rule
    (fun i near w' =>
       w' = w /\ (i <= n)%nat /\
       (snd near = (-1)%Z \/ (0 <= snd near < Z.of_nat i)%Z) /\
       (no_food_present foods n -> snd near = (-1)%Z))
    0 (fun _ _ => n) (nearest_food_body lf foods) ((-1)%Q, (-1)%Z) w)
    as (j & near & w' & Hrun & (-> & Hj & Hidx & Hnone) & Hexit).
  - intros i near w' (-> & Hi & Hidx & Hnone) Hlt. split; [lia|].
    destruct (lookup_lt_is_Some_2 foods i) as [f Hf]; [lia|].
    unfold nearest_food_body. rewrite (bind_Ok _ _ _ _ _ (load_Ok _ _ _ _ Hf)).
    destruct (Food.is_present f) eqn:Hp.
    + destruct ((snd near =? -1)%Z || Qlt_bool _ (fst near)); eexists _, _;
        (split; [reflexivity|]); simpl; repeat split; try lia.
      * intros Hno. specialize (Hno i f Hlt Hf). congruence.
      * intros Hno. specialize (Hno i f Hlt Hf). congruence.
    + eexists _, _. split; [reflexivity|]. repeat split; auto; lia.
  - simpl. repeat split; auto; lia.
  - exists near. rewrite Hrun. repeat split; auto.
    destruct Hidx; [now left | right; lia].
Qed.

Lemma steer_spec lf foods idx n w :
  (n <= length foods)%nat ->
  (idx = (-1)%Z \/ (0 <= idx < Z.of_nat n)%Z) ->
  exists lf' w',
    steer lf foods idx w = Ok (lf', w') /\
    rand_only w w' /\ revectored lf lf' /\
    (idx = (-1)%Z -> ~ (next_unit w < 0.01)%Q -> lf' = lf).
Proof.
  intros Hn Hidx. unfold steer.
  destruct (idx =? -1)%Z eqn:Hm; simpl.
  - rewrite (bind_Ok _ _ _ _ _ (rand_unit_Ok w)).
    destruct (Qlt_bool (next_unit w) 0.01) eqn:Hu.
    + unfold bind; simpl. eexists _, _. split; [reflexivity|].
      repeat split. intros _ Hnot. apply Qlt_bool_iff in Hu. contradiction.
    + eexists _, _. split; [reflexivity|].
      repeat split; auto using revectored_refl.
  - apply Z.eqb_neq in Hm. destruct Hidx as [?|Hidx]; [contradiction|].
    destruct (lookup_lt_is_Some_2 foods (Z.to_nat idx)) as [f Hf]; [lia|].
    rewrite (bind_Ok _ _ _ _ _ (load_Ok _ _ _ _ Hf)).
    eexists _, _. split; [reflexivity|].
    repeat split; auto using rand_only_refl. contradiction.
Qed.

Lemma update_life_form_spec lf foods n w :
  (n <= length foods)%nat ->
  exists lf' w',
    update_life_form lf foods n w = Ok (lf', w') /\
    rand_only w w' /\
    revectored (clamp_energy (moved lf)) lf' /\
    (no_food_present foods n -> ~ (next_unit w < 0.01)%Q ->
     lf' = clamp_energy (moved lf)).
Proof.
  intros Hn. unfold update_life_form. fold (moved lf).
  destruct (nearest_food_scan (moved lf) foods n w Hn) as (near & Hscan & Hidx & Hnone).
  rewrite (bind_Ok _ _ _ _ _ Hscan).
  destruct (steer_spec (moved lf) foods (snd near) n w Hn Hidx)
    as (lf' & w' & Hsteer & Hw & Hlf & Hsame).
  rewrite (bind_Ok _ _ _ _ _ Hsteer).
  exists (clamp_energy lf'), w'. split; [reflexivity|].
  repeat split; auto using clamp_energy_revectored.
  intros Hno Hu. now rewrite (Hsame (Hnone Hno) Hu).
Qed.

Lemma revectored_x lf lf' : revectored lf lf' -> LifeForm.x lf' = LifeForm.x lf.
Proof. now intros ->. Qed.
Lemma revectored_y lf lf' : revectored lf lf' -> LifeForm.y lf' = LifeForm.y lf.
Proof. now intros ->. Qed.
Lemma revectored_energy lf lf' :
  revectored lf lf' -> LifeForm.energy lf' = LifeForm.energy lf.
Proof. now intros ->. Qed.

Lemma clamp_energy_x lf : LifeForm.x (clamp_energy lf) = LifeForm.x lf.
Proof.
  unfold clamp_energy. case_tests; reflexivity.
Qed.
Lemma clamp_energy_y lf : LifeForm.y (clamp_energy lf) = LifeForm.y lf.
Proof.
  unfold clamp_energy. case_tests; reflexivity.
Qed.
Lemma clamp_energy_vx lf : LifeForm.vx (clamp_energy lf) = LifeForm.vx lf.
Proof.
  unfold clamp_energy. case_tests; reflexivity.
Qed.

Lemma clamp_energy_range lf :
  (0 <= LifeForm.energy (clamp_energy lf) <= MAX_ENERGY)%Q.
Proof.
  unfold clamp_energy. case_tests; qarith.
Qed.

Lemma bounce_y_x lf : LifeForm.x (bounce_y lf) = LifeForm.x lf.
Proof.
  unfold bounce_y. case_tests; reflexivity.
Qed.
Lemma bounce_y_vx lf : LifeForm.vx (bounce_y lf) = LifeForm.vx lf.
Proof.
  unfold bounce_y. case_tests; reflexivity.
Qed.

Lemma bounce_x_range lf :
  (LIFE_FORM_RADIUS <= LifeForm.x (bounce_x lf) <= WINDOW_WIDTH - LIFE_FORM_RADIUS)%Q.
Proof.
  unfold bounce_x. case_tests; qarith.
Qed.

Lemma bounce_y_range lf :
  (LIFE_FORM_RADIUS <= LifeForm.y (bounce_y lf) <= WINDOW_HEIGHT - LIFE_FORM_RADIUS)%Q.
Proof.
  unfold bounce_y. case_tests; qarith.
Qed.

(** C9.  Whatever the position and velocity at entry, [update_life_form]
    returns (given that [num_foods] does not exceed the allocation of
    [foods]) and leaves the agent inside the window, a radius away from
    every edge. *)
Theorem update_life_form_position_in_window lf foods num_foods w :
  (num_foods <= length foods)%nat ->
  exists lf' w',
    update_life_form lf foods num_foods w = Ok (lf', w') /\
    (LIFE_FORM_RADIUS <= LifeForm.x lf' <= WINDOW_WIDTH - LIFE_FORM_RADIUS)%Q /\
    (LIFE_FORM_RADIUS <= LifeForm.y lf' <= WINDOW_HEIGHT - LIFE_FORM_RADIUS)%Q.
Proof.
  intros Hn.
  destruct (update_life_form_spec lf foods num_foods w Hn)
    as (lf' & w' & Hrun & _ & Hlf & _).
  exists lf', w'. split; [exact Hrun|].
  rewrite (revectored_x _ _ Hlf), (revectored_y _ _ Hlf).
  rewrite clamp_energy_x, clamp_energy_y. unfold moved.
  rewrite bounce_y_x. split; [apply bounce_x_range | apply bounce_y_range].
Qed.

Lemma moved_reflects_left_wall lf :
  (LifeForm.x lf == -1)%Q -> (LifeForm.vx lf == 1)%Q ->
  LifeForm.x (moved lf) = LIFE_FORM_RADIUS /\ (LifeForm.vx (moved lf) == -1)%Q.
Proof.
  intros Hx Hvx. unfold moved. rewrite bounce_y_x, bounce_y_vx.
  unfold bounce_x. fields.
  destruct (Qlt_bool (LifeForm.x lf + LifeForm.vx lf - LIFE_FORM_RADIUS) 0) eqn:Hleft.
  - fields. split; [reflexivity | lra].
  - exfalso. qarith.
Qed.

(** C6, as the code has it.  An agent at x = -1 with vx = +1 is put back
    at x = LIFE_FORM_RADIUS by [update_life_form], and the reflection
    step leaves it with vx = -1.  That velocity is still there when the
    updater returns if no food is present and the one-in-a-hundred random
    change of direction does not fire; otherwise step 4 overwrites it. *)
Theorem update_life_form_reflects_left_wall lf foods num_foods w :
  (num_foods <= length foods)%nat ->
  (LifeForm.x lf == -1)%Q -> (LifeForm.vx lf == 1)%Q ->
  exists lf' w',
    update_life_form lf foods num_foods w = Ok (lf', w') /\
    (LifeForm.x lf' == LIFE_FORM_RADIUS)%Q /\
    (LifeForm.vx (moved lf) == -1)%Q /\
    (no_food_present foods num_foods -> ~ (next_unit w < 0.01)%Q ->
     (LifeForm.vx lf' == -1)%Q).
Proof.
  intros Hn Hx Hvx.
  destruct (update_life_form_spec lf foods num_foods w Hn)
    as (lf' & w' & Hrun & _ & Hlf & Hquiet).
  destruct (moved_reflects_left_wall lf Hx Hvx) as [Hx' Hvx'].
  exists lf', w'. split; [exact Hrun|]. split; [|split].
  - rewrite (revectored_x _ _ Hlf), clamp_energy_x, Hx'. reflexivity.
  - exact Hvx'.
  - intros Hno Hu. rewrite (Hquiet Hno Hu), clamp_energy_vx. exact Hvx'.
Qed.

End Updater.

(** C6, as stated, fails: with no food in the world and a first random draw
    of 0, the updater redraws the velocity after the bounce, whatever the
    functions of math.h are. *)
Lemma update_life_form_redraws_velocity :
  let lf := LifeForm.mk (-1) 300 1 0 50 1 0 0 0 0 in
  (LifeForm.x lf == -1)%Q /\ (LifeForm.vx lf == 1)%Q /\
  forall math_h : Math_h,
    exists lf' w',
      @update_life_form zero_rand math_h lf (food_sources empty_world)
        (food_count empty_world) empty_world = Ok (lf', w') /\
      (LifeForm.x lf' == LIFE_FORM_RADIUS)%Q /\
      (LifeForm.vx lf' == -(3 # 4))%Q /\
      ~ (LifeForm.vx lf' == -1)%Q.
Proof.
  cbv zeta. split; [reflexivity|]. split; [reflexivity|]. intros math_h.
  eexists _, _. split; [vm_compute; reflexivity|].
  split; [reflexivity|]. split; [reflexivity|]. intros H. discriminate H.
Qed.

(** ** Step 1 of [simulate_step]: the update pass *)

Section UpdatePass.
Context {stdlib_h : Stdlib_h} {math_h : Math_h}.

Lemma rand_only_fields w w' :
  rand_only w w' ->
  life_forms w' = life_forms w /\ food_sources w' = food_sources w /\
  life_form_count w' = life_form_count w /\ food_count w' = food_count w.
Proof. intros ->. repeat split. Qed.

Lemma update_body_spec i lf w :
  life_forms w !! i = Some lf ->
  (food_count w <= length (food_sources w))%nat ->
  exists lf' w',
    update_body i tt w = Ok (tt, w') /\
    revectored (clamp_energy (moved lf)) lf' /\
    life_forms w' = <[i := lf']> (life_forms w) /\
    food_sources w' = food_sources w /\
    life_form_count w' = life_form_count w /\ food_count w' = food_count w.
Proof.
  intros Hlf Hfc. unfold update_body.
  rewrite (bind_Ok _ _ _ _ _ (load_life_form_Ok _ _ _ Hlf)).
  unfold gets at 1 2. unfold bind at 1 2.
  destruct (update_life_form_spec lf (food_sources w) (food_count w) w Hfc)
    as (lf' & w' & Hrun & Hw & Hrev & _).
  rewrite (bind_Ok _ _ _ _ _ Hrun).
  destruct (rand_only_fields _ _ Hw) as (Hl & Hf & Hc & Hfc').
  rewrite store_life_form_Ok
    by (rewrite Hl; now apply lookup_lt_Some in Hlf).
  exists lf'. eexists. split; [reflexivity|]. simpl. rewrite Hl. auto.
Qed.

Lemma update_pass_spec w :
  well_formed w ->
  exists w1,
    update_pass w = Ok (tt, w1) /\
    food_sources w1 = food_sources w /\
    food_count w1 = food_count w /\
    life_form_count w1 = life_form_count w /\
    length (life_forms w1) = length (life_forms w) /\
    (forall i lf, (i < life_form_count w)%nat -> life_forms w !! i = Some lf ->
       exists lf', life_forms w1 !! i = Some lf' /\
                   revectored (clamp_energy (moved lf)) lf') /\
    (forall i, (life_form_count w <= i)%nat ->
       life_forms w1 !! i = life_forms w !! i).
Proof.
  intros [[Hal Haf] [Hcl Hcf]]. unfold update_pass.
  destruct (for_upto_rule
    (fun i (_ : unit) w' =>
       food_sources w' = food_sources w /\
       food_count w' = food_count w /\
       life_form_count w' = life_form_count w /\
       length (life_forms w') = length (life_forms w) /\
       (i <= life_form_count w)%nat /\
       (forall k lf, (k < i)%nat -> life_forms w !! k = Some lf ->
          exists lf', life_forms w' !! k = Some lf' /\
                      revectored (clamp_energy (moved lf)) lf') /\
       (forall k, (i <= k)%nat -> life_forms w' !! k = life_forms w !! k))
    0 (fun _ w => life_form_count w) update_body tt w)
    as (j & [] & w1 & Hrun & (Hf & Hfc & Hc & Hlen & Hj & Hdone & Hrest) & Hexit).
  - intros i [] w' (Hf & Hfc & Hc & Hlen & Hi & Hdone & Hrest) Hlt.
    rewrite Hc in *. split; [lia|].
    destruct (lookup_lt_is_Some_2 (life_forms w) i) as [lf Hlf]; [lia|].
    destruct (update_body_spec i lf w') as (lf' & w'' & Hrun & Hrev & Hl & Hf' & Hc' & Hfc').
    { rewrite Hrest by lia. exact Hlf. }
    { rewrite Hfc, Hf. lia. }
    exists tt, w''. split; [exact Hrun|].
    rewrite Hf', Hfc', Hc', Hl, length_insert. repeat split; auto; try lia.
    + intros k lfk Hk Hlfk. destruct (decide (k = i)) as [->|Hne].
      * exists lf'. rewrite list_lookup_insert_eq by lia.
        split; [reflexivity|]. congruence.
      * rewrite list_lookup_insert_ne by auto. apply Hdone; [lia | exact Hlfk].
    + intros k Hk. rewrite list_lookup_insert_ne by lia. apply Hrest. lia.
  - repeat split; auto; lia.
  - exists w1. rewrite Hrun. rewrite Hc in Hexit. repeat split; auto.
    + intros i lf Hi. apply Hdone. lia.
    + intros i Hi. apply Hrest. lia.
Qed.

End UpdatePass.

(** ** Step 2 of [simulate_step]: feeding *)

Section Feeding.
Context {stdlib_h : Stdlib_h} {math_h : Math_h}.

Lemma set_energy_twice a b lf :
  LifeForm.set_energy a (LifeForm.set_energy b lf) = LifeForm.set_energy a lf.
Proof. reflexivity. Qed.

Lemma set_energy_same lf : LifeForm.set_energy (LifeForm.energy lf) lf = lf.
Proof. now destruct lf. Qed.

Lemma edible_set_energy e lf f : edible (LifeForm.set_energy e lf) f = edible lf f.
Proof. reflexivity. Qed.

Lemma edible_absent lf f : edible lf (Food.set_is_present false f) = false.
Proof. reflexivity. Qed.

Lemma absent_if_edible lf f :
  Food.is_present f = false ->
  (if edible lf f then Food.set_is_present false f else f) = f.
Proof. unfold edible. now intros ->. Qed.

Lemma portions_S n : (portions (S n) == portions n + ENERGY_GAIN_FROM_FOOD)%Q.
Proof.
  unfold portions. rewrite Nat2Z.inj_succ. unfold Z.succ.
  rewrite inject_Z_plus. change (inject_Z 1) with 1%Q. ring.
Qed.

Lemma portions_add n m : (portions (n + m) == portions n + portions m)%Q.
Proof.
  unfold portions. rewrite Nat2Z.inj_add, inject_Z_plus. ring.
Qed.

Lemma spawn_food_spec x y w :
  length (food_sources w) = MAX_FOOD_SOURCES ->
  exists w',
    spawn_food x y w = Ok (tt, w') /\
    life_forms w' = life_forms w /\ life_form_count w' = life_form_count w /\
    ((w' = w /\ (MAX_FOOD_SOURCES <= food_count w)%nat) \/
     ((food_count w < MAX_FOOD_SOURCES)%nat /\
      food_sources w' = <[food_count w := Food.mk x y true]> (food_sources w) /\
      food_count w' = S (food_count w))).
Proof.
  intros Hlen. unfold spawn_food, gets. unfold bind at 1.
  destruct (Nat.ltb_spec (food_count w) MAX_FOOD_SOURCES) as [Hlt|Hge].
  - assert (food_count w < length (food_sources w))%nat as Hslot by lia.
    rewrite (bind_Ok _ _ _ _ _ (store_food_Ok _ _ _ Hslot)).
    eexists. split; [reflexivity|]. simpl. auto 6.
  - exists w. split; [reflexivity|]. auto.
Qed.

Lemma feed_spec i j w lf f :
  life_forms w !! i = Some lf ->
  food_sources w !! j = Some f ->
  length (food_sources w) = MAX_FOOD_SOURCES ->
  exists w',
    feed i j tt w = Ok (tt, w') /\
    if edible lf f then
      life_forms w' =
        <[i := LifeForm.set_energy (LifeForm.energy lf + ENERGY_GAIN_FROM_FOOD) lf]>
          (life_forms w) /\
      life_form_count w' = life_form_count w /\
      ((food_sources w' = <[j := Food.set_is_present false f]> (food_sources w) /\
        food_count w' = food_count w) \/
       (exists nf,
          (food_count w < MAX_FOOD_SOURCES)%nat /\
          food_sources w' =
            <[food_count w := nf]>
              (<[j := Food.set_is_present false f]> (food_sources w)) /\
          food_count w' = S (food_count w)))
    else w' = w.
Proof.
  intros Hlf Hf Hlen. unfold feed, edible.
  rewrite (bind_Ok _ _ _ _ _ (load_food_Ok _ _ _ Hf)).
  destruct (Food.is_present f) eqn:Hp; simpl; [|now exists w].
  rewrite (bind_Ok _ _ _ _ _ (load_life_form_Ok _ _ _ Hlf)).
  fold (in_reach lf f). destruct (in_reach lf f) eqn:Hr; [|now exists w].
  pose proof (lookup_lt_Some _ _ _ Hlf) as Hi.
  pose proof (lookup_lt_Some _ _ _ Hf) as Hj.
  rewrite (bind_Ok _ _ _ _ _ (store_life_form_Ok _ _ _ Hi)).
  rewrite (bind_Ok _ _ _ _ _ (store_food_Ok j _ (set_life_forms _ w) Hj)).
  rewrite (bind_Ok _ _ _ _ _ (rand_unit_Ok _)).
  destruct (Qlt_bool _ 0.8).
  - rewrite (bind_Ok _ _ _ _ _ (rand_unit_Ok _)).
    rewrite (bind_Ok _ _ _ _ _ (rand_unit_Ok _)).
    match goal with |- context [spawn_food ?x ?y ?w0] =>
      destruct (spawn_food_spec x y w0) as (w' & Hrun & Hl & Hc & Hfood)
    end.
    { simpl. now rewrite length_insert. }
    exists w'. split; [exact Hrun|]. rewrite Hl, Hc. simpl.
    split; [reflexivity|]. split; [reflexivity|].
    destruct Hfood as [[-> _]|(Hlt & Hfs & Hfc)]; simpl in *.
    + now left.
    + right. eexists. split; [exact Hlt|]. split; [exact Hfs | exact Hfc].
  - eexists. split; [reflexivity|]. simpl. auto.
Qed.

(** The inner loop of [handle_interactions]: life form [i] against every
    food item, the ones spawned on the way included. *)
Lemma feed_all_spec i w lf :
  life_forms w !! i = Some lf ->
  length (food_sources w) = MAX_FOOD_SOURCES ->
  (food_count w <= MAX_FOOD_SOURCES)%nat ->
  exists w',
    feed_all i tt w = Ok (tt, w') /\
    life_form_count w' = life_form_count w /\
    length (food_sources w') = MAX_FOOD_SOURCES /\
    (food_count w <= food_count w' <= MAX_FOOD_SOURCES)%nat /\
    (exists k e',
       (e' == LifeForm.energy lf + portions k)%Q /\
       life_forms w' = <[i := LifeForm.set_energy e' lf]> (life_forms w) /\
       ((exists j f, (j < food_count w)%nat /\ food_sources w !! j = Some f /\
                     edible lf f = true) -> (1 <= k)%nat)) /\
    (forall j f, (j < food_count w)%nat -> food_sources w !! j = Some f ->
       food_sources w' !! j =
         Some (if edible lf f then Food.set_is_present false f else f)) /\
    ((forall j f, (j < food_count w)%nat -> food_sources w !! j = Some f ->
        edible lf f = false) -> w' = w).
Proof.
  intros Hlf Hlen Hcap. unfold feed_all.
  pose proof (lookup_lt_Some _ _ _ Hlf) as Hi.
  destruct (for_upto_rule
    (fun j (_ : unit) w' =>
       life_form_count w' = life_form_count w /\
       length (food_sources w') = MAX_FOOD_SOURCES /\
       (food_count w <= food_count w' <= MAX_FOOD_SOURCES)%nat /\
       (exists k e',
          (e' == LifeForm.energy lf + portions k)%Q /\
          life_forms w' = <[i := LifeForm.set_energy e' lf]> (life_forms w) /\
          ((exists m f, (m < j)%nat /\ (m < food_count w)%nat /\
                        food_sources w !! m = Some f /\ edible lf f = true) ->
           (1 <= k)%nat)) /\
       (forall m f, (m < food_count w)%nat -> food_sources w !! m = Some f ->
          food_sources w' !! m =
            Some (if (m <? j)%nat && edible lf f
                  then Food.set_is_present false f else f)) /\
       ((forall m f, (m < food_count w)%nat -> food_sources w !! m = Some f ->
           edible lf f = false) -> w' = w))
    MAX_FOOD_SOURCES (fun _ w => food_count w) (feed i) tt w)
    as (j & [] & w' & Hrun & (Hc & Hlen' & Hfc & Hen & Hfood & Hidle) & Hexit).
  - intros j [] w' (Hc & Hlen' & Hfc & (k & e' & He' & Hlfs & Hk) & Hfood & Hidle) Hlt.
    split; [lia|].
    destruct (lookup_lt_is_Some_2 (food_sources w') j) as [f' Hf']; [lia|].
    assert (life_forms w' !! i = Some (LifeForm.set_energy e' lf)) as Hcur.
    { rewrite Hlfs. now apply list_lookup_insert_eq. }
    destruct (feed_spec i j w' _ f' Hcur Hf' Hlen') as (w'' & Hstep & Hcase).
    exists tt, w''. split; [exact Hstep|].
    change (edible (LifeForm.set_energy e' lf) f') with (edible lf f') in Hcase.
    destruct (edible lf f') eqn:Hed.
    + destruct Hcase as (Hlfs'' & Hc'' & Hfs'').
      assert (length (food_sources w'') = MAX_FOOD_SOURCES /\
              (food_count w' <= food_count w'' <= MAX_FOOD_SOURCES)%nat /\
              forall m, (m < food_count w')%nat -> m <> j ->
                        food_sources w'' !! m = food_sources w' !! m) as (Hl3 & Hfc3 & Hkeep).
      { destruct Hfs'' as [[-> ->]|(nf & Hroom & -> & ->)].
        - rewrite length_insert. repeat split; auto; try lia.
          intros m _ Hm. now rewrite list_lookup_insert_ne.
        - rewrite !length_insert. repeat split; auto; try lia.
          intros m Hm Hmj. rewrite !list_lookup_insert_ne by lia. reflexivity. }
      assert (food_sources w'' !! j = Some (Food.set_is_present false f')) as Hgone.
      { destruct Hfs'' as [[-> _]|(nf & Hroom & -> & _)].
        - apply list_lookup_insert_eq. lia.
        - rewrite list_lookup_insert_ne by lia. apply list_lookup_insert_eq. lia. }
      split; [congruence|]. split; [exact Hl3|]. split; [lia|].
      split; [|split].
      * exists (S k), (e' + ENERGY_GAIN_FROM_FOOD)%Q. split; [|split].
        -- rewrite portions_S, He'. ring.
        -- rewrite Hlfs'', Hlfs, list_insert_insert_eq. reflexivity.
        -- intros _. lia.
      * intros m f Hm Hf. specialize (Hfood m f Hm Hf).
        destruct (decide (m = j)) as [->|Hne].
        -- rewrite Nat.ltb_irrefl in Hfood. simpl in Hfood.
           assert (f' = f) as -> by congruence.
           rewrite Hgone, Hed.
           replace (j <? S j)%nat with true by (symmetry; apply Nat.ltb_lt; lia).
           reflexivity.
        -- rewrite Hkeep by (auto; lia). rewrite Hfood.
           replace (m <? S j)%nat with (m <? j)%nat; [reflexivity|].
           destruct (Nat.ltb_spec m j), (Nat.ltb_spec m (S j)); auto; lia.
      * intros Hnone. exfalso. specialize (Hidle Hnone). subst w'.
        rewrite (Hnone j f' Hlt Hf') in Hed. discriminate.
    + subst w''. split; [exact Hc|]. split; [exact Hlen'|]. split; [exact Hfc|].
      split; [|split].
      * exists k, e'. split; [exact He'|]. split; [exact Hlfs|].
        intros (m & f & Hm & Hm' & Hf & Hedf). apply Hk.
        destruct (decide (m = j)) as [->|Hne].
        -- exfalso. specialize (Hfood j f Hm' Hf).
           rewrite Nat.ltb_irrefl in Hfood. simpl in Hfood. congruence.
        -- exists m, f. repeat split; auto. lia.
      * intros m f Hm Hf. specialize (Hfood m f Hm Hf).
        destruct (decide (m = j)) as [->|Hne].
        -- rewrite Nat.ltb_irrefl in Hfood. simpl in Hfood.
           assert (f' = f) as -> by congruence.
           rewrite Hfood, Hed, andb_false_r. reflexivity.
        -- rewrite Hfood.
           replace (m <? S j)%nat with (m <? j)%nat; [reflexivity|].
           destruct (Nat.ltb_spec m j), (Nat.ltb_spec m (S j)); auto; lia.
      * exact Hidle.
  - split; [reflexivity|]. split; [exact Hlen|]. split; [lia|].
    split; [|split].
    + exists 0%nat, (LifeForm.energy lf). split; [|split].
      * unfold portions. simpl. ring.
      * rewrite set_energy_same. symmetry. now apply list_insert_id.
      * intros (m & _ & Hm & _). lia.
    + intros m f Hm Hf. now rewrite Hf.
    + reflexivity.
  - exists w'. rewrite Hrun. split; [reflexivity|].
    split; [exact Hc|]. split; [exact Hlen'|]. split; [exact Hfc|].
    split; [|split].
    + destruct Hen as (k & e' & He' & Hlfs & Hk). exists k, e'.
      split; [exact He'|]. split; [exact Hlfs|].
      intros (m & f & Hm & Hf & Hedf). apply Hk. exists m, f.
      repeat split; auto. lia.
    + intros m f Hm Hf. rewrite (Hfood m f Hm Hf).
      replace (m <? j)%nat with true by (symmetry; apply Nat.ltb_lt; lia).
      reflexivity.
    + exact Hidle.
Qed.

Lemma feeding_pass_spec w :
  well_formed w ->
  exists w2,
    feeding_pass w = Ok (tt, w2) /\
    life_form_count w2 = life_form_count w /\
    length (life_forms w2) = length (life_forms w) /\
    length (food_sources w2) = MAX_FOOD_SOURCES /\
    (food_count w <= food_count w2 <= MAX_FOOD_SOURCES)%nat /\
    (forall i lf, life_forms w !! i = Some lf ->
       exists k e',
         (e' == LifeForm.energy lf + portions k)%Q /\
         life_forms w2 !! i = Some (LifeForm.set_energy e' lf)) /\
    (out_of_reach w -> w2 = w).
Proof.
  intros [[Hal Haf] [Hcl Hcf]]. unfold feeding_pass.
  destruct (for_upto_rule
    (fun i (_ : unit) w' =>
       life_form_count w' = life_form_count w /\
       length (life_forms w') = length (life_forms w) /\
       length (food_sources w') = MAX_FOOD_SOURCES /\
       (food_count w <= food_count w' <= MAX_FOOD_SOURCES)%nat /\
       (forall m lf, life_forms w !! m = Some lf ->
          exists k e',
            (e' == LifeForm.energy lf + portions k)%Q /\
            life_forms w' !! m = Some (LifeForm.set_energy e' lf)) /\
       (out_of_reach w -> w' = w))
    0 (fun _ w => life_form_count w) feed_all tt w)
    as (j & [] & w2 & Hrun & Hinv & _).
  - intros i [] w' (Hc & Hl & Hfl & Hfc & Hlfs & Hidle) Hlt.
    rewrite Hc in *. split; [lia|].
    destruct (lookup_lt_is_Some_2 (life_forms w) i) as [lf Hlf]; [lia|].
    destruct (Hlfs i lf Hlf) as (k & e' & He' & Hcur).
    destruct (feed_all_spec i w' _ Hcur Hfl ltac:(lia))
      as (w'' & Hstep & Hc'' & Hfl'' & Hfc'' & (k2 & e2 & He2 & Hlfs'' & _) & _ & Hidle'').
    exists tt, w''. split; [exact Hstep|].
    split; [congruence|]. split; [now rewrite Hlfs'', length_insert|].
    split; [exact Hfl''|]. split; [lia|]. split.
    + intros m lfm Hm. destruct (decide (m = i)) as [->|Hne].
      * assert (lfm = lf) as -> by congruence.
        exists (k + k2)%nat, e2. split.
        -- rewrite He2, portions_add. fields. rewrite He'. ring.
        -- rewrite Hlfs''. apply list_lookup_insert_eq. lia.
      * rewrite Hlfs'', list_lookup_insert_ne by auto. now apply Hlfs.
    + intros Hout. specialize (Hidle Hout). subst w'.
      apply Hidle''. intros m f Hm Hf.
      change (edible lf f = false). eapply Hout; eauto.
  - repeat split; auto; try lia.
    intros m lf Hm. exists 0%nat, (LifeForm.energy lf). split.
    + unfold portions. simpl. ring.
    + now rewrite set_energy_same.
  - exists w2. now rewrite Hrun.
Qed.

(** The first life form within reach of a present food item eats it, and
    maybe more. *)
Lemma feeding_pass_consumes w i0 j0 lf0 f0 :
  well_formed w ->
  (i0 < life_form_count w)%nat -> (j0 < food_count w)%nat ->
  life_forms w !! i0 = Some lf0 -> food_sources w !! j0 = Some f0 ->
  edible lf0 f0 = true ->
  (forall i lf, (i < i0)%nat -> life_forms w !! i = Some lf -> in_reach lf f0 = false) ->
  exists w2,
    feeding_pass w = Ok (tt, w2) /\
    food_sources w2 !! j0 = Some (Food.set_is_present false f0) /\
    (j0 < food_count w2)%nat /\
    exists k e',
      (1 <= k)%nat /\ (e' == LifeForm.energy lf0 + portions k)%Q /\
      life_forms w2 !! i0 = Some (LifeForm.set_energy e' lf0).
Proof.
  intros [[Hal Haf] [Hcl Hcf]] Hi0 Hj0 Hlf0 Hf0 Hed0 Hfirst. unfold feeding_pass.
  destruct (for_upto_rule
    (fun i (_ : unit) w' =>
       life_form_count w' = life_form_count w /\
       length (life_forms w') = length (life_forms w) /\
       length (food_sources w') = MAX_FOOD_SOURCES /\
       (food_count w <= food_count w' <= MAX_FOOD_SOURCES)%nat /\
       (i <= life_form_count w)%nat /\
       (forall m lf, life_forms w !! m = Some lf ->
          exists e', life_forms w' !! m = Some (LifeForm.set_energy e' lf)) /\
       ((i <= i0)%nat ->
          food_sources w' !! j0 = Some f0 /\ life_forms w' !! i0 = Some lf0) /\
       ((i0 < i)%nat ->
          food_sources w' !! j0 = Some (Food.set_is_present false f0) /\
          exists k e',
            (1 <= k)%nat /\ (e' == LifeForm.energy lf0 + portions k)%Q /\
            life_forms w' !! i0 = Some (LifeForm.set_energy e' lf0)))
    0 (fun _ w => life_form_count w) feed_all tt w)
    as (j & [] & w2 & Hrun & (Hc & Hl & Hfl & Hfc & Hj & Hlfs & Hbefore & Hafter) & Hexit).
  - intros i [] w' (Hc & Hl & Hfl & Hfc & Hi & Hlfs & Hbefore & Hafter) Hlt.
    rewrite Hc in *. split; [lia|].
    destruct (lookup_lt_is_Some_2 (life_forms w) i) as [lf Hlf]; [lia|].
    destruct (Hlfs i lf Hlf) as (e' & Hcur).
    destruct (feed_all_spec i w' _ Hcur Hfl ltac:(lia))
      as (w'' & Hstep & Hc'' & Hfl'' & Hfc'' & (k2 & e2 & He2 & Hlfs'' & Hk2) & Hfood'' & _).
    exists tt, w''. split; [exact Hstep|].
    split; [congruence|]. split; [now rewrite Hlfs'', length_insert|].
    split; [exact Hfl''|]. split; [lia|]. split; [lia|]. split; [|split].
    + intros m lfm Hm. destruct (decide (m = i)) as [->|Hne].
      * assert (lfm = lf) as -> by congruence.
        exists e2. rewrite Hlfs''. apply list_lookup_insert_eq. lia.
      * rewrite Hlfs'', list_lookup_insert_ne by auto. now apply Hlfs.
    + intros Hle. destruct Hbefore as [Hfj Hli]; [lia|].
      split.
      * rewrite (Hfood'' j0 f0) by (auto; lia).
        change (edible (LifeForm.set_energy e' lf) f0) with (edible lf f0).
        unfold edible. rewrite (Hfirst i lf) by (auto; lia).
        now rewrite andb_false_r.
      * rewrite Hlfs'', list_lookup_insert_ne by lia. exact Hli.
    + intros Hgt. destruct (decide (i = i0)) as [->|Hne].
      * destruct Hbefore as [Hfj Hli]; [lia|].
        assert (LifeForm.set_energy e' lf = lf0) as Heq by congruence.
        rewrite Heq in *. split.
        -- rewrite (Hfood'' j0 f0) by (auto; lia). now rewrite Hed0.
        -- exists k2, e2. split; [|split].
           ++ apply Hk2. exists j0, f0. repeat split; auto. lia.
           ++ exact He2.
           ++ rewrite Hlfs''. apply list_lookup_insert_eq. lia.
      * destruct Hafter as [Hfj (k & e0 & Hk & He0 & Hli)]; [lia|].
        split.
        -- rewrite (Hfood'' j0 _ ltac:(lia) Hfj).
           rewrite edible_absent. reflexivity.
        -- exists k, e0. split; [exact Hk|]. split; [exact He0|].
           rewrite Hlfs'', list_lookup_insert_ne by auto. exact Hli.
  - repeat split; auto; try lia.
    intros m lf Hm. exists (LifeForm.energy lf). now rewrite set_energy_same.
  - exists w2. rewrite Hrun. split; [reflexivity|].
    rewrite Hc in Hexit.
    destruct Hafter as [Hfj Hen]; [lia|]. split; [exact Hfj|]. split; [lia|].
    exact Hen.
Qed.

(** The compaction loop keeps the present items of the pool, in order. *)
Lemma compact_food_spec w :
  (food_count w <= length (food_sources w))%nat ->
  exists w',
    compact_food w = Ok (tt, w') /\
    life_forms w' = life_forms w /\
    life_form_count w' = life_form_count w /\
    rand_calls w' = rand_calls w /\
    length (food_sources w') = length (food_sources w) /\
    (food_count w' <= food_count w)%nat /\
    food_pool w' = List.filter Food.is_present (food_pool w).
Proof.
  intros Hcap. unfold compact_food.
  destruct (for_upto_rule
    (fun i (current_food_idx : nat) w' =>
       life_forms w' = life_forms w /\
       life_form_count w' = life_form_count w /\
       rand_calls w' = rand_calls w /\
       food_count w' = food_count w /\
       length (food_sources w') = length (food_sources w) /\
       (current_food_idx <= i <= food_count w)%nat /\
       take current_food_idx (food_sources w') =
         List.filter Food.is_present (take i (food_sources w)) /\
       (forall m, (i <= m)%nat -> food_sources w' !! m = food_sources w !! m))
    0 (fun _ w => food_count w) compact_body 0%nat w)
    as (j & cur & w' & Hrun & (Hl & Hc & Hr & Hfc & Hlen & Hj & Htake & _) & Hexit).
  - intros i cur w' (Hl & Hc & Hr & Hfc & Hlen & Hi & Htake & Hrest) Hlt.
    rewrite Hfc in *. split; [lia|].
    destruct (lookup_lt_is_Some_2 (food_sources w) i) as [f Hf]; [lia|].
    assert (food_sources w' !! i = Some f) as Hf' by (rewrite Hrest by lia; exact Hf).
    unfold compact_body. rewrite (bind_Ok _ _ _ _ _ (load_food_Ok _ _ _ Hf')).
    rewrite (take_S_r _ _ _ Hf), List.filter_app. simpl.
    destruct (Food.is_present f) eqn:Hp.
    + assert (cur < length (food_sources w'))%nat as Hslot by lia.
      rewrite (bind_Ok _ _ _ _ _ (store_food_Ok _ _ _ Hslot)).
      eexists _, _. split; [reflexivity|]. simpl.
      rewrite length_insert. repeat split; auto; try lia.
      * rewrite (take_S_r _ _ f) by (now apply list_lookup_insert_eq).
        rewrite take_insert_ge by lia. now rewrite Htake.
      * intros m Hm. rewrite list_lookup_insert_ne by lia. apply Hrest. lia.
    + eexists _, _. split; [reflexivity|]. rewrite app_nil_r.
      repeat split; auto; try lia. intros m Hm. apply Hrest. lia.
  - repeat split; auto; lia.
  - rewrite (bind_Ok _ _ _ _ _ Hrun). eexists. split; [reflexivity|].
    unfold food_pool. simpl. rewrite Hfc in Hexit.
    replace j with (food_count w) in Htake by lia.
    repeat split; auto; lia.
Qed.

Lemma filter_is_present_id (l : list Food.t) :
  (forall f, f ∈ l -> Food.is_present f = true) ->
  List.filter Food.is_present l = l.
Proof.
  induction l as [|f l IH]; intros H; [reflexivity|].
  simpl. rewrite (H f) by apply list_elem_of_here.
  f_equal. apply IH. intros f' Hf'. apply H. now apply list_elem_of_further.
Qed.

(** [handle_interactions]: what it does to the life forms, and what it
    leaves in the food pool. *)
Lemma handle_interactions_spec w :
  well_formed w ->
  exists w1 w2,
    feeding_pass w = Ok (tt, w1) /\
    handle_interactions w = Ok (tt, w2) /\
    well_formed w2 /\
    life_form_count w2 = life_form_count w /\
    life_forms w2 = life_forms w1 /\
    food_pool w2 = List.filter Food.is_present (food_pool w1) /\
    (forall i lf, life_forms w !! i = Some lf ->
       exists k e',
         (e' == LifeForm.energy lf + portions k)%Q /\
         life_forms w2 !! i = Some (LifeForm.set_energy e' lf)) /\
    (out_of_reach w -> w1 = w).
Proof.
  intros Hwf.
  destruct (feeding_pass_spec w Hwf)
    as (w1 & Hfeed & Hc1 & Hl1 & Hfl1 & Hfc1 & Hlfs1 & Hidle).
  destruct (compact_food_spec w1 ltac:(lia))
    as (w2 & Hcompact & Hl2 & Hc2 & _ & Hfl2 & Hfc2 & Hpool).
  exists w1, w2. split; [exact Hfeed|].
  unfold handle_interactions. rewrite (bind_Ok _ _ _ _ _ Hfeed).
  split; [exact Hcompact|].
  destruct Hwf as [[Hal Haf] [Hcl Hcf]].
  split; [|split; [congruence|split; [exact Hl2|split; [exact Hpool|split]]]].
  - repeat split; try congruence; lia.
  - intros i lf Hlf. rewrite Hl2. now apply Hlfs1.
  - exact Hidle.
Qed.

End Feeding.

(** ** Step 3 of [simulate_step]: reproduction and death *)

Section Turnover.
Context {stdlib_h : Stdlib_h} {math_h : Math_h}.

Lemma spawn_life_form_spec x y energy speed_factor r g b w :
  length (life_forms w) = MAX_LIFE_FORMS ->
  exists w',
    spawn_life_form x y energy speed_factor r g b w = Ok (tt, w') /\
    food_sources w' = food_sources w /\ food_count w' = food_count w /\
    (((MAX_LIFE_FORMS <= life_form_count w)%nat /\ w' = w) \/
     ((life_form_count w < MAX_LIFE_FORMS)%nat /\
      life_forms w' =
        <[life_form_count w :=
            {| LifeForm.x := x; LifeForm.y := y;
               LifeForm.vx := (unit_at (rand_calls w) - 0.5) * MAX_SPEED * speed_factor;
               LifeForm.vy := (unit_at (S (rand_calls w)) - 0.5) * MAX_SPEED * speed_factor;
               LifeForm.energy := energy; LifeForm.speed_factor := speed_factor;
               LifeForm.id := life_form_count w;
               LifeForm.r := r; LifeForm.g := g; LifeForm.b := b |}]>
          (life_forms w) /\
      life_form_count w' = S (life_form_count w) /\
      rand_calls w' = S (S (rand_calls w)))).
Proof.
  intros Hlen. unfold spawn_life_form, gets. unfold bind at 1.
  destruct (Nat.ltb_spec (life_form_count w) MAX_LIFE_FORMS) as [Hlt|Hge].
  - rewrite (bind_Ok _ _ _ _ _ (rand_unit_Ok _)).
    rewrite (bind_Ok _ _ _ _ _ (rand_unit_Ok _)).
    assert (life_form_count w < length (life_forms w))%nat as Hslot by lia.
    rewrite (bind_Ok _ _ _ _ _
               (store_life_form_Ok (life_form_count w) _
                  (set_rand_calls _ (set_rand_calls _ w)) Hslot)).
    eexists. split; [reflexivity|]. simpl. auto 8.
  - exists w. split; [reflexivity|]. auto.
Qed.

Lemma turnover_body_spec i temp tc w lf :
  life_forms w !! i = Some lf ->
  length (life_forms w) = MAX_LIFE_FORMS ->
  length temp = MAX_LIFE_FORMS ->
  exists temp' w',
    turnover_body i (temp, tc) w = Ok (temp', w') /\
    food_sources w' = food_sources w /\ food_count w' = food_count w /\
    if alive lf then
      if reproduces lf tc then
        temp' = (<[tc := halved lf]> temp, S tc) /\
        (((MAX_LIFE_FORMS <= life_form_count w)%nat /\
          life_forms w' = <[i := halved lf]> (life_forms w) /\
          life_form_count w' = life_form_count w) \/
         ((life_form_count w < MAX_LIFE_FORMS)%nat /\
          life_forms w' =
            <[life_form_count w :=
                offspring (halved lf) (life_form_count w) (rand_calls w)]>
              (<[i := halved lf]> (life_forms w)) /\
          life_form_count w' = S (life_form_count w)))
      else
        temp' = (if (tc <? MAX_LIFE_FORMS)%nat
                 then (<[tc := lf]> temp, S tc) else (temp, tc)) /\
        w' = w
    else temp' = (temp, tc) /\ w' = w.
Proof.
  intros Hlf Hlen Htemp. unfold turnover_body, alive, reproduces.
  rewrite (bind_Ok _ _ _ _ _ (load_life_form_Ok _ _ _ Hlf)).
  destruct (Qlt_bool 0 (LifeForm.energy lf)); [|now eexists _, _].
  cbn [snd fst].
  destruct (Qle_bool REPRODUCTION_THRESHOLD (LifeForm.energy lf)
            && (tc + 1 <? MAX_LIFE_FORMS)%nat) eqn:Hrep.
  - apply andb_true_iff in Hrep as [_ Hroom]. apply Nat.ltb_lt in Hroom.
    fold (halved lf).
    pose proof (lookup_lt_Some _ _ _ Hlf) as Hi.
    rewrite (bind_Ok _ _ _ _ _ (store_life_form_Ok _ _ _ Hi)).
    rewrite (bind_Ok _ _ _ _ _ (rand_unit_Ok _)).
    unfold temp_push. cbn [snd fst].
    replace (tc <? MAX_LIFE_FORMS)%nat with true by (symmetry; apply Nat.ltb_lt; lia).
    replace (tc <? length temp)%nat with true by (symmetry; apply Nat.ltb_lt; lia).
    unfold ret at 1. unfold bind at 1.
    rewrite (bind_Ok _ _ _ _ _ (rand_unit_Ok _)).
    rewrite (bind_Ok _ _ _ _ _ (rand_unit_Ok _)).
    match goal with |- context [bind (spawn_life_form ?x ?y ?e ?s ?r ?g ?b) _ ?w0] =>
      destruct (spawn_life_form_spec x y e s r g b w0) as (w' & Hrun & Hf & Hfc & Hcase)
    end.
    { simpl. now rewrite length_insert. }
    rewrite (bind_Ok _ _ _ _ _ Hrun).
    eexists _, w'. split; [reflexivity|].
    split; [exact Hf|]. split; [exact Hfc|]. split; [reflexivity|].
    destruct Hcase as [[Hfull ->]|(Hlt & Hl & Hc & _)]; simpl in *.
    + left. auto.
    + right. split; [exact Hlt|]. split; [|exact Hc].
      rewrite Hl. unfold offspring, next_unit, mutated_speed_factor. simpl.
      replace (rand_calls w + 1)%nat with (S (rand_calls w)) by lia.
      replace (rand_calls w + 2)%nat with (S (S (rand_calls w))) by lia.
      replace (rand_calls w + 3)%nat with (S (S (S (rand_calls w)))) by lia.
      replace (rand_calls w + 4)%nat with (S (S (S (S (rand_calls w))))) by lia.
      reflexivity.
  - unfold temp_push. cbn [snd fst].
    destruct (Nat.ltb_spec tc MAX_LIFE_FORMS) as [Hlt|Hge].
    + replace (tc <? length temp)%nat with true by (symmetry; apply Nat.ltb_lt; lia).
      eexists _, _. split; [reflexivity|]. auto.
    + eexists _, _. split; [reflexivity|]. auto.
Qed.

Lemma alive_iff lf : alive lf = true <-> (0 < LifeForm.energy lf)%Q.
Proof. apply Qlt_bool_iff. Qed.

Lemma reproduces_iff lf tc :
  reproduces lf tc = true <->
  (REPRODUCTION_THRESHOLD <= LifeForm.energy lf)%Q /\ (tc + 1 < MAX_LIFE_FORMS)%nat.
Proof.
  unfold reproduces. now rewrite andb_true_iff, Qle_bool_iff, Nat.ltb_lt.
Qed.

Lemma halved_alive lf :
  (REPRODUCTION_THRESHOLD <= LifeForm.energy lf)%Q ->
  (0 < LifeForm.energy (halved lf))%Q.
Proof.
  unfold halved. fields. intros H. unfold_params.
  apply Qlt_shift_div_l; lra.
Qed.

Lemma kept_push (P : LifeForm.t -> Prop) (tmp : list LifeForm.t) tc lf :
  (tc < length tmp)%nat -> P lf ->
  (forall k l, (k < tc)%nat -> tmp !! k = Some l -> P l) ->
  forall k l, (k < S tc)%nat -> <[tc := lf]> tmp !! k = Some l -> P l.
Proof.
  intros Htc Hlf Hold k l Hk. destruct (decide (k = tc)) as [->|Hne].
  - rewrite list_lookup_insert_eq by lia. now intros [= <-].
  - rewrite list_lookup_insert_ne by auto. apply Hold. lia.
Qed.

(** The turnover loop, for a property [E] of energies that halving an
    energy at or above the threshold preserves.  The loop returns; the
    scratch array then holds only live agents, with [E]; every agent that
    was alive at entry is in it, halved or not; and without an agent at or
    above the threshold nothing is spawned. *)
Lemma turnover_loop_spec (E : Q -> Prop) w temp :
  well_formed w -> length temp = MAX_LIFE_FORMS ->
  (forall e, E e -> (REPRODUCTION_THRESHOLD <= e)%Q -> E (e / 2)%Q) ->
  (forall i lf, (i < life_form_count w)%nat -> life_forms w !! i = Some lf ->
     E (LifeForm.energy lf)) ->
  exists temp' tc' w',
    turnover_loop (temp, 0%nat) w = Ok ((temp', tc'), w') /\
    length temp' = MAX_LIFE_FORMS /\
    (tc' <= life_form_count w' <= MAX_LIFE_FORMS)%nat /\
    (life_form_count w <= life_form_count w')%nat /\
    length (life_forms w') = MAX_LIFE_FORMS /\
    food_sources w' = food_sources w /\ food_count w' = food_count w /\
    (forall k lf, (k < tc')%nat -> temp' !! k = Some lf ->
       (0 < LifeForm.energy lf)%Q /\ E (LifeForm.energy lf)) /\
    (forall i lf, (i < life_form_count w)%nat -> life_forms w !! i = Some lf ->
       (0 < LifeForm.energy lf)%Q ->
       exists k, (k < tc')%nat /\
                 (temp' !! k = Some lf \/ temp' !! k = Some (halved lf))) /\
    ((forall i lf, (i < life_form_count w)%nat -> life_forms w !! i = Some lf ->
        (LifeForm.energy lf < REPRODUCTION_THRESHOLD)%Q) ->
     (tc' <= life_form_count w)%nat).
Proof.
  intros [[Hal Haf] [Hcl Hcf]] Htemp Hclosed HE. unfold turnover_loop.
  destruct (for_upto_rule
    (fun i (a : list LifeForm.t * nat) w' =>
       length (fst a) = MAX_LIFE_FORMS /\
       (snd a <= i)%nat /\
       (i <= life_form_count w' <= MAX_LIFE_FORMS)%nat /\
       (life_form_count w <= life_form_count w')%nat /\
       length (life_forms w') = MAX_LIFE_FORMS /\
       food_sources w' = food_sources w /\ food_count w' = food_count w /\
       (forall k lf, (k < snd a)%nat -> fst a !! k = Some lf ->
          (0 < LifeForm.energy lf)%Q /\ E (LifeForm.energy lf)) /\
       (forall m lf, (i <= m < life_form_count w')%nat -> life_forms w' !! m = Some lf ->
          E (LifeForm.energy lf)) /\
       (forall m, (i <= m < life_form_count w)%nat ->
          life_forms w' !! m = life_forms w !! m) /\
       (forall m lf, (m < i)%nat -> (m < life_form_count w)%nat ->
          life_forms w !! m = Some lf -> (0 < LifeForm.energy lf)%Q ->
          exists k, (k < snd a)%nat /\
                    (fst a !! k = Some lf \/ fst a !! k = Some (halved lf))) /\
       ((forall m lf, (m < life_form_count w)%nat -> life_forms w !! m = Some lf ->
           (LifeForm.energy lf < REPRODUCTION_THRESHOLD)%Q) ->
        life_form_count w' = life_form_count w))
    MAX_LIFE_FORMS (fun _ w => life_form_count w) turnover_body (temp, 0%nat) w)
    as (j & [temp' tc'] & w' & Hrun &
        (Ht & Htc & Hj & Hgrow & Hl & Hf & Hfc & Hkept & _ & _ & Horig & Hquiet) & Hexit).
  - intros i [tmp tc] w' Hinv Hlt. cbn [fst snd] in Hinv.
    destruct Hinv as (Ht & Htc & Hi & Hgrow & Hl & Hf & Hfc & Hkept & HE' & Hrest
                      & Horig & Hquiet).
    split; [lia|].
    destruct (lookup_lt_is_Some_2 (life_forms w') i) as [lf Hlf]; [lia|].
    destruct (turnover_body_spec i tmp tc w' lf Hlf Hl Ht)
      as (a' & w'' & Hstep & Hf'' & Hfc'' & Hcase).
    exists a', w''. split; [exact Hstep|].
    assert (forall m lf0, m = i -> (m < life_form_count w)%nat ->
              life_forms w !! m = Some lf0 -> lf0 = lf) as Hsame.
    { intros m lf0 -> Hm Hlf0. rewrite <- Hrest in Hlf0 by lia. congruence. }
    destruct (alive lf) eqn:Halive.
    + apply alive_iff in Halive.
      destruct (reproduces lf tc) eqn:Hrep.
      * apply reproduces_iff in Hrep as [Hthr Hroom].
        destruct Hcase as [-> Hworld]. cbn [fst snd].
        assert (length (life_forms w'') = MAX_LIFE_FORMS /\
                (life_form_count w' <= life_form_count w'' <= MAX_LIFE_FORMS)%nat /\
                (forall m lfm, (S i <= m < life_form_count w'')%nat ->
                   life_forms w'' !! m = Some lfm -> E (LifeForm.energy lfm)) /\
                (forall m, (S i <= m < life_form_count w)%nat ->
                   life_forms w'' !! m = life_forms w !! m))
          as (Hl'' & Hc'' & HE'' & Hrest'').
        { destruct Hworld as [(Hfull & -> & ->)|(Hroom' & -> & ->)].
          - rewrite length_insert. repeat split; auto; try lia.
            + intros m lfm Hm. rewrite list_lookup_insert_ne by lia.
              apply HE'. lia.
            + intros m Hm. rewrite list_lookup_insert_ne by lia. apply Hrest. lia.
          - rewrite !length_insert. repeat split; auto; try lia.
            + intros m lfm Hm.
              destruct (decide (m = life_form_count w')) as [->|Hne].
              * rewrite list_lookup_insert_eq by (rewrite length_insert; lia).
                intros [= <-]. cbn. apply Hclosed; [|exact Hthr].
                apply (HE' i); [lia | exact Hlf].
              * rewrite !list_lookup_insert_ne by lia. apply HE'. lia.
            + intros m Hm. rewrite !list_lookup_insert_ne by lia.
              apply Hrest. lia. }
        split; [now rewrite length_insert|]. split; [lia|]. split; [lia|].
        split; [lia|]. split; [exact Hl''|]. split; [congruence|].
        split; [congruence|]. split; [|split; [exact HE''|split; [exact Hrest''|split]]].
        -- apply kept_push; [lia | | exact Hkept]. split.
           ++ now apply halved_alive.
           ++ cbn. apply Hclosed; [|exact Hthr]. apply (HE' i); [lia | exact Hlf].
        -- intros m lf0 Hm Hm' Hlf0 Hpos.
           destruct (decide (m = i)) as [->|Hne].
           ++ rewrite (Hsame i lf0 eq_refl Hm' Hlf0). exists tc.
              split; [lia|]. right. apply list_lookup_insert_eq. lia.
           ++ destruct (Horig m lf0 ltac:(lia) Hm' Hlf0 Hpos) as (k & Hk & Hin).
              exists k. split; [lia|]. rewrite !list_lookup_insert_ne by lia.
              exact Hin.
        -- intros Hlow. exfalso. specialize (Hquiet Hlow).
           assert (i < life_form_count w)%nat as Hiw by lia.
           assert (life_forms w !! i = Some lf) as Hlfw by (rewrite <- Hrest by lia; exact Hlf).
           specialize (Hlow i lf Hiw Hlfw). lra.
      * destruct Hcase as [-> ->].
        replace (tc <? MAX_LIFE_FORMS)%nat with true by (symmetry; apply Nat.ltb_lt; lia).
        cbn [fst snd].
        split; [now rewrite length_insert|]. split; [lia|]. split; [lia|].
        split; [lia|]. split; [exact Hl|]. split; [exact Hf|].
        split; [exact Hfc|]. split; [|split; [|split; [|split]]].
        -- apply kept_push; [lia | | exact Hkept]. split; [exact Halive|].
           apply (HE' i); [lia | exact Hlf].
        -- intros m lfm Hm. apply HE'. lia.
        -- intros m Hm. apply Hrest. lia.
        -- intros m lf0 Hm Hm' Hlf0 Hpos.
           destruct (decide (m = i)) as [->|Hne].
           ++ rewrite (Hsame i lf0 eq_refl Hm' Hlf0). exists tc.
              split; [lia|]. left. apply list_lookup_insert_eq. lia.
           ++ destruct (Horig m lf0 ltac:(lia) Hm' Hlf0 Hpos) as (k & Hk & Hin).
              exists k. split; [lia|]. rewrite !list_lookup_insert_ne by lia.
              exact Hin.
        -- exact Hquiet.
    + destruct Hcase as [-> ->]. cbn [fst snd].
      split; [exact Ht|]. split; [lia|]. split; [lia|].
      split; [lia|]. split; [exact Hl|]. split; [exact Hf|].
      split; [exact Hfc|]. split; [exact Hkept|]. split; [|split; [|split]].
      * intros m lfm Hm. apply HE'. lia.
      * intros m Hm. apply Hrest. lia.
      * intros m lf0 Hm Hm' Hlf0 Hpos.
        destruct (decide (m = i)) as [->|Hne].
        -- rewrite (Hsame i lf0 eq_refl Hm' Hlf0) in Hpos.
           apply alive_iff in Hpos. congruence.
        -- apply (Horig m lf0); auto. lia.
      * exact Hquiet.
  - cbn [fst snd].
    split; [exact Htemp|]. split; [lia|]. split; [lia|]. split; [lia|].
    split; [exact Hal|]. split; [reflexivity|]. split; [reflexivity|].
    split; [intros k lf Hk; lia|]. split; [|split; [auto|split; [|auto]]].
    + intros m lf Hm. apply HE. lia.
    + intros m lf Hm. lia.
  - cbn [fst snd] in *. exists temp', tc', w'. rewrite Hrun.
    split; [reflexivity|]. split; [exact Ht|]. split; [lia|].
    split; [exact Hgrow|]. split; [exact Hl|]. split; [exact Hf|].
    split; [exact Hfc|]. split; [exact Hkept|]. split.
    + intros i lf Hi. apply Horig; [lia | exact Hi].
    + intros Hlow. rewrite <- (Hquiet Hlow). lia.
Qed.

Lemma copy_back_spec (temp : list LifeForm.t) tc w :
  (tc <= length temp)%nat -> (tc <= length (life_forms w))%nat ->
  exists w',
    for_upto 0 (fun _ _ => tc) (copy_back_body temp) tt w = Ok (tt, w') /\
    take tc (life_forms w') = take tc temp /\
    length (life_forms w') = length (life_forms w) /\
    food_sources w' = food_sources w /\ food_count w' = food_count w /\
    life_form_count w' = life_form_count w /\ rand_calls w' = rand_calls w.
Proof.
  intros Htemp Hlen.
  destruct (for_upto_rule
    (fun i (_ : unit) w' =>
       (i <= tc)%nat /\
       take i (life_forms w') = take i temp /\
       length (life_forms w') = length (life_forms w) /\
       food_sources w' = food_sources w /\ food_count w' = food_count w /\
       life_form_count w' = life_form_count w /\ rand_calls w' = rand_calls w)
    0 (fun _ _ => tc) (copy_back_body temp) tt w)
    as (j & [] & w' & Hrun & (Hj & Htake & Hrest) & Hexit).
  - intros i [] w' (Hi & Htake & Hl & Hrest) Hlt. split; [lia|].
    destruct (lookup_lt_is_Some_2 temp i) as [lf Hlf]; [lia|].
    unfold copy_back_body. rewrite (bind_Ok _ _ _ _ _ (load_Ok _ _ _ _ Hlf)).
    assert (i < length (life_forms w'))%nat as Hslot by lia.
    rewrite (store_life_form_Ok _ _ _ Hslot).
    eexists _, _. split; [reflexivity|]. simpl. rewrite length_insert.
    split; [lia|]. split; [|split; [exact Hl | exact Hrest]].
    rewrite (take_S_r _ _ lf) by (now apply list_lookup_insert_eq).
    rewrite take_insert_ge by lia. rewrite Htake. symmetry. now apply take_S_r.
  - repeat split; lia.
  - replace j with tc in Htake by lia. exists w'. now rewrite Hrun.
Qed.

(** [simulate_step] after a successful allocation, from the results of its
    passes. *)
Lemma simulate_step_Some w temp w2 temp' tc' w3 :
  update_and_feed w = Ok (tt, w2) ->
  turnover_loop (temp, 0%nat) w2 = Ok ((temp', tc'), w3) ->
  (tc' <= length temp')%nat -> (tc' <= length (life_forms w3))%nat ->
  exists w',
    simulate_step (Some temp) w = Ok (tt, w') /\
    population w' = take tc' temp' /\
    life_form_count w' = tc' /\
    length (life_forms w') = length (life_forms w3) /\
    food_sources w' = food_sources w3 /\ food_count w' = food_count w3 /\
    rand_calls w' = rand_calls w3.
Proof.
  intros H12 Hloop Htemp Hlen. unfold update_and_feed in H12.
  apply bind_Ok_inv in H12 as ([] & w1 & H1 & H2).
  unfold simulate_step.
  rewrite (bind_Ok _ _ _ _ _ H1), (bind_Ok _ _ _ _ _ H2), (bind_Ok _ _ _ _ _ Hloop).
  cbn [fst snd]. unfold gets at 1. unfold bind at 1.
  set (w4 := if (tc' <? life_form_count w3)%nat
             then set_life_form_count tc' w3 else w3).
  assert (bind (if (tc' <? life_form_count w3)%nat
                then modify (set_life_form_count tc') else ret tt)
               (fun _ => bind (for_upto 0 (fun _ _ => tc') (copy_back_body temp') tt)
                           (fun _ => modify (set_life_form_count tc'))) w3
          = bind (for_upto 0 (fun _ _ => tc') (copy_back_body temp') tt)
                 (fun _ => modify (set_life_form_count tc')) w4) as ->.
  { unfold w4. now destruct (tc' <? life_form_count w3)%nat. }
  assert (life_forms w4 = life_forms w3 /\ food_sources w4 = food_sources w3 /\
          food_count w4 = food_count w3 /\ rand_calls w4 = rand_calls w3)
    as (Hl4 & Hf4 & Hfc4 & Hr4).
  { unfold w4. now destruct (tc' <? life_form_count w3)%nat. }
  destruct (copy_back_spec temp' tc' w4 Htemp ltac:(rewrite Hl4; exact Hlen))
    as (w5 & Hcopy & Htake & Hl5 & Hf5 & Hfc5 & _ & Hr5).
  rewrite (bind_Ok _ _ _ _ _ Hcopy).
  eexists. split; [reflexivity|]. unfold population. simpl.
  repeat split; congruence.
Qed.

(** [simulate_step] when the allocation fails. *)
Lemma simulate_step_None w : simulate_step None w = update_and_feed w.
Proof.
  unfold simulate_step, update_and_feed, bind.
  destruct (update_pass w) as [[[] w1]| |]; try reflexivity.
  destruct (handle_interactions w1) as [[[] w2]| |]; reflexivity.
Qed.

(** Steps 1 and 2 on a well-formed world. *)
Lemma update_and_feed_spec w :
  well_formed w ->
  exists w1 w2,
    update_pass w = Ok (tt, w1) /\
    handle_interactions w1 = Ok (tt, w2) /\
    update_and_feed w = Ok (tt, w2) /\
    well_formed w1 /\ well_formed w2 /\
    life_form_count w1 = life_form_count w /\
    life_form_count w2 = life_form_count w /\
    (food_count w2 <= MAX_FOOD_SOURCES)%nat.
Proof.
  intros Hwf.
  destruct (update_pass_spec w Hwf) as (w1 & H1 & Hf1 & Hfc1 & Hc1 & Hl1 & _).
  assert (well_formed w1) as Hwf1.
  { destruct Hwf as [[Hal Haf] [Hcl Hcf]]. repeat split; congruence. }
  destruct (handle_interactions_spec w1 Hwf1)
    as (wf_ & w2 & _ & H2 & Hwf2 & Hc2 & _).
  exists w1, w2. unfold update_and_feed. rewrite (bind_Ok _ _ _ _ _ H1).
  split; [exact H1|]. split; [exact H2|]. split; [exact H2|].
  split; [exact Hwf1|]. split; [exact Hwf2|]. split; [exact Hc1|].
  split; [congruence | apply Hwf2].
Qed.

Lemma turnover_loop_from temp w :
  turnover_loop temp w
  = turnover_from (Nat.max MAX_LIFE_FORMS (life_form_count w)) 0 temp w.
Proof. reflexivity. Qed.

Lemma fertile_alive lf : fertile lf = true -> alive lf = true.
Proof.
  unfold fertile, alive. rewrite Qle_bool_iff, Qlt_bool_iff.
  unfold_params. intros H. lra.
Qed.

Lemma reproduces_fertile lf tc :
  (tc + 1 < MAX_LIFE_FORMS)%nat -> reproduces lf tc = fertile lf.
Proof.
  intros H. unfold reproduces, fertile.
  replace (tc + 1 <? MAX_LIFE_FORMS)%nat with true by (symmetry; apply Nat.ltb_lt; lia).
  apply andb_true_r.
Qed.

Lemma reproduces_is_fertile lf tc : reproduces lf tc = true -> fertile lf = true.
Proof. unfold reproduces, fertile. now intros [H _]%andb_true_iff. Qed.

Lemma offspring_child_of parent n c : child_of parent (offspring parent n c) n.
Proof.
  unfold child_of, offspring. cbn.
  split; [reflexivity|]. split; [reflexivity|]. split; [reflexivity|].
  exists c, (c + 1)%nat, (c + 2)%nat, (c + 3)%nat, (c + 4)%nat.
  repeat split; reflexivity.
Qed.

Lemma child_of_alive lf child slot :
  fertile lf = true -> child_of (halved lf) child slot -> alive child = true.
Proof.
  intros Hf (He & _). apply alive_iff. rewrite He. apply halved_alive.
  now apply Qle_bool_iff.
Qed.

Lemma take_ext {A} (l1 l2 : list A) n :
  (forall q, (q < n)%nat -> l1 !! q = l2 !! q) -> take n l1 = take n l2.
Proof.
  intros H. apply list_eq. intros q. destruct (decide (q < n)%nat) as [Hq|Hq].
  - rewrite !lookup_take_lt by exact Hq. now apply H.
  - rewrite !lookup_take_ge by lia. reflexivity.
Qed.

(** One iteration of the turnover loop. *)
Lemma turnover_body_step i tmp tc w lf :
  turnover_state i (tmp, tc) w -> (i < life_form_count w)%nat ->
  life_forms w !! i = Some lf ->
  exists tmp' tc' w',
    turnover_body i (tmp, tc) w = Ok ((tmp', tc'), w') /\
    turnover_state (S i) (tmp', tc') w' /\
    (life_form_count w <= life_form_count w' <= S (life_form_count w))%nat /\
    (forall m, m <> i -> (m < life_form_count w)%nat ->
       life_forms w' !! m = life_forms w !! m) /\
    (forall q, (q < tc)%nat -> tmp' !! q = tmp !! q) /\
    (if alive lf
     then tc' = S tc /\
          tmp' !! tc = Some (if reproduces lf tc then halved lf else lf)
     else tc' = tc) /\
    (alive lf && reproduces lf tc = false -> w' = w) /\
    (alive lf && reproduces lf tc = true ->
     (life_form_count w < MAX_LIFE_FORMS)%nat ->
     life_form_count w' = S (life_form_count w) /\
     exists child,
       life_forms w' !! life_form_count w = Some child /\
       child_of (halved lf) child (life_form_count w)) /\
    (forall m, (life_form_count w <= m < life_form_count w')%nat ->
       exists l, life_forms w' !! m = Some l /\ alive l = true).
Proof.
  intros (Hl & Ht & Htc & Hi) Hlt Hlf. cbn [fst snd] in *.
  destruct (turnover_body_spec i tmp tc w lf Hlf Hl Ht)
    as ([tmp' tc'] & w' & Hstep & _ & _ & Hcase).
  exists tmp', tc', w'. split; [exact Hstep|].
  unfold turnover_state. cbn [fst snd].
  destruct (alive lf) eqn:Hal; [destruct (reproduces lf tc) eqn:Hrep|]; cbn [andb].
  - destruct Hcase as [Heq Hw]. injection Heq as -> ->.
    assert (<[tc := halved lf]> tmp !! tc = Some (halved lf)) as Hpush
      by (apply list_lookup_insert_eq; lia).
    assert (forall q, (q < tc)%nat -> <[tc := halved lf]> tmp !! q = tmp !! q) as Hkeep
      by (intros q Hq; apply list_lookup_insert_ne; lia).
    rewrite length_insert.
    destruct Hw as [(Hfull & Hl' & Hc')|(Hroom & Hl' & Hc')]; rewrite Hl', Hc';
      rewrite !length_insert.
    + split; [repeat split; auto; lia|]. split; [lia|]. split.
      { intros m Hm _. now rewrite list_lookup_insert_ne. }
      split; [exact Hkeep|]. split; [auto|]. split; [discriminate|].
      split; [intros _ Hroom; lia|]. intros m Hm. lia.
    + assert (<[life_form_count w :=
                 offspring (halved lf) (life_form_count w) (rand_calls w)]>
                (<[i := halved lf]> (life_forms w)) !! life_form_count w
              = Some (offspring (halved lf) (life_form_count w) (rand_calls w)))
        as Hchild by (apply list_lookup_insert_eq; rewrite length_insert; lia).
      split; [repeat split; auto; lia|]. split; [lia|]. split.
      { intros m Hm Hmc. rewrite !list_lookup_insert_ne by lia. reflexivity. }
      split; [exact Hkeep|]. split; [auto|]. split; [discriminate|]. split.
      { intros _ _. split; [reflexivity|]. eexists. split; [exact Hchild|].
        apply offspring_child_of. }
      intros m Hm. replace m with (life_form_count w) by lia.
      eexists. split; [exact Hchild|].
      eapply child_of_alive; [|apply offspring_child_of].
      eapply reproduces_is_fertile; eauto.
  - destruct Hcase as [Heq ->].
    replace (tc <? MAX_LIFE_FORMS)%nat with true in Heq
      by (symmetry; apply Nat.ltb_lt; lia).
    injection Heq as -> ->. rewrite length_insert.
    split; [repeat split; auto; lia|]. split; [lia|]. split; [reflexivity|].
    split; [intros q Hq; apply list_lookup_insert_ne; lia|].
    split; [split; [reflexivity|apply list_lookup_insert_eq; lia]|].
    split; [reflexivity|]. split; [discriminate|]. intros m Hm. lia.
  - destruct Hcase as [Heq ->]. injection Heq as -> ->.
    split; [repeat split; auto; lia|]. split; [lia|]. split; [reflexivity|].
    split; [reflexivity|]. split; [reflexivity|]. split; [reflexivity|].
    split; [discriminate|]. intros m Hm. lia.
Qed.

Lemma turnover_from_step fuel i a w a' w' :
  turnover_body i a w = Ok (a', w') -> (i < life_form_count w)%nat ->
  (1 <= fuel)%nat ->
  turnover_from fuel i a w = turnover_from (fuel - 1) (S i) a' w'.
Proof.
  intros Hstep Hlt Hfuel. destruct fuel as [|fuel]; [lia|].
  unfold turnover_from. rewrite (for_loop_step _ _ _ _ _ _ _ _ Hstep) by exact Hlt.
  now rewrite Nat.sub_1_r.
Qed.

(** The iterations [s], ..., [s + d - 1] of the turnover loop, all below
    the count the loop starts from: the loop gets to iteration [s + d];
    the count has grown by at most one per iteration; the slots it has not
    visited and the part of the scratch array it found filled are
    untouched; if every slot visited held a live agent, each has added one
    agent to the scratch array; and a property [I] that every iteration
    below [hi] re-establishes holds at the end. *)
Lemma turnover_span (I : nat -> list LifeForm.t * nat -> World -> Prop) hi d :
  (forall m a w a' w',
     (m < hi)%nat -> I m a w -> turnover_state m a w ->
     (m < life_form_count w)%nat ->
     turnover_body m a w = Ok (a', w') -> I (S m) a' w') ->
  forall s tmp tc w,
    turnover_state s (tmp, tc) w -> I s (tmp, tc) w ->
    (s + d <= life_form_count w)%nat -> (s + d <= hi)%nat ->
    exists tmp' tc' w',
      turnover_state (s + d) (tmp', tc') w' /\ I (s + d)%nat (tmp', tc') w' /\
      (life_form_count w <= life_form_count w' <= life_form_count w + d)%nat /\
      (forall m, (m < s \/ s + d <= m)%nat -> (m < life_form_count w)%nat ->
         life_forms w' !! m = life_forms w !! m) /\
      (tc <= tc')%nat /\
      (forall q, (q < tc)%nat -> tmp' !! q = tmp !! q) /\
      ((forall m, (s <= m < s + d)%nat ->
          exists l, life_forms w !! m = Some l /\ alive l = true) ->
       tc' = (tc + d)%nat) /\
      (forall fuel, (d <= fuel)%nat ->
         turnover_from fuel s (tmp, tc) w
         = turnover_from (fuel - d) (s + d) (tmp', tc') w').
Proof.
  intros Hinv. induction d as [|d IH]; intros s tmp tc w Hstate HI Hd Hhi.
  - rewrite Nat.add_0_r. exists tmp, tc, w.
    split; [exact Hstate|]. split; [exact HI|]. split; [lia|].
    split; [reflexivity|]. split; [lia|]. split; [reflexivity|].
    split; [intros _; lia|]. intros fuel _. now rewrite Nat.sub_0_r.
  - destruct (lookup_lt_is_Some_2 (life_forms w) s) as [lf Hlf];
      [pose proof Hstate as (Hl & _ & _ & Hc); lia|].
    destruct (turnover_body_step s tmp tc w lf Hstate ltac:(lia) Hlf)
      as (tmp1 & tc1 & w1 & Hstep & Hstate1 & Hc1 & Hframe1 & Hkeep1 & Htc1 & _ & _ & _).
    pose proof (Hinv s _ _ _ _ ltac:(lia) HI Hstate ltac:(lia) Hstep) as HI1.
    destruct (IH (S s) tmp1 tc1 w1 Hstate1 HI1 ltac:(lia) ltac:(lia))
      as (tmp' & tc' & w' & Hstate' & HI' & Hc' & Hframe' & Htc' & Hkeep' & Hall' & Hrun').
    assert (tc <= tc1)%nat as Hle1
      by (destruct (alive lf); [destruct Htc1 as [Htc1 _]|]; lia).
    replace (s + S d)%nat with (S s + d)%nat by lia.
    exists tmp', tc', w'. split; [exact Hstate'|]. split; [exact HI'|].
    split; [lia|]. split.
    { intros m Hm Hmc. rewrite Hframe' by lia. apply Hframe1; lia. }
    split; [lia|]. split.
    { intros q Hq. rewrite Hkeep' by lia. now apply Hkeep1. }
    split.
    { intros Halive. destruct (Halive s ltac:(lia)) as (l & Hl & Hal).
      assert (l = lf) as -> by congruence. rewrite Hal in Htc1.
      destruct Htc1 as [-> _]. rewrite Hall'; [lia|].
      intros m Hm. rewrite Hframe1 by lia. apply Halive. lia. }
    intros fuel Hfuel.
    rewrite (turnover_from_step fuel s _ w _ _ Hstep) by lia.
    rewrite Hrun' by lia. f_equal. lia.
Qed.

(** The turnover loop returns from every iteration, and leaves the part of
    the scratch array it found filled as it is. *)
Lemma turnover_tail s tmp tc w fuel :
  turnover_state s (tmp, tc) w -> (MAX_LIFE_FORMS - s <= fuel)%nat ->
  exists tmp' tc' w',
    turnover_from fuel s (tmp, tc) w = Ok ((tmp', tc'), w') /\
    length tmp' = MAX_LIFE_FORMS /\ length (life_forms w') = MAX_LIFE_FORMS /\
    (tc <= tc' <= MAX_LIFE_FORMS)%nat /\
    (forall q, (q < tc)%nat -> tmp' !! q = tmp !! q).
Proof.
  intros Hstate Hfuel. unfold turnover_from.
  destruct (for_loop_rule
    (fun j (a : list LifeForm.t * nat) w' =>
       turnover_state j a w' /\ (tc <= snd a)%nat /\
       forall q, (q < tc)%nat -> fst a !! q = tmp !! q)
    (fun _ w => life_form_count w) turnover_body MAX_LIFE_FORMS)
    with (fuel := fuel) (i := s) (a := (tmp, tc)) (w := w)
    as (j & [tmp' tc'] & w' & Hrun & (Hstate' & Htc' & Hkeep') & Hj & _).
  - intros j [tmpj tcj] wj (Hst & Hle & Hkeep) Hlt. cbn [fst snd] in *.
    split; [destruct Hst as (_ & _ & _ & Hc); lia|].
    destruct (lookup_lt_is_Some_2 (life_forms wj) j) as [lf Hlf];
      [pose proof Hst as (Hl & _ & _ & Hc); lia|].
    destruct (turnover_body_step j tmpj tcj wj lf Hst Hlt Hlf)
      as (tmp1 & tc1 & w1 & Hstep & Hstate1 & _ & _ & Hkeep1 & Htc1 & _).
    exists (tmp1, tc1), w1. split; [exact Hstep|]. split; [exact Hstate1|].
    cbn [fst snd].
    split; [destruct (alive lf); [destruct Htc1 as [Htc1 _]|]; lia|].
    intros q Hq. rewrite Hkeep1 by lia. now apply Hkeep.
  - cbn [fst snd]. auto.
  - exact Hfuel.
  - exists tmp', tc', w'. split; [exact Hrun|].
    destruct Hstate' as (Hl & Ht & Hle & Hc). cbn [fst snd] in *.
    split; [exact Ht|]. split; [exact Hl|]. split; [lia|]. exact Hkeep'.
Qed.

(** An iteration of the turnover loop among the life forms the loop
    started with. *)
Lemma originals_step w2 m a w a' w' :
  length (life_forms w2) = MAX_LIFE_FORMS ->
  (life_form_count w2 < MAX_LIFE_FORMS)%nat ->
  (m < life_form_count w2)%nat ->
  originals_state w2 m a w -> turnover_state m a w ->
  (m < life_form_count w)%nat ->
  turnover_body m a w = Ok (a', w') -> originals_state w2 (S m) a' w'.
Proof.
  destruct a as [tmp tc], a' as [tmp' tc'].
  intros Hl2 Hn Hm (Htc & Htake & Hrest & Hge & Hcount & Hspawned) Hstate Hlt Hstep.
  cbn [fst snd] in *.
  destruct (lookup_lt_is_Some_2 (life_forms w2) m) as [lf Hlf2]; [lia|].
  assert (life_forms w !! m = Some lf) as Hlf by (rewrite Hrest by lia; exact Hlf2).
  destruct (turnover_body_step m tmp tc w lf Hstate Hlt Hlf)
    as (tmp1 & tc1 & w1 & Hstep1 & Hstate1 & Hc1 & Hframe1 & Hkeep1 & Htc1 & Hsame
        & Hspawn & Hnew).
  rewrite Hstep in Hstep1. injection Hstep1 as -> -> ->.
  pose proof Hstate as (_ & Ht & Htcm & _). cbn [fst snd] in Ht, Htcm.
  assert (reproduces lf tc = fertile lf) as Hrf by (apply reproduces_fertile; lia).
  rewrite Hrf in Htc1, Hsame, Hspawn.
  unfold originals_state. cbn [fst snd]. cbv zeta.
  rewrite (take_S_r _ _ _ Hlf2), !List.filter_app. cbn [List.filter].
  assert (forall k, (S m <= k < life_form_count w2)%nat ->
            life_forms w1 !! k = life_forms w2 !! k) as Hrest1.
  { intros k Hk. rewrite Hframe1 by lia. apply Hrest. lia. }
  assert (forall k, (life_form_count w2 <= k < life_form_count w1)%nat ->
            exists l, life_forms w1 !! k = Some l /\ alive l = true) as Hspawned1.
  { intros k Hk. destruct (decide (k < life_form_count w)%nat) as [Hold|Hnew'].
    - rewrite Hframe1 by lia. apply Hspawned. lia.
    - apply Hnew. lia. }
  destruct (alive lf) eqn:Hal.
  - destruct Htc1 as [-> Hpush]. fold (kept lf) in Hpush.
    split; [rewrite length_app; simpl; lia|]. split.
    { rewrite (take_S_r _ _ _ Hpush), List.map_app, <- Htake.
      f_equal. apply take_ext. exact Hkeep1. }
    split; [exact Hrest1|]. split; [lia|]. split; [|exact Hspawned1].
    destruct (fertile lf) eqn:Hfer; cbn [andb] in *.
    + rewrite length_app. simpl. intros Hle.
      rewrite Hcount in * by lia. destruct Hspawn as [-> _]; lia.
    + rewrite app_nil_r. rewrite (Hsame eq_refl). exact Hcount.
  - subst tc1. rewrite (Hsame eq_refl) in *.
    assert (fertile lf = false) as ->.
    { destruct (fertile lf) eqn:Hfer; [|reflexivity].
      apply fertile_alive in Hfer. congruence. }
    rewrite !app_nil_r.
    split; [exact Htc|].
    split; [rewrite <- Htake; apply take_ext; exact Hkeep1|].
    split; [exact Hrest1|].
    split; [exact Hge|]. split; [exact Hcount|exact Hspawned1].
Qed.

Lemma filter_take_length {A} (f : A -> bool) (l : list A) i :
  (length (List.filter f (take i l)) <= i)%nat.
Proof.
  pose proof (List.filter_length_le f (take i l)) as H.
  rewrite length_take in H. lia.
Qed.

(** C10, as the code has it.  [w2] is the world when the turnover starts,
    [n] its life-form count and [a] the number of its life forms that are
    alive.  Let life form [i] reach the turnover at or above
    REPRODUCTION_THRESHOLD, [r] of the life forms before it being so too,
    with [n + r < MAX_LIFE_FORMS].  Then the tick returns, and its
    turnover has spawned an offspring of the halved life form [i] into
    slot [n + r] of the array it was running over, whose index is the
    offspring's id.  The post-tick collection
    begins with the [a] survivors of the collection the turnover started
    with, each halved if it was at the threshold; the parent, halved, is
    among them, at index [p].  The offspring comes after them, at index
    [a + r]: it got there in the iteration of the same loop at its own
    slot, [n + r], and it is there halved exactly when it passed the
    reproduction test of that iteration, [reproduces child (a + r)], that
    is, when its inherited energy is at least REPRODUCTION_THRESHOLD and
    [a + r + 1 < MAX_LIFE_FORMS].  If it passed the test and
    [2 n + r < MAX_LIFE_FORMS], it has spawned an offspring of its own in
    that iteration, which the same loop has carried to the post-tick
    collection as well, behind it. *)
Theorem offspring_joins_the_running_turnover temp w w2 i lf :
  well_formed w -> length temp = MAX_LIFE_FORMS ->
  update_and_feed w = Ok (tt, w2) ->
  (i < life_form_count w2)%nat -> life_forms w2 !! i = Some lf ->
  (REPRODUCTION_THRESHOLD <= LifeForm.energy lf)%Q ->
  (life_form_count w2 + length (List.filter fertile (take i (life_forms w2)))
   < MAX_LIFE_FORMS)%nat ->
  let n := life_form_count w2 in
  let r := length (List.filter fertile (take i (life_forms w2))) in
  let p := length (List.filter alive (take i (life_forms w2))) in
  let a := length (List.filter alive (population w2)) in
  exists w' child,
    simulate_step (Some temp) w = Ok (tt, w') /\
    child_of (halved lf) child (n + r) /\
    LifeForm.energy child = (LifeForm.energy lf / 2)%Q /\
    take a (population w') = List.map kept (List.filter alive (population w2)) /\
    (p < a)%nat /\ population w' !! p = Some (halved lf) /\
    population w' !! (a + r)%nat
      = Some (if reproduces child (a + r) then halved child else child) /\
    (reproduces child (a + r) = true -> (n + (n + r) < MAX_LIFE_FORMS)%nat ->
     exists q slot grandchild,
       (a + r < q)%nat /\ (n + r < slot)%nat /\
       child_of (halved child) grandchild slot /\
       population w' !! q
         = Some (if reproduces grandchild q then halved grandchild
                 else grandchild)).
Proof.
  intros Hwf Htemp H12 Hi Hlf Hthr Hroom n r p a.
  assert (n = life_form_count w2) as Hn by reflexivity.
  assert (r = length (List.filter fertile (take i (life_forms w2)))) as Hr
    by reflexivity.
  assert (p = length (List.filter alive (take i (life_forms w2)))) as Hp
    by reflexivity.
  assert (a = length (List.filter alive (take n (life_forms w2)))) as Ha
    by reflexivity.
  clearbody n r p a.
  rewrite <- Hn in Hi. rewrite <- Hn, <- Hr in Hroom.
  assert (r <= i)%nat as Hri by (rewrite Hr; apply filter_take_length).
  destruct (update_and_feed_spec w Hwf) as (w1 & w2' & _ & _ & H12' & _ & Hwf2 & _).
  assert (w2' = w2) as -> by congruence.
  destruct Hwf2 as [[Hl2 _] [Hn2 _]].
  assert (fertile lf = true) as Hfer by (now apply Qle_bool_iff).
  pose proof (fertile_alive lf Hfer) as Hal.
  assert (forall m a0 w0 a' w',
            (m < n)%nat -> originals_state w2 m a0 w0 -> turnover_state m a0 w0 ->
            (m < life_form_count w0)%nat ->
            turnover_body m a0 w0 = Ok (a', w') ->
            originals_state w2 (S m) a' w') as Hinv.
  { intros m a0 w0 a' w' Hm. apply originals_step; lia. }
  (* before the first iteration *)
  assert (turnover_state 0 (temp, 0%nat) w2) as Hst0.
  { unfold turnover_state. cbn [fst snd]. repeat split; auto; lia. }
  assert (originals_state w2 0 (temp, 0%nat) w2) as HI0.
  { unfold originals_state. cbn [fst snd]. cbv zeta. rewrite !take_0.
    cbn [List.filter List.map length].
    split; [reflexivity|]. split; [reflexivity|]. split; [reflexivity|].
    split; [lia|]. split; [intros _; lia|]. intros k Hk. lia. }
  (* iterations 0 to i - 1 *)
  destruct (turnover_span (originals_state w2) n i Hinv 0 temp 0 w2 Hst0 HI0
              ltac:(cbn [Nat.add]; lia) ltac:(cbn [Nat.add]; lia))
    as (tmp_i & tc_i & w_i & Hst_i & HI_i & Hc_i & _ & _ & _ & _ & Hrun_i).
  cbn [Nat.add] in Hst_i, HI_i, Hrun_i.
  pose proof HI_i as (Htc_i & _ & Hrest_i & _ & Hcount_i & _).
  cbn [fst snd] in Htc_i. rewrite <- Hp in Htc_i. rewrite <- Hr, <- Hn in Hcount_i.
  specialize (Hcount_i ltac:(lia)). subst tc_i.
  assert (life_forms w_i !! i = Some lf) as Hlf_i by (rewrite Hrest_i by lia; exact Hlf).
  pose proof Hst_i as (_ & _ & Hp_i & _). cbn [fst snd] in Hp_i.
  (* iteration i *)
  destruct (turnover_body_step i tmp_i p w_i lf Hst_i ltac:(lia) Hlf_i)
    as (tmp_1 & tc_1 & w_1 & Hstep_i & Hst_1 & Hc_1 & _ & _ & Htc_1 & _ & Hspawn_i & _).
  assert (reproduces lf p = true) as Hrep_i
    by (rewrite reproduces_fertile; [exact Hfer|lia]).
  rewrite Hal, Hrep_i in Htc_1, Hspawn_i. destruct Htc_1 as [-> Hpush_i].
  destruct (Hspawn_i eq_refl ltac:(lia)) as (Hcount_1 & child & Hchild_1 & Hchild).
  rewrite Hcount_i in Hcount_1, Hchild_1, Hchild.
  pose proof (Hinv i _ _ _ _ Hi HI_i Hst_i ltac:(lia) Hstep_i) as HI_1.
  pose proof (child_of_alive lf child _ Hfer Hchild) as Hal_c.
  (* iterations i + 1 to n - 1 *)
  destruct (turnover_span (originals_state w2) n (n - S i) Hinv (S i) tmp_1 (S p) w_1
              Hst_1 HI_1 ltac:(lia) ltac:(lia))
    as (tmp_n & tc_n & w_n & Hst_n & HI_n & Hc_n & Hframe_n & Htc_n & Hkeep_n & _
        & Hrun_n).
  replace (S i + (n - S i))%nat with n in Hst_n, HI_n, Hrun_n, Hframe_n by lia.
  pose proof HI_n as (Htc_n' & Htake_n & _ & _ & _ & Hspawned_n).
  cbn [fst snd] in Htc_n', Htake_n. rewrite <- Ha in Htc_n'. subst tc_n.
  rewrite <- Hn in Hspawned_n.
  assert (life_forms w_n !! (n + r)%nat = Some child) as Hchild_n
    by (rewrite Hframe_n by lia; exact Hchild_1).
  (* iterations n to n + r - 1 *)
  destruct (turnover_span (fun _ _ _ => True) (n + r) r
              (fun _ _ _ _ _ _ _ _ _ _ => Logic.I) n tmp_n a w_n Hst_n Logic.I
              ltac:(lia) ltac:(lia))
    as (tmp_c & tc_c & w_c & Hst_c & _ & Hc_c & Hframe_c & _ & Hkeep_c & Hall_c
        & Hrun_c).
  assert (tc_c = (a + r)%nat) as ->.
  { apply Hall_c. intros m Hm. apply Hspawned_n. lia. }
  assert (life_forms w_c !! (n + r)%nat = Some child) as Hchild_c
    by (rewrite Hframe_c by lia; exact Hchild_n).
  (* iteration n + r *)
  destruct (turnover_body_step (n + r) tmp_c (a + r) w_c child Hst_c ltac:(lia) Hchild_c)
    as (tmp_2 & tc_2 & w_2 & Hstep_c & Hst_2 & Hc_2 & Hframe_2 & Hkeep_2 & Htc_2 & _
        & Hspawn_c & _).
  rewrite Hal_c in Htc_2, Hspawn_c. destruct Htc_2 as [-> Hpush_c].
  cbn [andb] in Hspawn_c.
  (* the rest of the loop *)
  set (fuel := (MAX_LIFE_FORMS - i - 1 - (n - S i) - r - 1)%nat) in *.
  destruct (turnover_tail (S (n + r)) tmp_2 (S (a + r)) w_2 fuel Hst_2
              ltac:(unfold fuel; lia))
    as (tmp' & tc' & w3 & Hrun_t & Hlen' & Hl3 & Htc' & Hkeep_t).
  assert (turnover_loop (temp, 0%nat) w2 = Ok ((tmp', tc'), w3)) as Hloop.
  { rewrite turnover_loop_from, Nat.max_l by lia.
    rewrite (Hrun_i MAX_LIFE_FORMS) by lia.
    rewrite (turnover_from_step _ i _ _ _ _ Hstep_i) by lia.
    rewrite Hrun_n by lia. rewrite Hrun_c by lia.
    rewrite (turnover_from_step _ (n + r) _ _ _ _ Hstep_c) by lia.
    exact Hrun_t. }
  destruct (simulate_step_Some w temp w2 tmp' tc' w3 H12 Hloop ltac:(lia) ltac:(lia))
    as (w' & Hrun & Hpop & _).
  assert (forall q, (q < a)%nat -> tmp' !! q = tmp_n !! q) as Hkeep_a.
  { intros q Hq. rewrite Hkeep_t by lia. rewrite Hkeep_2 by lia. apply Hkeep_c. lia. }
  exists w', child. split; [exact Hrun|]. split; [exact Hchild|]. split.
  { destruct Hchild as (He & _). rewrite He. reflexivity. }
  split.
  { rewrite Hpop, take_take, Nat.min_l by lia. unfold population. rewrite <- Hn.
    rewrite <- Htake_n. apply take_ext. exact Hkeep_a. }
  split; [lia|]. split.
  { rewrite Hpop, lookup_take_lt by lia. rewrite Hkeep_a by lia.
    rewrite Hkeep_n by lia. exact Hpush_i. }
  split.
  { rewrite Hpop, lookup_take_lt by lia. rewrite Hkeep_t by lia. exact Hpush_c. }
  intros Hrep_c Hroom_c.
  destruct (Hspawn_c Hrep_c ltac:(lia)) as (Hcount_2 & gc & Hgc_2 & Hgc).
  pose proof (child_of_alive child gc _ (reproduces_is_fertile _ _ Hrep_c) Hgc) as Hal_g.
  set (g := life_form_count w_c) in *.
  destruct (turnover_span (fun _ _ _ => True) g (g - S (n + r))
              (fun _ _ _ _ _ _ _ _ _ _ => Logic.I) (S (n + r)) tmp_2 (S (a + r)) w_2
              Hst_2 Logic.I ltac:(lia) ltac:(lia))
    as (tmp_g & tc_g & w_g & Hst_g & _ & Hc_g & Hframe_g & Htc_g & Hkeep_g & _
        & Hrun_g).
  replace (S (n + r) + (g - S (n + r)))%nat with g in Hst_g, Hrun_g, Hframe_g by lia.
  assert (life_forms w_g !! g = Some gc) as Hgc_g
    by (rewrite Hframe_g by lia; exact Hgc_2).
  destruct (turnover_body_step g tmp_g tc_g w_g gc Hst_g ltac:(lia) Hgc_g)
    as (tmp_3 & tc_3 & w_3 & Hstep_g & Hst_3 & _ & _ & _ & Htc_3 & _).
  rewrite Hal_g in Htc_3. destruct Htc_3 as [-> Hpush_g].
  destruct (turnover_tail (S g) tmp_3 (S tc_g) w_3 (fuel - (g - S (n + r)) - 1) Hst_3
              ltac:(unfold fuel; lia))
    as (tmp'' & tc'' & w3' & Hrun_t' & _ & _ & Htc'' & Hkeep_t').
  rewrite Hrun_g in Hrun_t by (unfold fuel; lia).
  rewrite (turnover_from_step _ g _ _ _ _ Hstep_g) in Hrun_t by (unfold fuel; lia).
  rewrite Hrun_t' in Hrun_t. injection Hrun_t as -> -> ->.
  exists tc_g, g, gc. split; [lia|]. split; [lia|]. split; [exact Hgc|].
  rewrite Hpop, lookup_take_lt by lia. rewrite Hkeep_t' by lia. exact Hpush_g.
Qed.

End Turnover.

(** ** One tick *)

Section Tick.
Context {stdlib_h : Stdlib_h} {math_h : Math_h}.

Lemma elem_of_population lf w :
  lf ∈ population w <->
  exists i, (i < life_form_count w)%nat /\ life_forms w !! i = Some lf.
Proof.
  unfold population. rewrite elem_of_take. split; intros (i & H1 & H2); eauto.
Qed.

(** [initialize_simulation] on freshly allocated arrays: ten life forms
    whose ids are their slots, and fifty food items. *)
Lemma initialize_simulation_spec w0 :
  allocated w0 ->
  exists w,
    initialize_simulation w0 = Ok (tt, w) /\
    well_formed w /\
    life_form_count w = INITIAL_LIFE_FORMS /\
    food_count w = INITIAL_FOOD_SOURCES /\
    ids w = seq 0 INITIAL_LIFE_FORMS.
Proof.
  intros [Hal Haf]. unfold initialize_simulation, modify. unfold bind at 1 2.
  set (w1 := set_food_count 0 (set_life_form_count 0 w0)).
  destruct (for_upto_rule
    (fun i (_ : unit) w =>
       (i <= INITIAL_LIFE_FORMS)%nat /\
       length (life_forms w) = MAX_LIFE_FORMS /\
       food_sources w = food_sources w0 /\ food_count w = 0%nat /\
       life_form_count w = i /\
       map LifeForm.id (take i (life_forms w)) = seq 0 i)
    0 (fun _ _ => INITIAL_LIFE_FORMS) initial_life_form tt w1)
    as (j & [] & w2 & Hrun2 & (Hj & Hl2 & Hf2 & Hfc2 & Hc2 & Hids2) & Hexit2).
  - intros i [] w (Hi & Hl & Hf & Hfc & Hc & Hids) Hlt. split; [lia|].
    unfold initial_life_form, rand_colour, rand_unit, rand, ret.
    unfold bind at 1 2 3 4 5 6 7 8 9 10.
    match goal with |- context [spawn_life_form ?x ?y ?e ?s ?r ?g ?b ?w'] =>
      destruct (spawn_life_form_spec x y e s r g b w' Hl)
        as (w'' & Hspawn & Hf'' & Hfc'' & Hcase)
    end.
    exists tt, w''. split; [exact Hspawn|]. simpl in *.
    destruct Hcase as [[Hfull _]|(_ & Hl'' & Hc'' & _)];
      [unfold INITIAL_LIFE_FORMS, MAX_LIFE_FORMS in *; lia|].
    rewrite Hl'', Hc'', Hc, length_insert.
    split; [lia|]. split; [exact Hl|]. split; [congruence|].
    split; [congruence|]. split; [reflexivity|].
    erewrite take_S_r
      by (apply list_lookup_insert_eq; rewrite Hl;
          unfold INITIAL_LIFE_FORMS, MAX_LIFE_FORMS in *; lia).
    rewrite take_insert_ge by lia.
    rewrite map_app, Hids. cbn [map LifeForm.id].
    symmetry. apply (seq_S i 0).
  - unfold INITIAL_LIFE_FORMS. repeat split; auto; lia.
  - rewrite (bind_Ok _ _ _ _ _ Hrun2).
    assert (j = INITIAL_LIFE_FORMS) as -> by lia.
    destruct (for_upto_rule
      (fun i (_ : unit) w =>
         (i <= INITIAL_FOOD_SOURCES)%nat /\
         life_forms w = life_forms w2 /\
         life_form_count w = INITIAL_LIFE_FORMS /\
         length (food_sources w) = MAX_FOOD_SOURCES /\
         food_count w = i)
      0 (fun _ _ => INITIAL_FOOD_SOURCES) initial_food tt w2)
      as (k & [] & w3 & Hrun3 & (Hk & Hl3 & Hc3 & Hfl3 & Hfc3) & Hexit3).
    + intros i [] w (Hi & Hl & Hc & Hfl & Hfc) Hlt. split; [lia|].
      unfold initial_food, rand_unit, rand, ret.
      unfold bind at 1 2 3 4.
      match goal with |- context [spawn_food ?x ?y ?w'] =>
        destruct (spawn_food_spec x y w' Hfl) as (w'' & Hspawn & Hl'' & Hc'' & Hcase)
      end.
      exists tt, w''. split; [exact Hspawn|]. simpl in *.
      destruct Hcase as [[_ Hfull]|(_ & Hfs'' & Hfc'')];
        [unfold INITIAL_FOOD_SOURCES, MAX_FOOD_SOURCES in *; lia|].
      rewrite Hfs'', Hfc'', length_insert.
      split; [lia|]. split; [congruence|]. split; [congruence|].
      split; [exact Hfl | congruence].
    + unfold INITIAL_FOOD_SOURCES. repeat split; auto; try lia. congruence.
    + exists w3. split; [exact Hrun3|].
      assert (k = INITIAL_FOOD_SOURCES) as -> by lia.
      split; [|split; [exact Hc3|split; [exact Hfc3|]]].
      * repeat split; try congruence;
          unfold INITIAL_LIFE_FORMS, INITIAL_FOOD_SOURCES, MAX_LIFE_FORMS,
            MAX_FOOD_SOURCES in *; lia.
      * unfold ids, population. rewrite Hc3, Hl3. exact Hids2.
Qed.

(** A tick runs to its end, without touching memory outside the arrays,
    and leaves a well-formed world. *)
Lemma simulate_step_total temp_life_forms w :
  well_formed w -> scratch_ok temp_life_forms ->
  exists w', simulate_step temp_life_forms w = Ok (tt, w') /\ well_formed w'.
Proof.
  intros Hwf Hscratch.
  destruct (update_and_feed_spec w Hwf)
    as (w1 & w2 & _ & _ & H12 & _ & Hwf2 & _ & Hc2 & Hfc2).
  destruct temp_life_forms as [temp|].
  - simpl in Hscratch.
    destruct (turnover_loop_spec (fun _ => True) w2 temp Hwf2 Hscratch)
      as (temp' & tc' & w3 & Hloop & Ht & Htc & _ & Hl3 & Hf3 & Hfc3 & _);
      [auto | auto |].
    destruct (simulate_step_Some w temp w2 temp' tc' w3 H12 Hloop)
      as (w' & Hrun & _ & Hc' & Hl' & Hf' & Hfc' & _); [lia | lia |].
    exists w'. split; [exact Hrun|].
    destruct Hwf2 as [[Hal2 Haf2] _]. repeat split; try congruence; lia.
  - exists w2. rewrite simulate_step_None. split; [exact H12 | exact Hwf2].
Qed.

(** Every world the program goes through is well-formed. *)
Lemma reachable_well_formed w : reachable w -> well_formed w.
Proof.
  induction 1 as [w0 w Halloc Hinit|t w w' _ IH Hscratch Hstep].
  - destruct (initialize_simulation_spec w0 Halloc) as (w1 & Hrun & Hwf & _).
    congruence.
  - destruct (simulate_step_total t w IH Hscratch) as (w1 & Hrun & Hwf).
    congruence.
Qed.

(** C4.  From a well-formed world (every reachable world is one, by
    [reachable_well_formed]), whatever [malloc] returns, [simulate_step]
    returns with both counts within capacity and the world well-formed
    again, so the bound holds along every run of ticks; and the life-form
    count can only grow in a tick in which some life form reaches the
    turnover at or above REPRODUCTION_THRESHOLD. *)
Theorem simulate_step_within_capacity temp_life_forms w :
  well_formed w -> scratch_ok temp_life_forms ->
  exists w',
    simulate_step temp_life_forms w = Ok (tt, w') /\
    (life_form_count w' <= MAX_LIFE_FORMS)%nat /\
    (food_count w' <= MAX_FOOD_SOURCES)%nat /\
    well_formed w' /\
    forall w2,
      update_and_feed w = Ok (tt, w2) ->
      (forall lf, lf ∈ population w2 ->
                  (LifeForm.energy lf < REPRODUCTION_THRESHOLD)%Q) ->
      (life_form_count w' <= life_form_count w)%nat.
Proof.
  intros Hwf Hscratch.
  destruct (update_and_feed_spec w Hwf)
    as (w1 & w2 & _ & _ & H12 & _ & Hwf2 & _ & Hc2 & Hfc2).
  destruct temp_life_forms as [temp|].
  - simpl in Hscratch.
    destruct (turnover_loop_spec (fun _ => True) w2 temp Hwf2 Hscratch)
      as (temp' & tc' & w3 & Hloop & Ht & Htc & _ & Hl3 & Hf3 & Hfc3 & _ & _ & Hquiet);
      [auto | auto |].
    destruct (simulate_step_Some w temp w2 temp' tc' w3 H12 Hloop)
      as (w' & Hrun & _ & Hc' & Hl' & Hf' & Hfc' & _); [lia | lia |].
    exists w'. split; [exact Hrun|].
    destruct Hwf2 as [[Hal2 Haf2] _].
    split; [lia|]. split; [lia|]. split.
    + repeat split; try congruence; lia.
    + intros w2' H12' Hlow. assert (w2' = w2) as -> by congruence.
      rewrite Hc', <- Hc2. apply Hquiet. intros i lf Hi Hlf.
      apply Hlow, elem_of_population. eauto.
  - exists w2. rewrite simulate_step_None. split; [exact H12|].
    destruct Hwf as [_ [Hcl _]].
    split; [lia|]. split; [lia|]. split; [exact Hwf2|].
    intros _ _ _. lia.
Qed.

Lemma portions_nonneg k : (0 <= portions k)%Q.
Proof.
  unfold portions. apply Qmult_le_0_compat.
  - change 0%Q with (inject_Z 0). rewrite <- Zle_Qle. lia.
  - unfold_params. lra.
Qed.

(** The energies of the collection after steps 1 and 2. *)
Lemma fed_population w :
  well_formed w ->
  exists w1 w2,
    update_pass w = Ok (tt, w1) /\
    update_and_feed w = Ok (tt, w2) /\
    well_formed w2 /\
    (forall lf, lf ∈ population w1 ->
       (0 <= LifeForm.energy lf <= MAX_ENERGY)%Q) /\
    (forall lf, lf ∈ population w2 -> (0 <= LifeForm.energy lf)%Q) /\
    (out_of_reach w1 ->
     forall lf, lf ∈ population w2 -> (LifeForm.energy lf <= MAX_ENERGY)%Q).
Proof.
  intros Hwf.
  destruct (update_pass_spec w Hwf) as (w1 & H1 & Hf1 & Hfc1 & Hc1 & Hl1 & Hupd & _).
  assert (well_formed w1) as Hwf1.
  { destruct Hwf as [[Hal Haf] [Hcl Hcf]]. repeat split; congruence. }
  destruct (handle_interactions_spec w1 Hwf1)
    as (wf_ & w2 & Hfeed & H2 & Hwf2 & Hc2 & Hl2 & _ & Hfed & Hidle).
  assert (forall lf, lf ∈ population w1 ->
            (0 <= LifeForm.energy lf <= MAX_ENERGY)%Q) as Hrange1.
  { intros lf1 (i & Hi & Hlf1)%elem_of_population.
    destruct (lookup_lt_is_Some_2 (life_forms w) i) as [lf Hlf].
    { apply lookup_lt_Some in Hlf1. lia. }
    destruct (Hupd i lf ltac:(lia) Hlf) as (lf' & Hlf' & Hrev).
    assert (lf' = lf1) as -> by congruence.
    rewrite (revectored_energy _ _ Hrev). apply clamp_energy_range. }
  exists w1, w2. split; [exact H1|]. split.
  { unfold update_and_feed. now rewrite (bind_Ok _ _ _ _ _ H1). }
  split; [exact Hwf2|]. split; [exact Hrange1|]. split.
  - intros lf2 (i & Hi & Hlf2)%elem_of_population.
    destruct (lookup_lt_is_Some_2 (life_forms w1) i) as [lf1 Hlf1].
    { destruct Hwf1 as [[Hal1 _] _], Hwf2 as [[Hal2 _] _].
      apply lookup_lt_Some in Hlf2. lia. }
    destruct (Hfed i lf1 Hlf1) as (k & e' & He' & Hlf2').
    assert (lf2 = LifeForm.set_energy e' lf1) as -> by congruence.
    fields. rewrite He'.
    pose proof (Hrange1 lf1 ltac:(apply elem_of_population; exists i; split; [lia|auto])).
    pose proof (portions_nonneg k). lra.
  - intros Hout lf2 (i & Hi & Hlf2)%elem_of_population.
    specialize (Hidle Hout). subst wf_. rewrite Hl2 in Hlf2.
    apply Hrange1, elem_of_population. exists i. split; [lia | exact Hlf2].
Qed.

Lemma halving_keeps_below_max e :
  (e <= MAX_ENERGY)%Q -> (REPRODUCTION_THRESHOLD <= e)%Q -> (e / 2 <= MAX_ENERGY)%Q.
Proof. unfold_params. intros H1 H2. apply Qle_shift_div_r; lra. Qed.

(** C1, as the code has it.  From a well-formed world [simulate_step]
    returns, and every life form of the post-tick collection has energy at
    least 0.  The bound MAX_ENERGY holds for the whole collection when the
    update pass is over, and still holds after the tick if no life form
    was then within reach of a present food item; food eaten in the
    interaction pass is added without a clamp. *)
Theorem energy_range_after_tick temp_life_forms w :
  well_formed w -> scratch_ok temp_life_forms ->
  exists w1 w',
    update_pass w = Ok (tt, w1) /\
    simulate_step temp_life_forms w = Ok (tt, w') /\
    (forall lf, lf ∈ population w1 ->
       (0 <= LifeForm.energy lf <= MAX_ENERGY)%Q) /\
    (forall lf, lf ∈ population w' -> (0 <= LifeForm.energy lf)%Q) /\
    (out_of_reach w1 ->
     forall lf, lf ∈ population w' -> (LifeForm.energy lf <= MAX_ENERGY)%Q).
Proof.
  intros Hwf Hscratch.
  destruct (fed_population w Hwf) as (w1 & w2 & H1 & H12 & Hwf2 & Hr1 & Hlow2 & Hup2).
  exists w1. destruct temp_life_forms as [temp|].
  - simpl in Hscratch.
    destruct (turnover_loop_spec (fun _ => True) w2 temp Hwf2 Hscratch)
      as (temp' & tc' & w3 & Hloop & Ht & Htc & _ & Hl3 & _ & _ & Hkept & _);
      [auto | auto |].
    destruct (simulate_step_Some w temp w2 temp' tc' w3 H12 Hloop)
      as (w' & Hrun & Hpop & _); [lia | lia |].
    exists w'. split; [exact H1|]. split; [exact Hrun|]. split; [exact Hr1|].
    rewrite Hpop. split.
    + intros lf (k & Hlf & Hk)%elem_of_take.
      apply Qlt_le_weak. now apply (Hkept k lf).
    + intros Hout lf (k & Hlf & Hk)%elem_of_take.
      destruct (turnover_loop_spec (fun e => (e <= MAX_ENERGY)%Q) w2 temp Hwf2 Hscratch)
        as (temp2 & tc2 & w32 & Hloop2 & _ & _ & _ & _ & _ & _ & Hkept2 & _).
      * exact halving_keeps_below_max.
      * intros i lf2 Hi Hlf2. apply (Hup2 Hout), elem_of_population. eauto.
      * rewrite Hloop in Hloop2. injection Hloop2 as <- <- <-.
        now apply (Hkept2 k lf).
  - exists w2. rewrite simulate_step_None.
    split; [exact H1|]. split; [exact H12|]. split; [exact Hr1|].
    split; [exact Hlow2 | exact Hup2].
Qed.


Lemma updated_identity lf :
  LifeForm.id (clamp_energy (moved lf)) = LifeForm.id lf /\
  LifeForm.r (clamp_energy (moved lf)) = LifeForm.r lf /\
  LifeForm.g (clamp_energy (moved lf)) = LifeForm.g lf /\
  LifeForm.b (clamp_energy (moved lf)) = LifeForm.b lf /\
  LifeForm.speed_factor (clamp_energy (moved lf)) = LifeForm.speed_factor lf.
Proof.
  unfold clamp_energy, moved, bounce_y, bounce_x. cbv zeta.
  case_tests; auto.
Qed.

Lemma filter_drops_absent (l : list Food.t) j f :
  l !! j = Some f -> Food.is_present f = false ->
  (length (List.filter Food.is_present l) < length l)%nat.
Proof.
  revert j. induction l as [|a l IH]; intros j Hj Hf; [discriminate|].
  simpl. pose proof (List.filter_length_le Food.is_present l) as Hle.
  destruct j as [|j]; simpl in Hj.
  - injection Hj as ->. rewrite Hf. simpl in *. lia.
  - specialize (IH j Hj Hf). destruct (Food.is_present a); simpl; lia.
Qed.

Lemma filter_all_present (l : list Food.t) f :
  f ∈ List.filter Food.is_present l -> Food.is_present f = true.
Proof.
  rewrite list_elem_of_In, List.filter_In. now intros [_ H].
Qed.

Lemma for_loop_frame {A} (g : World -> World) (bound : A -> World -> nat)
    (body : nat -> A -> M A) :
  (forall a w, bound a (g w) = bound a w) ->
  (forall i a w a' w', body i a w = Ok (a', w') -> body i a (g w) = Ok (a', g w')) ->
  forall fuel i a w a' w',
    for_loop bound body fuel i a w = Ok (a', w') ->
    for_loop bound body fuel i a (g w) = Ok (a', g w').
Proof.
  intros Hbound Hbody fuel.
  induction fuel as [|fuel IH]; intros i a w a' w'; simpl; rewrite Hbound;
    destruct (i <? bound a w)%nat.
  - discriminate.
  - intros H. inversion H; subst. reflexivity.
  - destruct (body i a w) as [[a1 w1]| |] eqn:Hstep; try discriminate.
    rewrite (Hbody _ _ _ _ _ Hstep). apply IH.
  - intros H. inversion H; subst. reflexivity.
Qed.

Lemma count_blind_bind {A B} (m : M A) (k : A -> M B) :
  count_blind m -> (forall a, count_blind (k a)) -> count_blind (bind m k).
Proof.
  intros Hm Hk n w b w'. unfold bind.
  destruct (m w) as [[a w1]| |] eqn:H1; try discriminate.
  rewrite (Hm n _ _ _ H1). apply Hk.
Qed.

Lemma count_blind_ret {A} (a : A) : count_blind (ret a).
Proof. intros n w a' w' H. inversion H; subst. reflexivity. Qed.

Lemma count_blind_load_food j : count_blind (load_food j).
Proof.
  intros n w a w'. unfold load_food, load. cbn [food_sources set_life_form_count].
  destruct (food_sources w !! j); [|discriminate].
  intros H. inversion H; subst. reflexivity.
Qed.

Lemma count_blind_load_life_form i : count_blind (load_life_form i).
Proof.
  intros n w a w'. unfold load_life_form, load. cbn [life_forms set_life_form_count].
  destruct (life_forms w !! i); [|discriminate].
  intros H. inversion H; subst. reflexivity.
Qed.

Lemma count_blind_store_life_form i v : count_blind (store_life_form i v).
Proof.
  intros n w a w'. unfold store_life_form. cbn [life_forms set_life_form_count].
  destruct (i <? length (life_forms w))%nat; [|discriminate].
  intros H. inversion H; subst. reflexivity.
Qed.

Lemma count_blind_store_food j v : count_blind (store_food j v).
Proof.
  intros n w a w'. unfold store_food. cbn [food_sources set_life_form_count].
  destruct (j <? length (food_sources w))%nat; [|discriminate].
  intros H. inversion H; subst. reflexivity.
Qed.

Lemma count_blind_rand_unit : count_blind rand_unit.
Proof.
  intros n w a w'. unfold rand_unit, rand, bind, ret.
  intros H. inversion H; subst. reflexivity.
Qed.

Lemma count_blind_spawn_food x y : count_blind (spawn_food x y).
Proof.
  intros n w a w'. unfold spawn_food, gets, modify. unfold bind at 1 3.
  cbn [food_count set_life_form_count].
  destruct (food_count w <? MAX_FOOD_SOURCES)%nat.
  - revert a w'. apply (count_blind_bind (store_food _ _)
                          (fun _ w0 => Ok (tt, set_food_count (S (food_count w)) w0))).
    + apply count_blind_store_food.
    + intros _ n' w0 a w' H. inversion H; subst. reflexivity.
  - apply count_blind_ret.
Qed.

Lemma count_blind_feed i j : count_blind (feed i j tt).
Proof.
  unfold feed. apply count_blind_bind; [apply count_blind_load_food|].
  intros f. destruct (Food.is_present f); [|apply count_blind_ret].
  apply count_blind_bind; [apply count_blind_load_life_form|].
  intros lf. destruct (Qlt_bool _ _); [|apply count_blind_ret].
  apply count_blind_bind; [apply count_blind_store_life_form|]. intros _.
  apply count_blind_bind; [apply count_blind_store_food|]. intros _.
  apply count_blind_bind; [apply count_blind_rand_unit|]. intros u.
  destruct (Qlt_bool u 0.8); [|apply count_blind_ret].
  apply count_blind_bind; [apply count_blind_rand_unit|]. intros u1.
  apply count_blind_bind; [apply count_blind_rand_unit|]. intros u2.
  apply count_blind_spawn_food.
Qed.

Lemma count_blind_feed_all i : count_blind (feed_all i tt).
Proof.
  intros n w [] w'. unfold feed_all, for_upto. cbn [food_count set_life_form_count].
  apply (for_loop_frame (set_life_form_count n)); [reflexivity|].
  intros j [] w0 [] w0'. apply count_blind_feed.
Qed.

(** One feeding test, with what becomes of the food slots. *)
Lemma feed_meal i j w lf f :
  life_forms w !! i = Some lf -> food_sources w !! j = Some f ->
  (j < food_count w)%nat ->
  length (food_sources w) = MAX_FOOD_SOURCES ->
  (food_count w <= MAX_FOOD_SOURCES)%nat ->
  exists w',
    feed i j tt w = Ok (tt, w') /\
    if edible lf f then
      life_forms w' =
        <[i := LifeForm.set_energy (LifeForm.energy lf + ENERGY_GAIN_FROM_FOOD) lf]>
          (life_forms w) /\
      (food_count w <= food_count w' <= S (food_count w))%nat /\
      (food_count w' <= MAX_FOOD_SOURCES)%nat /\
      length (food_sources w') = MAX_FOOD_SOURCES /\
      food_sources w' !! j = Some (Food.set_is_present false f) /\
      (forall m, m <> j -> (m < food_count w)%nat ->
         food_sources w' !! m = food_sources w !! m) /\
      (forall m, (food_count w <= m < food_count w')%nat ->
         exists nf, food_sources w' !! m = Some nf /\ Food.is_present nf = true)
    else w' = w.
Proof.
  intros Hlf Hf Hj Hlen Hcap. unfold feed, edible.
  rewrite (bind_Ok _ _ _ _ _ (load_food_Ok _ _ _ Hf)).
  destruct (Food.is_present f) eqn:Hp; simpl; [|now exists w].
  rewrite (bind_Ok _ _ _ _ _ (load_life_form_Ok _ _ _ Hlf)).
  fold (in_reach lf f). destruct (in_reach lf f) eqn:Hr; [|now exists w].
  pose proof (lookup_lt_Some _ _ _ Hlf) as Hi.
  pose proof (lookup_lt_Some _ _ _ Hf) as Hjl.
  rewrite (bind_Ok _ _ _ _ _ (store_life_form_Ok _ _ _ Hi)).
  rewrite (bind_Ok _ _ _ _ _ (store_food_Ok j _ (set_life_forms _ w) Hjl)).
  rewrite (bind_Ok _ _ _ _ _ (rand_unit_Ok _)).
  destruct (Qlt_bool _ 0.8).
  - rewrite (bind_Ok _ _ _ _ _ (rand_unit_Ok _)).
    rewrite (bind_Ok _ _ _ _ _ (rand_unit_Ok _)).
    match goal with |- context [spawn_food ?x ?y ?w0] =>
      destruct (spawn_food_spec x y w0) as (w' & Hrun & Hl & Hc & Hfood)
    end.
    { simpl. now rewrite length_insert. }
    exists w'. split; [exact Hrun|]. rewrite Hl. simpl in *.
    split; [reflexivity|].
    destruct Hfood as [[-> Hfull]|(Hlt & Hfs & Hfc)]; simpl in *.
    + split; [lia|]. split; [lia|]. split; [now rewrite length_insert|].
      split; [apply list_lookup_insert_eq; lia|]. split.
      * intros m Hm _. now rewrite list_lookup_insert_ne.
      * intros m Hm. lia.
    + rewrite Hfs, Hfc, !length_insert.
      split; [lia|]. split; [lia|]. split; [exact Hlen|]. split; [|split].
      * rewrite list_lookup_insert_ne by lia. apply list_lookup_insert_eq. lia.
      * intros m Hm Hmc. rewrite !list_lookup_insert_ne by lia. reflexivity.
      * intros m Hm. assert (m = food_count w) as -> by lia.
        eexists. split; [apply list_lookup_insert_eq; rewrite length_insert; lia|].
        reflexivity.
  - eexists. split; [reflexivity|]. simpl.
    split; [reflexivity|]. split; [lia|]. split; [lia|].
    split; [now rewrite length_insert|].
    split; [apply list_lookup_insert_eq; lia|]. split.
    + intros m Hm _. now rewrite list_lookup_insert_ne.
    + intros m Hm. lia.
Qed.

Lemma filter_seq_ext (g h : nat -> bool) n :
  (forall m, (m < n)%nat -> g m = h m) ->
  List.filter g (seq 0 n) = List.filter h (seq 0 n).
Proof.
  intros Hext. apply List.filter_ext_in. intros m Hm%in_seq. apply Hext. lia.
Qed.

Lemma filter_seq_flip (g h : nat -> bool) n j :
  (j < n)%nat -> h j = false -> g j = true ->
  (forall m, (m < n)%nat -> m <> j -> g m = h m) ->
  length (List.filter g (seq 0 n)) = S (length (List.filter h (seq 0 n))).
Proof.
  induction n as [|n IH]; intros Hj Hh Hg Hext; [lia|].
  rewrite seq_S, !List.filter_app, !length_app. cbn [Nat.add List.filter].
  destruct (decide (j = n)) as [->|Hne].
  - rewrite Hh, Hg. rewrite (filter_seq_ext g h n) by (intros m Hm; apply Hext; lia).
    simpl. lia.
  - rewrite IH by (auto; try lia; intros m Hm; apply Hext; lia).
    rewrite (Hext n) by lia. simpl. lia.
Qed.

Lemma eaten_refl w : eaten w w = [].
Proof.
  unfold eaten. rewrite (filter_seq_ext _ (fun _ => false)).
  - induction (seq 0 (food_count w)) as [|m l IH]; [reflexivity | exact IH].
  - intros m Hm. unfold turned_absent.
    destruct (food_sources w !! m) as [g|]; [|reflexivity].
    destruct (Nat.leb_spec (food_count w) m); [lia|].
    now destruct (Food.is_present g).
Qed.

(** The scan of life form [i]: its energy rises by one portion for each
    food slot that the scan turns from present to absent. *)
Lemma feed_all_meals i w lf :
  life_forms w !! i = Some lf ->
  length (food_sources w) = MAX_FOOD_SOURCES ->
  (food_count w <= MAX_FOOD_SOURCES)%nat ->
  exists w' e',
    feed_all i tt w = Ok (tt, w') /\
    (e' == LifeForm.energy lf + portions (length (eaten w w')))%Q /\
    life_forms w' = <[i := LifeForm.set_energy e' lf]> (life_forms w).
Proof.
  intros Hlf Hlen Hcap. unfold feed_all.
  pose proof (lookup_lt_Some _ _ _ Hlf) as Hi.
  destruct (for_upto_rule
    (fun j (_ : unit) w' =>
       length (food_sources w') = MAX_FOOD_SOURCES /\
       (food_count w <= food_count w' <= MAX_FOOD_SOURCES)%nat /\
       (forall m g, (m < food_count w)%nat -> food_sources w' !! m = Some g ->
          Food.is_present g = true -> food_sources w !! m = Some g) /\
       exists e',
         (e' == LifeForm.energy lf + portions (length (eaten w w')))%Q /\
         life_forms w' = <[i := LifeForm.set_energy e' lf]> (life_forms w))
    MAX_FOOD_SOURCES (fun _ w => food_count w) (feed i) tt w)
    as (j & [] & w' & Hrun & (_ & _ & _ & e' & He' & Hlfs) & _).
  - intros j [] w' (Hlen' & Hfc & Hlive & e' & He' & Hlfs) Hlt. split; [lia|].
    destruct (lookup_lt_is_Some_2 (food_sources w') j) as [f' Hf']; [lia|].
    assert (life_forms w' !! i = Some (LifeForm.set_energy e' lf)) as Hcur.
    { rewrite Hlfs. now apply list_lookup_insert_eq. }
    destruct (feed_meal i j w' _ f' Hcur Hf' Hlt Hlen' ltac:(lia))
      as (w'' & Hstep & Hcase).
    exists tt, w''. split; [exact Hstep|].
    change (edible (LifeForm.set_energy e' lf) f') with (edible lf f') in Hcase.
    destruct (edible lf f') eqn:Hed.
    + destruct Hcase as (Hlfs'' & Hfc'' & Hcap'' & Hlen'' & Hgone & Hkeep & Hnew).
      assert (Food.is_present f' = true) as Hp'
        by (unfold edible in Hed; now apply andb_true_iff in Hed as [? _]).
      split; [exact Hlen''|]. split; [lia|]. split.
      * intros m g Hm Hg Hpg. destruct (decide (m = j)) as [->|Hne].
        -- rewrite Hgone in Hg. injection Hg as <-. discriminate Hpg.
        -- rewrite Hkeep in Hg by (auto; lia). now apply Hlive.
      * exists (e' + ENERGY_GAIN_FROM_FOOD)%Q. split.
        -- assert (length (eaten w w'') = S (length (eaten w w'))) as ->.
           { unfold eaten.
             assert (length (List.filter (turned_absent w w'') (seq 0 (food_count w'')))
                     = length (List.filter (turned_absent w w'') (seq 0 (food_count w'))))
               as ->.
             { destruct (decide (food_count w'' = food_count w')) as [->|Hgrow];
                 [reflexivity|].
               assert (food_count w'' = S (food_count w')) as -> by lia.
               rewrite seq_S, List.filter_app, length_app. cbn [Nat.add List.filter].
               destruct (Hnew (food_count w') ltac:(lia)) as (nf & Hnf & Hpn).
               unfold turned_absent at 2. rewrite Hnf, Hpn. simpl. lia. }
             apply (filter_seq_flip _ _ _ j Hlt).
             - unfold turned_absent. now rewrite Hf', Hp'.
             - unfold turned_absent. rewrite Hgone. cbn [Food.is_present
                 Food.set_is_present negb andb].
               destruct (Nat.leb_spec (food_count w) j) as [Hge|Hlow]; [reflexivity|].
               rewrite (Hlive j f' Hlow Hf' Hp'), Hp'. reflexivity.
             - intros m Hm Hne. unfold turned_absent.
               now rewrite Hkeep by (auto; lia). }
           rewrite portions_S, He'. ring.
        -- rewrite Hlfs'', Hlfs, list_insert_insert_eq. reflexivity.
    + subst w''. split; [exact Hlen'|]. split; [exact Hfc|]. split; [exact Hlive|].
      exists e'. split; [exact He' | exact Hlfs].
  - split; [exact Hlen|]. split; [lia|]. split; [auto|].
    exists (LifeForm.energy lf). split.
    + rewrite eaten_refl. unfold portions. simpl. ring.
    + rewrite set_energy_same. symmetry. now apply list_insert_id.
  - exists w', e'. rewrite Hrun. auto.
Qed.

(** The scan of life form [s] keeps [feeding_state], and touches no other
    life form. *)
Lemma feeding_step w i j lf f s w' :
  (i < life_form_count w)%nat -> (j < food_count w)%nat ->
  (life_form_count w <= length (life_forms w))%nat ->
  life_forms w !! i = Some lf -> edible lf f = true ->
  (forall i' lf', (i' < i)%nat -> life_forms w !! i' = Some lf' ->
     in_reach lf' f = false) ->
  feeding_state w i j f s w' -> (s < life_form_count w)%nat ->
  exists w'',
    feed_all s tt w' = Ok (tt, w'') /\
    feeding_state w i j f (S s) w'' /\
    (food_count w' <= food_count w'')%nat /\
    (forall m, m <> s -> life_forms w'' !! m = life_forms w' !! m).
Proof.
  intros Hi Hj Hcl Hlf Hed Hfirst (Hc & Hl & Hfl & Hfc & Hrest & Hlfs & Hbefore & Hafter) Hs.
  destruct (lookup_lt_is_Some_2 (life_forms w) s) as [lfs Hlfs_s]; [lia|].
  assert (life_forms w' !! s = Some lfs) as Hcur by (rewrite Hrest by lia; exact Hlfs_s).
  destruct (feed_all_spec s w' lfs Hcur Hfl ltac:(lia))
    as (w'' & Hstep & Hc'' & Hfl'' & Hfc'' & (k & e' & _ & Hlfs'' & _) & Hfood & _).
  exists w''. split; [exact Hstep|]. split; [|split; [lia|intros m Hm; rewrite Hlfs'';
    now apply list_lookup_insert_ne]].
  split; [congruence|]. split; [now rewrite Hlfs'', length_insert|].
  split; [exact Hfl''|]. split; [lia|]. split; [|split; [|split]].
  - intros m Hm. rewrite Hlfs'', list_lookup_insert_ne by lia. apply Hrest. lia.
  - intros m lfm Hm. destruct (decide (m = s)) as [->|Hne].
    + assert (lfm = lfs) as -> by congruence.
      exists e'. rewrite Hlfs''. apply list_lookup_insert_eq.
      apply lookup_lt_Some in Hcur. exact Hcur.
    + rewrite Hlfs'', list_lookup_insert_ne by auto. now apply Hlfs.
  - intros Hle. rewrite (Hfood j f) by (try apply Hbefore; lia).
    unfold edible. rewrite (Hfirst s lfs) by (auto; lia).
    now rewrite andb_false_r.
  - intros Hgt. destruct (decide (s = i)) as [->|Hne].
    + assert (lfs = lf) as -> by congruence.
      rewrite (Hfood j f) by (try apply Hbefore; lia). now rewrite Hed.
    + rewrite (Hfood j (Food.set_is_present false f)) by (try apply Hafter; lia).
      now rewrite edible_absent.
Qed.

(** The feeding loops up to life form [n]: where the pass on the whole
    collection stands then, and what the pass on the first [n] life forms
    returns. *)
Lemma feeding_prefix w i j lf f n :
  (i < life_form_count w)%nat -> (j < food_count w)%nat ->
  (life_form_count w <= length (life_forms w))%nat ->
  life_forms w !! i = Some lf -> edible lf f = true ->
  (forall i' lf', (i' < i)%nat -> life_forms w !! i' = Some lf' ->
     in_reach lf' f = false) ->
  (n <= life_form_count w)%nat ->
  forall d s ws,
    (s + d = n)%nat -> feeding_state w i j f s ws ->
    exists wn,
      feeding_state w i j f n wn /\
      (forall fuel, (d <= fuel)%nat ->
         for_loop (fun _ w => life_form_count w) feed_all fuel s tt ws
         = for_loop (fun _ w => life_form_count w) feed_all (fuel - d) n tt wn) /\
      (forall fuel, (d <= fuel)%nat ->
         for_loop (fun _ w => life_form_count w) feed_all fuel s tt
           (set_life_form_count n ws)
         = Ok (tt, set_life_form_count n wn)).
Proof.
  intros Hi Hj Hcl Hlf Hed Hfirst Hn d.
  induction d as [|d IH]; intros s ws Hsd Hstate.
  - assert (s = n) as -> by lia. exists ws. split; [exact Hstate|]. split.
    + intros fuel _. now rewrite Nat.sub_0_r.
    + intros fuel _. apply for_loop_done. simpl. lia.
  - destruct (feeding_step w i j lf f s ws Hi Hj Hcl Hlf Hed Hfirst Hstate ltac:(lia))
      as (ws' & Hstep & Hstate' & _ & _).
    destruct (IH (S s) ws' ltac:(lia) Hstate') as (wn & Hstate_n & Hreal & Hcut).
    exists wn. split; [exact Hstate_n|].
    pose proof Hstate as (Hc & _).
    split.
    + intros [|fuel] Hfuel; [lia|].
      rewrite (for_loop_step _ _ _ _ _ _ _ _ Hstep) by (cbn beta; lia).
      apply Hreal. lia.
    + intros [|fuel] Hfuel; [lia|].
      rewrite (for_loop_step _ _ _ _ _ _ _ _
                 (count_blind_feed_all s n _ _ _ Hstep)) by (simpl; lia).
      apply Hcut. lia.
Qed.

(** The scan of life form [n] within the pass: the world [wa] that the
    pass on the life forms before [n] leaves, the world [wb] after the
    scan of [n] from there, and the end of the pass. *)
Lemma set_life_form_count_restore n w :
  set_life_form_count (life_form_count w) (set_life_form_count n w) = w.
Proof. now destruct w. Qed.

Lemma feeding_scan w i j lf f n lfn :
  well_formed w ->
  (i < life_form_count w)%nat -> (j < food_count w)%nat ->
  life_forms w !! i = Some lf -> food_sources w !! j = Some f ->
  edible lf f = true ->
  (forall i' lf', (i' < i)%nat -> life_forms w !! i' = Some lf' ->
     in_reach lf' f = false) ->
  (n < life_form_count w)%nat -> life_forms w !! n = Some lfn ->
  exists wa wb w1 e',
    feeding_pass (set_life_form_count n w) = Ok (tt, wa) /\
    feed_all n tt wa = Ok (tt, wb) /\
    feeding_pass w = Ok (tt, w1) /\
    for_loop (fun _ w0 => life_form_count w0) feed_all
      (life_form_count w - S n) (S n) tt
      (set_life_form_count (life_form_count w) wb) = Ok (tt, w1) /\
    life_forms wa !! n = Some lfn /\
    (food_count w <= food_count wa <= food_count wb)%nat /\
    food_sources wa !! j = Some (if (n <=? i)%nat then f else Food.set_is_present false f) /\
    food_sources wb !! j = Some (if (n <? i)%nat then f else Food.set_is_present false f) /\
    food_sources w1 !! j = Some (Food.set_is_present false f) /\
    (e' == LifeForm.energy lfn + portions (length (eaten wa wb)))%Q /\
    life_forms w1 !! n = Some (LifeForm.set_energy e' lfn).
Proof.
  intros [[Hal Haf] [Hcl Hcf]] Hi Hj Hlf Hf Hed Hfirst Hn Hlfn.
  assert (life_form_count w <= length (life_forms w))%nat as Hcl' by lia.
  assert (feeding_state w i j f 0 w) as Hstate0.
  { unfold feeding_state. split; [reflexivity|]. split; [reflexivity|].
    split; [exact Haf|]. split; [lia|]. split; [reflexivity|].
    split; [|split; [intros _; exact Hf | intros Hlt; lia]].
    intros m lfm Hm. exists (LifeForm.energy lfm). now rewrite set_energy_same. }
  destruct (feeding_prefix w i j lf f n Hi Hj Hcl' Hlf Hed Hfirst ltac:(lia)
              n 0%nat w ltac:(lia) Hstate0)
    as (wn & Hstate_n & Hreal & Hcut).
  pose proof Hstate_n as (Hc & Hl & Hfl & Hfc & Hrest & Hlfs & Hbefore & Hafter).
  assert (life_forms wn !! n = Some lfn) as Hcur by (rewrite Hrest by lia; exact Hlfn).
  destruct (feed_all_meals n wn lfn Hcur Hfl ltac:(lia))
    as (wn' & e' & Hscan & He' & Hlfs').
  destruct (feeding_step w i j lf f n wn Hi Hj Hcl' Hlf Hed Hfirst Hstate_n Hn)
    as (wn'' & Hscan' & Hstate' & Hgrow & _).
  assert (wn'' = wn') as -> by congruence.
  pose proof Hstate' as (Hc' & Hl' & Hfl' & Hfc' & _ & _ & Hbefore' & Hafter').
  (* the rest of the pass *)
  destruct (for_loop_rule
    (fun s (_ : unit) w' =>
       (n < s)%nat /\ feeding_state w i j f s w' /\
       life_forms w' !! n = Some (LifeForm.set_energy e' lfn))
    (fun _ w => life_form_count w) feed_all (life_form_count w))
    with (fuel := (life_form_count w - S n)%nat) (i := S n) (a := tt) (w := wn')
    as (s1 & [] & w1 & Hrest1 & (Hs1 & Hstate1 & Hkeep1) & Hexit1 & _).
  - intros s [] w' (Hs & Hstate & Hkeep) Hlt.
    pose proof Hstate as (Hcs & _). rewrite Hcs in *. split; [lia|].
    destruct (feeding_step w i j lf f s w' Hi Hj Hcl' Hlf Hed Hfirst Hstate Hlt)
      as (w'' & Hstep & Hstate'' & _ & Hframe).
    exists tt, w''. split; [exact Hstep|]. split; [lia|]. split; [exact Hstate''|].
    rewrite Hframe by lia. exact Hkeep.
  - split; [lia|]. split; [exact Hstate'|].
    rewrite Hlfs'. apply list_lookup_insert_eq. apply lookup_lt_Some in Hcur. exact Hcur.
  - lia.
  - pose proof Hstate1 as (Hc1 & _ & _ & _ & _ & _ & _ & Hafter1).
    exists (set_life_form_count n wn), (set_life_form_count n wn'), w1, e'.
    split; [|split; [|split; [|split]]].
    + unfold feeding_pass, for_upto. cbn [life_form_count set_life_form_count].
      rewrite Nat.max_0_l. apply Hcut. lia.
    + now apply count_blind_feed_all.
    + unfold feeding_pass, for_upto. rewrite Nat.max_0_l.
      rewrite Hreal by lia.
      replace (life_form_count w - n)%nat with (S (life_form_count w - S n)) by lia.
      rewrite (for_loop_step _ _ _ _ _ _ _ _ Hscan) by (cbn beta; lia).
      exact Hrest1.
    + replace (set_life_form_count (life_form_count w) (set_life_form_count n wn'))
        with wn'
        by (rewrite <- Hc'; symmetry; apply set_life_form_count_restore).
      exact Hrest1.
    + cbn [life_forms food_sources food_count set_life_form_count].
      split; [exact Hcur|]. split; [lia|]. split; [|split; [|split; [|split]]].
      * destruct (Nat.leb_spec n i); [apply Hbefore | apply Hafter]; lia.
      * destruct (Nat.ltb_spec n i); [apply Hbefore' | apply Hafter']; lia.
      * apply Hafter1. rewrite Hc1 in Hexit1. lia.
      * exact He'.
      * exact Hkeep1.
Qed.

Lemma elem_of_eaten wa wb j :
  j ∈ eaten wa wb <-> (j < food_count wb)%nat /\ turned_absent wa wb j = true.
Proof.
  unfold eaten. rewrite list_elem_of_In, List.filter_In, in_seq.
  split; intros [H1 H2]; (split; [lia | exact H2]).
Qed.

(** C5, as the code has it.  [w] is the world when the interaction pass
    starts, so the energies in it are the updater's.  Let life form [i] be
    within reach of the present food item [j], no life form before it being
    so.  [wa] is what the pass makes of [w] over the [i] life forms before
    [i] (the pass with the count set to [i]), [wb] what the scan of life
    form [i] over the pool makes of [wa], and the loop of the pass, taken
    up after [i] from [wb] with the count set back, ends where the pass
    ends, in [w1].  The item is still there in [wa] and is one of the
    slots the scan turns absent, [eaten wa wb]; the compaction removes it
    from the pool (only present items remain, and there are fewer than
    before).  Life form [i] leaves [handle_interactions] with its energy
    raised by ENERGY_GAIN_FROM_FOOD for each of the slots of
    [eaten wa wb], no more and no less.  Every other life form [i'] leaves
    with its energy raised by ENERGY_GAIN_FROM_FOOD for each of the slots
    its own scan turned absent, and the item [j] is not among them. *)
Theorem first_in_reach_eats w i j lf f :
  well_formed w ->
  (i < life_form_count w)%nat -> (j < food_count w)%nat ->
  life_forms w !! i = Some lf -> food_sources w !! j = Some f ->
  Food.is_present f = true -> in_reach lf f = true ->
  (forall i' lf', (i' < i)%nat -> life_forms w !! i' = Some lf' ->
     in_reach lf' f = false) ->
  exists wa wb w1 w2 e',
    feeding_pass (set_life_form_count i w) = Ok (tt, wa) /\
    feed_all i tt wa = Ok (tt, wb) /\
    feeding_pass w = Ok (tt, w1) /\
    handle_interactions w = Ok (tt, w2) /\
    for_loop (fun _ w0 => life_form_count w0) feed_all
      (life_form_count w - S i) (S i) tt
      (set_life_form_count (life_form_count w) wb) = Ok (tt, w1) /\
    food_sources wa !! j = Some f /\
    j ∈ eaten wa wb /\
    food_sources w1 !! j = Some (Food.set_is_present false f) /\
    food_pool w2 = List.filter Food.is_present (food_pool w1) /\
    (forall f', f' ∈ food_pool w2 -> Food.is_present f' = true) /\
    (food_count w2 < food_count w1)%nat /\
    life_forms wa !! i = Some lf /\
    (1 <= length (eaten wa wb))%nat /\
    (e' == LifeForm.energy lf + portions (length (eaten wa wb)))%Q /\
    life_forms w2 !! i = Some (LifeForm.set_energy e' lf) /\
    forall i' lf', (i' < life_form_count w)%nat -> i' <> i ->
      life_forms w !! i' = Some lf' ->
      exists wa' wb' e'',
        feeding_pass (set_life_form_count i' w) = Ok (tt, wa') /\
        feed_all i' tt wa' = Ok (tt, wb') /\
        for_loop (fun _ w0 => life_form_count w0) feed_all
          (life_form_count w - S i') (S i') tt
          (set_life_form_count (life_form_count w) wb') = Ok (tt, w1) /\
        ~ (j ∈ eaten wa' wb') /\
        (e'' == LifeForm.energy lf' + portions (length (eaten wa' wb')))%Q /\
        life_forms w2 !! i' = Some (LifeForm.set_energy e'' lf').
Proof.
  intros Hwf Hi Hj Hlf Hf Hp Hr Hfirst.
  assert (edible lf f = true) as Hed by (unfold edible; now rewrite Hp, Hr).
  destruct (feeding_scan w i j lf f i lf Hwf Hi Hj Hlf Hf Hed Hfirst Hi Hlf)
    as (wa & wb & w1 & e' & Ha & Hb & H1 & Hon & Hlfa & Hfc & Hja & Hjb & Hj1 & He'
        & Hlf1).
  rewrite Nat.leb_refl in Hja. rewrite Nat.ltb_irrefl in Hjb.
  destruct (handle_interactions_spec w Hwf)
    as (w1' & w2 & H1' & H2 & Hwf2 & _ & Hl2 & Hpool & _).
  assert (w1' = w1) as -> by congruence.
  destruct (feeding_pass_spec w Hwf) as (w1' & H1'' & _ & _ & Hfl1 & Hfc1 & _).
  assert (w1' = w1) as -> by congruence.
  assert (j ∈ eaten wa wb) as Hin.
  { apply elem_of_eaten. split; [lia|].
    unfold turned_absent. rewrite Hjb, Hja, Hp. cbn. apply orb_true_r. }
  exists wa, wb, w1, w2, e'.
  split; [exact Ha|]. split; [exact Hb|]. split; [exact H1|]. split; [exact H2|].
  split; [exact Hon|]. split; [exact Hja|]. split; [exact Hin|]. split; [exact Hj1|].
  split; [exact Hpool|]. split; [|split; [|split; [exact Hlfa|split; [|split;
    [exact He'|split; [now rewrite Hl2|]]]]]].
  - intros f'. rewrite Hpool. apply filter_all_present.
  - assert (length (food_pool w2) = food_count w2) as <-.
    { unfold food_pool. apply length_take_le.
      destruct Hwf2 as [[_ Haf2] [_ Hcf2]]. lia. }
    assert (length (food_pool w1) = food_count w1) as <-.
    { unfold food_pool. apply length_take_le. lia. }
    rewrite Hpool. apply (filter_drops_absent _ j (Food.set_is_present false f)).
    + unfold food_pool. rewrite lookup_take_lt by lia. exact Hj1.
    + reflexivity.
  - apply list_elem_of_In in Hin. destruct (eaten wa wb); [contradiction|simpl; lia].
  - intros i' lf' Hi' Hne Hlf'.
    destruct (feeding_scan w i j lf f i' lf' Hwf Hi Hj Hlf Hf Hed Hfirst Hi' Hlf')
      as (wa' & wb' & w1' & e'' & Ha' & Hb' & H1o & Hon' & _ & Hfc' & Hja' & Hjb' & _
          & He'' & Hlf1').
    assert (w1' = w1) as -> by congruence.
    exists wa', wb', e''. split; [exact Ha'|]. split; [exact Hb'|].
    split; [exact Hon'|]. split; [|split; [exact He''|now rewrite Hl2]].
    rewrite elem_of_eaten. intros [_ Hturn]. unfold turned_absent in Hturn.
    rewrite Hjb', Hja' in Hturn.
    destruct (Nat.ltb_spec i' i), (Nat.leb_spec i' i); try lia.
    + rewrite Hp in Hturn. discriminate Hturn.
    + destruct (Nat.leb_spec (food_count wa') j); [lia|].
      cbn in Hturn. discriminate Hturn.
Qed.

Lemma moved_energy lf :
  LifeForm.energy (moved lf) = (LifeForm.energy lf - ENERGY_LOSS_PER_STEP)%Q.
Proof. unfold moved, bounce_y, bounce_x. cbv zeta. case_tests; reflexivity. Qed.

Lemma clamp_energy_in_range lf :
  (0 <= LifeForm.energy lf <= MAX_ENERGY)%Q -> clamp_energy lf = lf.
Proof.
  intros H. unfold clamp_energy. case_tests; try reflexivity; exfalso; qarith.
Qed.

Lemma unit_at_range n :
  (0 < RAND_MAX)%Z -> (0 <= rand_seq n <= RAND_MAX)%Z ->
  (0 <= unit_at n <= 1)%Q.
Proof.
  intros Hmax [Hlo Hhi]. unfold unit_at.
  assert (0 < inject_Z RAND_MAX)%Q as Hpos
    by (change 0%Q with (inject_Z 0); now rewrite <- Zlt_Qlt).
  split.
  - apply Qle_shift_div_l; [exact Hpos|]. rewrite Qmult_0_l.
    change 0%Q with (inject_Z 0). now rewrite <- Zle_Qle.
  - apply Qle_shift_div_r; [exact Hpos|]. rewrite Qmult_1_l.
    now rewrite <- Zle_Qle.
Qed.

Lemma mutated_speed_factor_range speed_factor u :
  (0.5 <= mutated_speed_factor speed_factor u <= 2.0)%Q.
Proof. unfold mutated_speed_factor. cbv zeta. case_tests; qarith. Qed.

(** The turnover loop on a collection of one agent that reproduces and
    whose offspring does not. *)
Lemma turnover_loop_lone_parent w temp lf :
  well_formed w -> length temp = MAX_LIFE_FORMS ->
  life_form_count w = 1%nat -> life_forms w !! 0%nat = Some lf ->
  (REPRODUCTION_THRESHOLD <= LifeForm.energy lf)%Q ->
  (LifeForm.energy lf / 2 < REPRODUCTION_THRESHOLD)%Q ->
  let child := offspring (halved lf) 1 (rand_calls w) in
  exists w3,
    turnover_loop (temp, 0%nat) w
      = Ok ((<[1%nat := child]> (<[0%nat := halved lf]> temp), 2%nat), w3) /\
    length (life_forms w3) = MAX_LIFE_FORMS.
Proof.
  intros [[Hal Haf] [Hcl Hcf]] Htemp Hc Hlf Hthr Hlow child.
  (* iteration 0: the parent *)
  destruct (turnover_body_spec 0 temp 0 w lf Hlf Hal Htemp)
    as (a1 & w1 & Hstep1 & _ & _ & Hcase1).
  assert (alive lf = true) as Halive
    by (apply alive_iff; unfold_params; lra).
  assert (reproduces lf 0 = true) as Hrep
    by (apply reproduces_iff; split; [exact Hthr | unfold MAX_LIFE_FORMS; lia]).
  rewrite Halive, Hrep in Hcase1. destruct Hcase1 as [-> Hworld].
  destruct Hworld as [(Hfull & _)|(_ & Hl1 & Hc1)];
    [unfold MAX_LIFE_FORMS in Hfull; lia|].
  rewrite Hc in Hl1, Hc1. fold child in Hl1.
  (* iteration 1: the offspring *)
  assert (length (life_forms w1) = MAX_LIFE_FORMS) as Hal1
    by (now rewrite Hl1, !length_insert).
  assert (life_forms w1 !! 1%nat = Some child) as Hchild.
  { rewrite Hl1. apply list_lookup_insert_eq. rewrite length_insert, Hal.
    unfold MAX_LIFE_FORMS. lia. }
  destruct (turnover_body_spec 1 (<[0%nat := halved lf]> temp) 1 w1 child Hchild Hal1)
    as (a2 & w2 & Hstep2 & _ & _ & Hcase2).
  { now rewrite length_insert. }
  assert (alive child = true) as Halive2.
  { apply alive_iff. apply (halved_alive lf Hthr). }
  assert (reproduces child 1 = false) as Hrep2.
  { unfold reproduces. apply andb_false_iff. left.
    apply not_true_iff_false. rewrite Qle_bool_iff. apply Qlt_not_le. exact Hlow. }
  rewrite Halive2, Hrep2 in Hcase2. destruct Hcase2 as [-> ->].
  change (1 <? MAX_LIFE_FORMS)%nat with true in Hstep2. cbn iota in Hstep2.
  exists w1. split; [|exact Hal1].
  unfold turnover_loop, for_upto. cbn beta. rewrite Hc.
  change (Nat.max MAX_LIFE_FORMS 1) with (S (S 198)).
  rewrite (for_loop_step _ _ _ _ _ _ _ _ Hstep1) by (cbn beta; rewrite Hc; lia).
  rewrite (for_loop_step _ _ _ _ _ _ _ _ Hstep2) by (cbn beta; rewrite Hc1; lia).
  rewrite for_loop_done by (cbn beta; rewrite Hc1; lia).
  reflexivity.
Qed.

(** C2, as the code has it.  A life form with energy 90, alone in a
    well-formed world without food, in a tick whose scratch buffer was
    allocated and with [rand()] within its range: [simulate_step] returns
    with exactly two life forms, the parent and then its offspring.  The
    parent has energy (90 - ENERGY_LOSS_PER_STEP) / 2 = 44.975, and the id
    and colour it had; the offspring has the parent's energy and colour, is
    within 5 units of the parent on each axis, and its speed factor is the
    parent's, mutated by a draw and clamped to [0.5, 2.0]. *)
Theorem lone_parent_reproduces w temp lf :
  well_formed w -> length temp = MAX_LIFE_FORMS ->
  life_form_count w = 1%nat -> food_count w = 0%nat ->
  life_forms w !! 0%nat = Some lf ->
  (LifeForm.energy lf == 90)%Q ->
  (0 < RAND_MAX)%Z -> (forall n, (0 <= rand_seq n <= RAND_MAX)%Z) ->
  exists w' parent child,
    simulate_step (Some temp) w = Ok (tt, w') /\
    population w' = [parent; child] /\
    (LifeForm.energy parent == (90 - ENERGY_LOSS_PER_STEP) / 2)%Q /\
    (LifeForm.energy parent == 44.975)%Q /\
    LifeForm.id parent = LifeForm.id lf /\
    (LifeForm.r parent, LifeForm.g parent, LifeForm.b parent)
      = (LifeForm.r lf, LifeForm.g lf, LifeForm.b lf) /\
    LifeForm.energy child = LifeForm.energy parent /\
    (-5 <= LifeForm.x child - LifeForm.x parent <= 5)%Q /\
    (-5 <= LifeForm.y child - LifeForm.y parent <= 5)%Q /\
    (exists c, LifeForm.speed_factor child
               = mutated_speed_factor (LifeForm.speed_factor parent) (unit_at c)) /\
    (0.5 <= LifeForm.speed_factor child <= 2.0)%Q /\
    (LifeForm.r child, LifeForm.g child, LifeForm.b child)
      = (LifeForm.r parent, LifeForm.g parent, LifeForm.b parent).
Proof.
  intros Hwf Htemp Hc Hfc Hlf He Hmax Hrange.
  destruct (update_pass_spec w Hwf) as (w1 & H1 & Hf1 & Hfc1 & Hc1 & Hl1 & Hupd & _).
  assert (well_formed w1) as Hwf1.
  { destruct Hwf as [[Hal Haf] [Hcl Hcf]]. repeat split; congruence. }
  destruct (Hupd 0%nat lf ltac:(lia) Hlf) as (lf1 & Hlf1 & Hrev).
  destruct (handle_interactions_spec w1 Hwf1)
    as (wf_ & w2 & _ & H2 & Hwf2 & Hc2 & Hl2 & _ & _ & Hidle).
  assert (wf_ = w1) as ->.
  { apply Hidle. intros i j lfi f _ Hj. lia. }
  assert (update_and_feed w = Ok (tt, w2)) as H12.
  { unfold update_and_feed. now rewrite (bind_Ok _ _ _ _ _ H1). }
  (* the updater leaves 89.95 *)
  assert (clamp_energy (moved lf) = moved lf) as Hclamp.
  { apply clamp_energy_in_range. rewrite moved_energy. unfold_params. lra. }
  rewrite Hclamp in Hrev.
  assert (LifeForm.energy lf1 = (LifeForm.energy lf - ENERGY_LOSS_PER_STEP)%Q) as He1
    by (rewrite (revectored_energy _ _ Hrev); apply moved_energy).
  destruct (turnover_loop_lone_parent w2 temp lf1 Hwf2 Htemp)
    as (w3 & Hloop & Hl3).
  { congruence. }
  { now rewrite Hl2. }
  { rewrite He1. unfold_params. lra. }
  { rewrite He1. unfold_params. apply Qlt_shift_div_r; lra. }
  destruct (simulate_step_Some w temp w2 _ _ w3 H12 Hloop)
    as (w' & Hrun & Hpop & _).
  { rewrite !length_insert, Htemp. unfold MAX_LIFE_FORMS. lia. }
  { rewrite Hl3. unfold MAX_LIFE_FORMS. lia. }
  exists w', (halved lf1), (offspring (halved lf1) 1 (rand_calls w2)).
  split; [exact Hrun|]. split.
  { rewrite Hpop. destruct temp as [|t0 [|t1 temp]]; try discriminate Htemp.
    reflexivity. }
  destruct (updated_identity lf) as (Hid & Hr & Hg & Hb & _).
  rewrite Hclamp in Hid, Hr, Hg, Hb.
  assert (LifeForm.energy (halved lf1) == (90 - ENERGY_LOSS_PER_STEP) / 2)%Q as Hhalf.
  { unfold halved. fields. rewrite He1, He. reflexivity. }
  split; [exact Hhalf|]. split.
  { rewrite Hhalf. reflexivity. }
  unfold halved, offspring. fields. rewrite Hrev. fields.
  split; [exact Hid|]. split; [congruence|]. split; [reflexivity|].
  pose proof (unit_at_range (rand_calls w2 + 1) Hmax (Hrange _)) as Hux.
  pose proof (unit_at_range (rand_calls w2 + 2) Hmax (Hrange _)) as Huy.
  split; [lra|]. split; [lra|]. split; [now exists (rand_calls w2)|].
  split; [apply mutated_speed_factor_range | reflexivity].
Qed.

(** C7.  With a null scratch pointer [simulate_step] is steps 1 and 2 and
    nothing else.  From a well-formed world it returns with the life-form
    count of the tick's start, and every slot of the collection holds the
    agent it held before, with its id, colour and speed factor: nobody is
    dropped, nobody is halved, nobody is added; its energy is the
    updater's plus what it ate. *)
Theorem simulate_step_alloc_failure w :
  well_formed w ->
  simulate_step None w = update_and_feed w /\
  exists w',
    simulate_step None w = Ok (tt, w') /\
    life_form_count w' = life_form_count w /\
    forall i lf, (i < life_form_count w)%nat -> life_forms w !! i = Some lf ->
      exists lf' k,
        life_forms w' !! i = Some lf' /\
        LifeForm.id lf' = LifeForm.id lf /\
        LifeForm.r lf' = LifeForm.r lf /\
        LifeForm.g lf' = LifeForm.g lf /\
        LifeForm.b lf' = LifeForm.b lf /\
        LifeForm.speed_factor lf' = LifeForm.speed_factor lf /\
        (LifeForm.energy lf' ==
         LifeForm.energy (clamp_energy (moved lf)) + portions k)%Q.
Proof.
  intros Hwf. split; [apply simulate_step_None|].
  destruct (update_pass_spec w Hwf) as (w1 & H1 & Hf1 & Hfc1 & Hc1 & Hl1 & Hupd & _).
  assert (well_formed w1) as Hwf1.
  { destruct Hwf as [[Hal Haf] [Hcl Hcf]]. repeat split; congruence. }
  destruct (handle_interactions_spec w1 Hwf1)
    as (wf_ & w2 & _ & H2 & _ & Hc2 & _ & _ & Hfed & _).
  exists w2. rewrite simulate_step_None. unfold update_and_feed.
  rewrite (bind_Ok _ _ _ _ _ H1). split; [exact H2|]. split; [congruence|].
  intros i lf Hi Hlf.
  destruct (Hupd i lf Hi Hlf) as (lf1 & Hlf1 & Hrev).
  destruct (Hfed i lf1 Hlf1) as (k & e' & He' & Hlf2).
  exists (LifeForm.set_energy e' lf1), k. split; [exact Hlf2|].
  destruct (updated_identity lf) as (Hid & Hr & Hg & Hb & Hsf).
  rewrite (revectored_energy _ _ Hrev) in He'.
  fields. rewrite Hrev. fields.
  repeat split; assumption.
Qed.

End Tick.

(** ** The statements at concrete inputs *)

Lemma observe_Some {A} (obs : World -> A) r a :
  observe obs r = Some a -> exists w', r = Ok (tt, w') /\ obs w' = a.
Proof.
  destruct r as [[[] w']| |]; simpl; try discriminate.
  intros [= <-]. now exists w'.
Qed.

Lemma energies_lookup w i e :
  energies w !! i = Some e ->
  exists lf, population w !! i = Some lf /\ lf ∈ population w /\
             (LifeForm.energy lf == e)%Q.
Proof.
  unfold energies. rewrite list_lookup_fmap.
  destruct (population w !! i) as [lf|] eqn:Hlf; simpl; [|discriminate].
  intros [= <-]. exists lf. split; [reflexivity|]. split.
  - eapply list_elem_of_lookup_2; eauto.
  - symmetry. apply Qred_correct.
Qed.

Lemma second_agent_view_Some w e p r :
  second_agent_view w = Some (e, p, r) ->
  exists lf f,
    life_forms w !! 1%nat = Some lf /\ food_sources w !! 0%nat = Some f /\
    (LifeForm.energy lf == e)%Q /\ Food.is_present f = p /\ in_reach lf f = r.
Proof.
  unfold second_agent_view.
  destruct (life_forms w !! 1%nat) as [lf|]; [|discriminate].
  destruct (food_sources w !! 0%nat) as [f|]; [|discriminate].
  intros [= <- <- <-]. exists lf, f. repeat split. symmetry. apply Qred_correct.
Qed.

Ltac concrete_well_formed :=
  repeat split; vm_compute; solve [reflexivity | intros H; discriminate H | lia].

Lemma feast_world_well_formed : well_formed feast_world.
Proof. concrete_well_formed. Qed.

Lemma starving_world_well_formed : well_formed starving_world.
Proof. concrete_well_formed. Qed.

Lemma shared_meal_world_well_formed : well_formed shared_meal_world.
Proof. concrete_well_formed. Qed.

Lemma update_life_form_position_in_window_witness :
  (food_count feast_world <= length (food_sources feast_world))%nat /\
  forall math_h : Math_h,
  exists lf' w',
    @update_life_form mid_rand math_h
      (LifeForm.mk 5000 (-70) 3 (-9) 50 1 0 0 0 0)
      (food_sources feast_world) (food_count feast_world) feast_world
      = Ok (lf', w') /\
    (LIFE_FORM_RADIUS <= LifeForm.x lf' <= WINDOW_WIDTH - LIFE_FORM_RADIUS)%Q /\
    (LIFE_FORM_RADIUS <= LifeForm.y lf' <= WINDOW_HEIGHT - LIFE_FORM_RADIUS)%Q.
Proof.
  assert (food_count feast_world <= length (food_sources feast_world))%nat as H
    by (vm_compute; lia).
  split; [exact H|]. intros math_h.
  exact (update_life_form_position_in_window _ _ _ _ H).
Defined.

Lemma update_life_form_reflects_left_wall_witness :
  let lf := LifeForm.mk (-1) 300 1 0 50 1 0 0 0 0 in
  (LifeForm.x lf == -1)%Q /\ (LifeForm.vx lf == 1)%Q /\
  forall math_h : Math_h,
  exists lf' w',
    @update_life_form mid_rand math_h lf
      (food_sources starving_world) (food_count starving_world) starving_world
      = Ok (lf', w') /\
    (LifeForm.x lf' == LIFE_FORM_RADIUS)%Q /\
    (LifeForm.vx (moved lf) == -1)%Q /\
    (no_food_present (food_sources starving_world) (food_count starving_world) ->
     ~ (@next_unit mid_rand starving_world < 0.01)%Q ->
     (LifeForm.vx lf' == -1)%Q).
Proof.
  cbv zeta.
  assert (food_count starving_world <= length (food_sources starving_world))%nat as H
    by (vm_compute; lia).
  split; [reflexivity|]. split; [reflexivity|]. intros math_h.
  apply update_life_form_reflects_left_wall; [exact H | reflexivity | reflexivity].
Defined.

Lemma simulate_step_within_capacity_witness :
  well_formed feast_world /\ scratch_ok (Some blank_scratch) /\
  forall math_h : Math_h,
  exists w',
    @simulate_step mid_rand math_h (Some blank_scratch) feast_world = Ok (tt, w') /\
    (life_form_count w' <= MAX_LIFE_FORMS)%nat /\
    (food_count w' <= MAX_FOOD_SOURCES)%nat /\
    well_formed w' /\
    forall w2,
      @update_and_feed mid_rand math_h feast_world = Ok (tt, w2) ->
      (forall lf, lf ∈ population w2 ->
                  (LifeForm.energy lf < REPRODUCTION_THRESHOLD)%Q) ->
      (life_form_count w' <= life_form_count feast_world)%nat.
Proof.
  split; [exact feast_world_well_formed|]. split; [reflexivity|]. intros math_h.
  exact (simulate_step_within_capacity (Some blank_scratch) feast_world
           feast_world_well_formed eq_refl).
Defined.

Lemma energy_range_after_tick_witness :
  well_formed feast_world /\ scratch_ok (Some blank_scratch) /\
  forall math_h : Math_h,
  exists w1 w',
    @update_pass mid_rand math_h feast_world = Ok (tt, w1) /\
    @simulate_step mid_rand math_h (Some blank_scratch) feast_world = Ok (tt, w') /\
    (forall lf, lf ∈ population w1 ->
       (0 <= LifeForm.energy lf <= MAX_ENERGY)%Q) /\
    (forall lf, lf ∈ population w' -> (0 <= LifeForm.energy lf)%Q) /\
    (out_of_reach w1 ->
     forall lf, lf ∈ population w' -> (LifeForm.energy lf <= MAX_ENERGY)%Q).
Proof.
  split; [exact feast_world_well_formed|]. split; [reflexivity|]. intros math_h.
  exact (energy_range_after_tick (Some blank_scratch) feast_world
           feast_world_well_formed eq_refl).
Defined.


Lemma simulate_step_alloc_failure_witness :
  well_formed shared_meal_world /\
  forall math_h : Math_h,
  @simulate_step mid_rand math_h None shared_meal_world
    = @update_and_feed mid_rand math_h shared_meal_world /\
  exists w',
    @simulate_step mid_rand math_h None shared_meal_world = Ok (tt, w') /\
    life_form_count w' = life_form_count shared_meal_world /\
    forall i lf, (i < life_form_count shared_meal_world)%nat ->
      life_forms shared_meal_world !! i = Some lf ->
      exists lf' k,
        life_forms w' !! i = Some lf' /\
        LifeForm.id lf' = LifeForm.id lf /\
        LifeForm.r lf' = LifeForm.r lf /\
        LifeForm.g lf' = LifeForm.g lf /\
        LifeForm.b lf' = LifeForm.b lf /\
        LifeForm.speed_factor lf' = LifeForm.speed_factor lf /\
        (LifeForm.energy lf' ==
         LifeForm.energy (clamp_energy (moved lf)) + portions k)%Q.
Proof.
  split; [exact shared_meal_world_well_formed|]. intros math_h.
  exact (simulate_step_alloc_failure shared_meal_world shared_meal_world_well_formed).
Defined.

(** C1, as stated, fails.  The agent of [feast_world] leaves the updater
    with energy 99.95, eats six items (+120, unclamped) and is halved by
    the turnover to 109.975; its offspring, spawned with 109.975,
    reproduces in the same tick and both end at 54.9875. *)
Lemma feast_exceeds_max_energy :
  well_formed feast_world /\
  forall math_h : Math_h,
  exists w',
    @simulate_step mid_rand math_h (Some blank_scratch) feast_world = Ok (tt, w') /\
    energies w' = [4399 # 40; 4399 # 80; 4399 # 80] /\
    ~ (forall lf, lf ∈ population w' ->
         (0 <= LifeForm.energy lf <= MAX_ENERGY)%Q).
Proof.
  split; [exact feast_world_well_formed|]. intros math_h.
  destruct (observe_Some energies
              (@simulate_step mid_rand math_h (Some blank_scratch) feast_world)
              [4399 # 40; 4399 # 80; 4399 # 80])
    as (w' & Hrun & Hen); [vm_compute; reflexivity|].
  exists w'. split; [exact Hrun|]. split; [exact Hen|].
  intros Hall.
  destruct (energies_lookup w' 0 (4399 # 40)) as (lf & _ & Hin & He);
    [now rewrite Hen|].
  specialize (Hall lf Hin). unfold_params. lra.
Qed.


Lemma first_in_reach_eats_witness :
  let lf := LifeForm.mk 100 100 0 0 100 1 0 200 30 30 in
  let f := Food.mk 100 100 true in
  well_formed feast_world /\
  (0 < life_form_count feast_world)%nat /\ (0 < food_count feast_world)%nat /\
  life_forms feast_world !! 0%nat = Some lf /\
  food_sources feast_world !! 0%nat = Some f /\
  Food.is_present f = true /\ in_reach lf f = true /\
  exists wa wb w1 w2 e',
    @feeding_pass mid_rand (set_life_form_count 0 feast_world) = Ok (tt, wa) /\
    @feed_all mid_rand 0 tt wa = Ok (tt, wb) /\
    @feeding_pass mid_rand feast_world = Ok (tt, w1) /\
    @handle_interactions mid_rand feast_world = Ok (tt, w2) /\
    for_loop (fun _ w0 => life_form_count w0) (@feed_all mid_rand)
      (life_form_count feast_world - 1) 1 tt
      (set_life_form_count (life_form_count feast_world) wb) = Ok (tt, w1) /\
    food_sources wa !! 0%nat = Some f /\
    0%nat ∈ eaten wa wb /\
    food_sources w1 !! 0%nat = Some (Food.set_is_present false f) /\
    food_pool w2 = List.filter Food.is_present (food_pool w1) /\
    (forall f', f' ∈ food_pool w2 -> Food.is_present f' = true) /\
    (food_count w2 < food_count w1)%nat /\
    life_forms wa !! 0%nat = Some lf /\
    (1 <= length (eaten wa wb))%nat /\
    (e' == LifeForm.energy lf + portions (length (eaten wa wb)))%Q /\
    life_forms w2 !! 0%nat = Some (LifeForm.set_energy e' lf) /\
    forall i' lf', (i' < life_form_count feast_world)%nat -> i' <> 0%nat ->
      life_forms feast_world !! i' = Some lf' ->
      exists wa' wb' e'',
        @feeding_pass mid_rand (set_life_form_count i' feast_world)
          = Ok (tt, wa') /\
        @feed_all mid_rand i' tt wa' = Ok (tt, wb') /\
        for_loop (fun _ w0 => life_form_count w0) (@feed_all mid_rand)
          (life_form_count feast_world - S i') (S i') tt
          (set_life_form_count (life_form_count feast_world) wb') = Ok (tt, w1) /\
        ~ (0%nat ∈ eaten wa' wb') /\
        (e'' == LifeForm.energy lf' + portions (length (eaten wa' wb')))%Q /\
        life_forms w2 !! i' = Some (LifeForm.set_energy e'' lf').
Proof.
  cbv zeta.
  assert (0 < life_form_count feast_world)%nat as Hi by (vm_compute; lia).
  assert (0 < food_count feast_world)%nat as Hj by (vm_compute; lia).
  split; [exact feast_world_well_formed|]. split; [exact Hi|]. split; [exact Hj|].
  split; [reflexivity|]. split; [reflexivity|]. split; [reflexivity|].
  split; [reflexivity|].
  apply (first_in_reach_eats feast_world 0 0 _ _ feast_world_well_formed Hi Hj
           eq_refl eq_refl eq_refl eq_refl).
  intros i' lf' Hlt. lia.
Defined.

(** C5, as stated, fails.  In [shared_meal_world] both agents are within
    reach of the one food item when the interaction pass starts.  The
    first one eats it; the second one ends the tick with the energy the
    updater left it, 49.95, not 69.95. *)
Lemma second_in_reach_gains_nothing :
  well_formed shared_meal_world /\
  forall math_h : Math_h,
  exists w1 w' lf f,
    @update_pass mid_rand math_h shared_meal_world = Ok (tt, w1) /\
    life_forms w1 !! 1%nat = Some lf /\ food_sources w1 !! 0%nat = Some f /\
    Food.is_present f = true /\ in_reach lf f = true /\
    @simulate_step mid_rand math_h (Some blank_scratch) shared_meal_world
      = Ok (tt, w') /\
    energies w' = [1399 # 20; 999 # 20] /\
    exists lf',
      population w' !! 1%nat = Some lf' /\
      (LifeForm.energy lf' == LifeForm.energy lf)%Q /\
      ~ (LifeForm.energy lf' == LifeForm.energy lf + ENERGY_GAIN_FROM_FOOD)%Q.
Proof.
  split; [exact shared_meal_world_well_formed|]. intros math_h.
  destruct (observe_Some second_agent_view
              (@update_pass mid_rand math_h shared_meal_world)
              (Some (999 # 20, true, true)))
    as (w1 & H1 & Hview); [vm_compute; reflexivity|].
  destruct (observe_Some energies
              (@simulate_step mid_rand math_h (Some blank_scratch) shared_meal_world)
              [1399 # 20; 999 # 20])
    as (w' & Hrun & Hen); [vm_compute; reflexivity|].
  apply second_agent_view_Some in Hview as (lf & f & Hlf & Hf & Hq & Hp & Hr).
  destruct (energies_lookup w' 1 (999 # 20)) as (lf' & Hlf' & _ & Hq');
    [now rewrite Hen|].
  exists w1, w', lf, f. split; [exact H1|]. split; [exact Hlf|].
  split; [exact Hf|]. split; [exact Hp|]. split; [exact Hr|].
  split; [exact Hrun|]. split; [exact Hen|].
  exists lf'. split; [exact Hlf'|]. split.
  - rewrite Hq, Hq'. reflexivity.
  - rewrite Hq, Hq'. unfold_params. intros H. discriminate H.
Qed.

Lemma fertile_world_well_formed : well_formed fertile_world.
Proof. concrete_well_formed. Qed.

Lemma lone_parent_reproduces_witness :
  let lf := LifeForm.mk 100 100 1 0 90 1 0 200 30 30 in
  well_formed fertile_world /\ length blank_scratch = MAX_LIFE_FORMS /\
  life_form_count fertile_world = 1%nat /\ food_count fertile_world = 0%nat /\
  life_forms fertile_world !! 0%nat = Some lf /\
  (LifeForm.energy lf == 90)%Q /\
  (0 < @RAND_MAX mid_rand)%Z /\
  (forall n, (0 <= @rand_seq mid_rand n <= @RAND_MAX mid_rand)%Z) /\
  forall math_h : Math_h,
  exists w' parent child,
    @simulate_step mid_rand math_h (Some blank_scratch) fertile_world = Ok (tt, w') /\
    population w' = [parent; child] /\
    (LifeForm.energy parent == (90 - ENERGY_LOSS_PER_STEP) / 2)%Q /\
    (LifeForm.energy parent == 44.975)%Q /\
    LifeForm.id parent = LifeForm.id lf /\
    (LifeForm.r parent, LifeForm.g parent, LifeForm.b parent)
      = (LifeForm.r lf, LifeForm.g lf, LifeForm.b lf) /\
    LifeForm.energy child = LifeForm.energy parent /\
    (-5 <= LifeForm.x child - LifeForm.x parent <= 5)%Q /\
    (-5 <= LifeForm.y child - LifeForm.y parent <= 5)%Q /\
    (exists c, LifeForm.speed_factor child
               = mutated_speed_factor (LifeForm.speed_factor parent)
                   (@unit_at mid_rand c)) /\
    (0.5 <= LifeForm.speed_factor child <= 2.0)%Q /\
    (LifeForm.r child, LifeForm.g child, LifeForm.b child)
      = (LifeForm.r parent, LifeForm.g parent, LifeForm.b parent).
Proof.
  cbv zeta.
  assert (forall n, (0 <= @rand_seq mid_rand n <= @RAND_MAX mid_rand)%Z) as Hrange
    by (intros n; simpl; lia).
  split; [exact fertile_world_well_formed|]. split; [reflexivity|].
  split; [reflexivity|]. split; [reflexivity|]. split; [reflexivity|].
  split; [reflexivity|]. split; [reflexivity|]. split; [exact Hrange|].
  intros math_h.
  apply (lone_parent_reproduces fertile_world blank_scratch _
           fertile_world_well_formed eq_refl eq_refl eq_refl eq_refl);
    [reflexivity | reflexivity | exact Hrange].
Defined.

(** C2, as stated, fails.  The updater takes ENERGY_LOSS_PER_STEP off the
    90 before the turnover halves it: parent and offspring end the tick
    with 44.975, not 45. *)
Lemma lone_parent_keeps_less_than_half :
  well_formed fertile_world /\
  forall math_h : Math_h,
  exists w',
    @simulate_step mid_rand math_h (Some blank_scratch) fertile_world = Ok (tt, w') /\
    energies w' = [1799 # 40; 1799 # 40] /\
    ~ (exists parent child,
         population w' = [parent; child] /\ (LifeForm.energy parent == 45)%Q).
Proof.
  split; [exact fertile_world_well_formed|]. intros math_h.
  destruct (observe_Some energies
              (@simulate_step mid_rand math_h (Some blank_scratch) fertile_world)
              [1799 # 40; 1799 # 40])
    as (w' & Hrun & Hen); [vm_compute; reflexivity|].
  exists w'. split; [exact Hrun|]. split; [exact Hen|].
  intros (parent & child & Hpop & He).
  destruct (energies_lookup w' 0 (1799 # 40)) as (lf & Hlf & _ & Hq);
    [now rewrite Hen|].
  rewrite Hpop in Hlf. injection Hlf as <-.
  rewrite He in Hq. discriminate Hq.
Qed.

Lemma after_a_death_world_well_formed : well_formed after_a_death_world.
Proof. concrete_well_formed. Qed.

Lemma crowded_world_well_formed : well_formed crowded_world.
Proof. concrete_well_formed. Qed.

(** C3 fails on the code.  [spawn_life_form] uses the current count as the
    new id.  In [after_a_death_world] the ids 1 and 2 are in use and the
    count is 2; the agent with id 1 eats, reproduces, and its offspring gets
    id 2 while the other holder of id 2 is alive. *)
Lemma spawn_reuses_a_live_id :
  well_formed after_a_death_world /\
  ids after_a_death_world = [1; 2]%nat /\
  NoDup (ids after_a_death_world) /\
  forall math_h : Math_h,
  exists w',
    @simulate_step mid_rand math_h (Some blank_scratch) after_a_death_world
      = Ok (tt, w') /\
    ids w' = [1; 2; 2]%nat /\
    energies w' = [1799 # 40; 999 # 20; 1799 # 40] /\
    ~ NoDup (ids w').
Proof.
  split; [exact after_a_death_world_well_formed|]. split; [reflexivity|].
  split.
  { change (ids after_a_death_world) with [1; 2]%nat.
    apply NoDup_cons. split; [|apply NoDup_singleton].
    intros H. apply list_elem_of_singleton in H. discriminate H. }
  intros math_h.
  destruct (observe_Some (fun w => (ids w, energies w))
              (@simulate_step mid_rand math_h (Some blank_scratch) after_a_death_world)
              ([1; 2; 2]%nat, [1799 # 40; 999 # 20; 1799 # 40]))
    as (w' & Hrun & Hobs); [vm_compute; reflexivity|].
  injection Hobs as Hids Hen.
  exists w'. split; [exact Hrun|]. split; [exact Hids|]. split; [exact Hen|].
  rewrite Hids. intros Hnd. apply NoDup_cons in Hnd as [_ Hnd].
  apply NoDup_cons in Hnd as [Hnot _]. apply Hnot, list_elem_of_here.
Qed.

Lemma offspring_joins_the_running_turnover_witness :
  well_formed feast_world /\ length blank_scratch = MAX_LIFE_FORMS /\
  forall math_h : Math_h,
  exists w2 lf,
    @update_and_feed mid_rand math_h feast_world = Ok (tt, w2) /\
    (0 < life_form_count w2)%nat /\ life_forms w2 !! 0%nat = Some lf /\
    (REPRODUCTION_THRESHOLD <= LifeForm.energy lf)%Q /\
    (life_form_count w2 + length (List.filter fertile (take 0 (life_forms w2)))
     < MAX_LIFE_FORMS)%nat /\
    let n := life_form_count w2 in
    let r := length (List.filter fertile (take 0 (life_forms w2))) in
    let p := length (List.filter alive (take 0 (life_forms w2))) in
    let a := length (List.filter alive (population w2)) in
    exists w' child,
      @simulate_step mid_rand math_h (Some blank_scratch) feast_world
        = Ok (tt, w') /\
      @child_of mid_rand (halved lf) child (n + r) /\
      LifeForm.energy child = (LifeForm.energy lf / 2)%Q /\
      take a (population w') = List.map kept (List.filter alive (population w2)) /\
      (p < a)%nat /\ population w' !! p = Some (halved lf) /\
      population w' !! (a + r)%nat
        = Some (if reproduces child (a + r) then halved child else child) /\
      (reproduces child (a + r) = true -> (n + (n + r) < MAX_LIFE_FORMS)%nat ->
       exists q slot grandchild,
         (a + r < q)%nat /\ (n + r < slot)%nat /\
         @child_of mid_rand (halved child) grandchild slot /\
         population w' !! q
           = Some (if reproduces grandchild q then halved grandchild
                   else grandchild)).
Proof.
  split; [exact feast_world_well_formed|]. split; [reflexivity|]. intros math_h.
  destruct (observe_Some energies
              (@update_and_feed mid_rand math_h feast_world) [4399 # 20])
    as (w2 & H12 & Hen); [vm_compute; reflexivity|].
  destruct (energies_lookup w2 0 (4399 # 20)) as (lf & Hlf & _ & He);
    [now rewrite Hen|].
  destruct (@update_and_feed_spec mid_rand math_h feast_world feast_world_well_formed)
    as (w1 & w2' & _ & _ & H12' & _ & _ & _ & Hc2 & _).
  assert (w2' = w2) as -> by congruence.
  change (life_form_count feast_world) with 1%nat in Hc2.
  unfold population in Hlf. rewrite Hc2 in Hlf. rewrite lookup_take_lt in Hlf by lia.
  assert (0 < life_form_count w2)%nat as Hi by lia.
  assert (REPRODUCTION_THRESHOLD <= LifeForm.energy lf)%Q as Hthr.
  { rewrite He. apply Qle_bool_imp_le. reflexivity. }
  assert (life_form_count w2 + length (List.filter fertile (take 0 (life_forms w2)))
          < MAX_LIFE_FORMS)%nat as Hroom.
  { rewrite Hc2, take_0. apply Nat.ltb_lt. reflexivity. }
  exists w2, lf. split; [exact H12|]. split; [exact Hi|]. split; [exact Hlf|].
  split; [exact Hthr|]. split; [exact Hroom|].
  exact (offspring_joins_the_running_turnover blank_scratch feast_world w2 0 lf
           feast_world_well_formed eq_refl H12 Hi Hlf Hthr Hroom).
Defined.

(** C10, as stated, fails: an offspring with enough energy does not
    reproduce when the scratch array has no headroom.  In [crowded_world]
    the first agent eats four items and reproduces; its offspring lands in
    the last free slot, 199, with energy 89.975.  When the loop gets to it,
    199 agents are in the scratch array, and it is copied as it is: the
    tick ends with 200 agents, the last one the offspring (id 199) with its
    89.975 unhalved. *)
Lemma offspring_without_headroom_does_not_reproduce :
  well_formed crowded_world /\
  life_form_count crowded_world = 199%nat /\
  forall math_h : Math_h,
  exists w',
    @simulate_step mid_rand math_h (Some blank_scratch) crowded_world = Ok (tt, w') /\
    first_and_last w'
      = (200%nat, Some (3599 # 40), Some (3599 # 40), Some 199%nat) /\
    exists child,
      population w' !! 199%nat = Some child /\
      (REPRODUCTION_THRESHOLD <= LifeForm.energy child)%Q /\
      (LifeForm.energy child == 89.975)%Q.
Proof.
  split; [exact crowded_world_well_formed|]. split; [reflexivity|].
  intros math_h.
  destruct (observe_Some first_and_last
              (@simulate_step mid_rand math_h (Some blank_scratch) crowded_world)
              (200%nat, Some (3599 # 40), Some (3599 # 40), Some 199%nat))
    as (w' & Hrun & Hobs); [vm_compute; reflexivity|].
  exists w'. split; [exact Hrun|]. split; [exact Hobs|].
  unfold first_and_last in Hobs. injection Hobs as _ _ Hlast _.
  destruct (energies_lookup w' 199 (3599 # 40) Hlast) as (child & Hchild & _ & Hq).
  exists child. split; [exact Hchild|]. rewrite Hq. unfold_params.
  split; [lra | reflexivity].
Qed.

(** * Further properties of the engine *)

(** ** Geometry and the spawners *)

Section Spawners.
Context {stdlib_h : Stdlib_h} {math_h : Math_h}.

Lemma square_nonneg (a : Q) : (0 <= a * a)%Q.
Proof. destruct (Qlt_le_dec a 0); nra. Qed.

(** X1.  [distance_sq] is never negative, does not depend on the order of
    the two points, is zero from a point to itself, and is at least the
    square of the offset on each axis.  (That it is zero only from a
    point to itself holds in exact arithmetic, not of a product of doubles
    that underflows, and is not stated.) *)
Theorem distance_sq_metric (x1 y1 x2 y2 : Q) :
  (0 <= distance_sq x1 y1 x2 y2)%Q /\
  (distance_sq x1 y1 x2 y2 == distance_sq x2 y2 x1 y1)%Q /\
  (distance_sq x1 y1 x1 y1 == 0)%Q /\
  ((x1 - x2) * (x1 - x2) <= distance_sq x1 y1 x2 y2)%Q /\
  ((y1 - y2) * (y1 - y2) <= distance_sq x1 y1 x2 y2)%Q.
Proof.
  unfold distance_sq. cbv zeta.
  pose proof (square_nonneg (x1 - x2)) as Hx.
  pose proof (square_nonneg (y1 - y2)) as Hy.
  split; [lra|]. split; [ring|]. split; [ring|]. split; lra.
Qed.

Lemma unit_velocity_bound n speed_factor :
  rand_in_range -> (0 <= speed_factor)%Q ->
  (- ((1 # 2) * MAX_SPEED * speed_factor)
   <= (unit_at n - 0.5) * MAX_SPEED * speed_factor
   <= (1 # 2) * MAX_SPEED * speed_factor)%Q.
Proof.
  intros [Hmax Hrange] Hsf.
  pose proof (unit_at_range n Hmax (Hrange n)) as [Hu0 Hu1].
  assert (0 <= unit_at n * speed_factor)%Q as Hlo
    by (apply Qmult_le_0_compat; assumption).
  assert (0 <= (1 - unit_at n) * speed_factor)%Q as Hhi
    by (apply Qmult_le_0_compat; [lra | assumption]).
  unfold_params. split; lra.
Qed.

(** X2.  [spawn_life_form] on a full collection changes nothing, not even
    the generator.  Below capacity it appends one life form to the
    collection: at the given position, with the given energy, speed factor
    and colour, the old count as id, and a velocity of at most
    MAX_SPEED / 2 times the speed factor on each axis, from the next two
    draws; the food is untouched. *)
Theorem spawn_life_form_appends x y energy speed_factor r g b w :
  length (life_forms w) = MAX_LIFE_FORMS ->
  rand_in_range -> (0 <= speed_factor)%Q ->
  exists w',
    spawn_life_form x y energy speed_factor r g b w = Ok (tt, w') /\
    food_sources w' = food_sources w /\ food_count w' = food_count w /\
    if (life_form_count w <? MAX_LIFE_FORMS)%nat then
      exists lf,
        population w' = population w ++ [lf] /\
        life_form_count w' = S (life_form_count w) /\
        rand_calls w' = S (S (rand_calls w)) /\
        LifeForm.x lf = x /\ LifeForm.y lf = y /\
        LifeForm.energy lf = energy /\ LifeForm.speed_factor lf = speed_factor /\
        LifeForm.id lf = life_form_count w /\
        (LifeForm.r lf, LifeForm.g lf, LifeForm.b lf) = (r, g, b) /\
        (- ((1 # 2) * MAX_SPEED * speed_factor) <= LifeForm.vx lf
         <= (1 # 2) * MAX_SPEED * speed_factor)%Q /\
        (- ((1 # 2) * MAX_SPEED * speed_factor) <= LifeForm.vy lf
         <= (1 # 2) * MAX_SPEED * speed_factor)%Q
    else w' = w.
Proof.
  intros Hlen Hrand Hsf.
  destruct (spawn_life_form_spec x y energy speed_factor r g b w Hlen)
    as (w' & Hrun & Hf & Hfc & Hcase).
  exists w'. split; [exact Hrun|]. split; [exact Hf|]. split; [exact Hfc|].
  destruct (Nat.ltb_spec (life_form_count w) MAX_LIFE_FORMS) as [Hlt|Hge].
  - destruct Hcase as [[Hfull _]|(_ & Hl & Hc & Hr)]; [lia|].
    eexists. split; [|split; [exact Hc|split; [exact Hr|]]].
    + unfold population. rewrite Hc, Hl.
      erewrite take_S_r by (apply list_lookup_insert_eq; lia).
      rewrite take_insert_ge by lia. reflexivity.
    + cbn. repeat split; try reflexivity;
        apply unit_velocity_bound; assumption.
  - destruct Hcase as [[_ ->]|(Hlt & _)]; [reflexivity | lia].
Qed.

(** X3.  [spawn_food] on a full pool changes nothing.  Below capacity it
    appends one present item at the given position to the pool; it never
    calls the generator and never touches the life forms. *)
Theorem spawn_food_appends x y w :
  length (food_sources w) = MAX_FOOD_SOURCES ->
  exists w',
    spawn_food x y w = Ok (tt, w') /\
    life_forms w' = life_forms w /\ life_form_count w' = life_form_count w /\
    rand_calls w' = rand_calls w /\
    if (food_count w <? MAX_FOOD_SOURCES)%nat then
      food_pool w' = food_pool w ++ [Food.mk x y true] /\
      food_count w' = S (food_count w)
    else w' = w.
Proof.
  intros Hlen. unfold spawn_food, gets. unfold bind at 1.
  destruct (Nat.ltb_spec (food_count w) MAX_FOOD_SOURCES) as [Hlt|Hge].
  - assert (food_count w < length (food_sources w))%nat as Hslot by lia.
    rewrite (bind_Ok _ _ _ _ _ (store_food_Ok _ _ _ Hslot)).
    eexists. split; [reflexivity|]. unfold food_pool. simpl.
    repeat split.
    erewrite take_S_r by (apply list_lookup_insert_eq; lia).
    rewrite take_insert_ge by lia. reflexivity.
  - exists w. repeat split.
Qed.

End Spawners.

(** ** More on the updater *)

Section UpdaterMore.
Context {stdlib_h : Stdlib_h} {math_h : Math_h}.

Lemma clamped_spec lo hi v :
  (lo <= hi)%Q ->
  ((v < lo)%Q -> (clamped lo hi v == lo)%Q) /\
  ((hi < v)%Q -> (clamped lo hi v == hi)%Q) /\
  ((lo <= v <= hi)%Q -> (clamped lo hi v == v)%Q).
Proof.
  intros Hle. unfold clamped.
  destruct (Q.min_spec hi v) as [[H1 H2]|[H1 H2]];
    destruct (Q.max_spec lo (Qmin hi v)) as [[H3 H4]|[H3 H4]];
    rewrite H4; repeat split; intros; lra.
Qed.

Lemma bounce_x_clamped lf :
  (LifeForm.x (bounce_x lf)
   == clamped LIFE_FORM_RADIUS (WINDOW_WIDTH - LIFE_FORM_RADIUS) (LifeForm.x lf))%Q.
Proof.
  destruct (clamped_spec LIFE_FORM_RADIUS (WINDOW_WIDTH - LIFE_FORM_RADIUS)
              (LifeForm.x lf)) as (Hlo & Hhi & Hin); [unfold_params; lra|].
  unfold bounce_x. case_tests; reflect_tests.
  - rewrite Hlo; [reflexivity | unfold_params; lra].
  - rewrite Hhi; [reflexivity | unfold_params; lra].
  - rewrite Hin; [reflexivity | unfold_params; lra].
Qed.

Lemma bounce_y_clamped lf :
  (LifeForm.y (bounce_y lf)
   == clamped LIFE_FORM_RADIUS (WINDOW_HEIGHT - LIFE_FORM_RADIUS) (LifeForm.y lf))%Q.
Proof.
  destruct (clamped_spec LIFE_FORM_RADIUS (WINDOW_HEIGHT - LIFE_FORM_RADIUS)
              (LifeForm.y lf)) as (Hlo & Hhi & Hin); [unfold_params; lra|].
  unfold bounce_y. case_tests; reflect_tests.
  - rewrite Hlo; [reflexivity | unfold_params; lra].
  - rewrite Hhi; [reflexivity | unfold_params; lra].
  - rewrite Hin; [reflexivity | unfold_params; lra].
Qed.

Lemma clamp_energy_clamped lf :
  (LifeForm.energy (clamp_energy lf) == clamped 0 MAX_ENERGY (LifeForm.energy lf))%Q.
Proof.
  destruct (clamped_spec 0 MAX_ENERGY (LifeForm.energy lf))
    as (Hlo & Hhi & Hin); [unfold_params; lra|].
  unfold clamp_energy. cbv zeta.
  destruct (Qlt_bool MAX_ENERGY (LifeForm.energy lf)) eqn:Hmax;
    case_tests; reflect_tests;
    first [ solve [exfalso; unfold_params; lra]
          | solve [rewrite Hhi by (unfold_params; lra); reflexivity]
          | solve [rewrite Hlo by (unfold_params; lra); reflexivity]
          | solve [rewrite Hin by (unfold_params; lra); reflexivity] ].
Qed.

Lemma bounce_x_y lf : LifeForm.y (bounce_x lf) = LifeForm.y lf.
Proof. unfold bounce_x. case_tests; reflexivity. Qed.

(** X4.  What [update_life_form] does to everything but the velocity: the
    position is the old one plus the velocity, put back into the window
    inset by the radius on each axis; the energy is the old one minus
    ENERGY_LOSS_PER_STEP, put back into [0, MAX_ENERGY]; id, colour and
    speed factor are never changed. *)
Theorem update_life_form_fields lf foods num_foods w :
  (num_foods <= length foods)%nat ->
  exists lf' w',
    update_life_form lf foods num_foods w = Ok (lf', w') /\
    (LifeForm.x lf'
     == clamped LIFE_FORM_RADIUS (WINDOW_WIDTH - LIFE_FORM_RADIUS)
          (LifeForm.x lf + LifeForm.vx lf))%Q /\
    (LifeForm.y lf'
     == clamped LIFE_FORM_RADIUS (WINDOW_HEIGHT - LIFE_FORM_RADIUS)
          (LifeForm.y lf + LifeForm.vy lf))%Q /\
    (LifeForm.energy lf'
     == clamped 0 MAX_ENERGY (LifeForm.energy lf - ENERGY_LOSS_PER_STEP))%Q /\
    LifeForm.id lf' = LifeForm.id lf /\
    (LifeForm.r lf', LifeForm.g lf', LifeForm.b lf')
      = (LifeForm.r lf, LifeForm.g lf, LifeForm.b lf) /\
    LifeForm.speed_factor lf' = LifeForm.speed_factor lf.
Proof.
  intros Hn.
  destruct (update_life_form_spec lf foods num_foods w Hn)
    as (lf' & w' & Hrun & _ & Hrev & _).
  exists lf', w'. split; [exact Hrun|].
  destruct (updated_identity lf) as (Hid & Hr & Hg & Hb & Hsf).
  rewrite (revectored_x _ _ Hrev), (revectored_y _ _ Hrev),
    (revectored_energy _ _ Hrev), clamp_energy_x, clamp_energy_y,
    clamp_energy_clamped, moved_energy.
  split; [|split; [|split; [reflexivity|]]].
  - unfold moved. cbv zeta. rewrite bounce_y_x, bounce_x_clamped. reflexivity.
  - unfold moved. cbv zeta. rewrite bounce_y_clamped, bounce_x_y. reflexivity.
  - rewrite Hrev. fields. rewrite Hid, Hr, Hg, Hb, Hsf. auto.
Qed.

(** The nearest-food scan returns the first present item at the least
    distance. *)
Lemma nearest_food_scan_min lf foods n w :
  (n <= length foods)%nat ->
  exists near,
    for_upto 0 (fun _ _ => n) (nearest_food_body lf foods) ((-1)%Q, (-1)%Z) w
      = Ok (near, w) /\
    (no_food_present foods n -> snd near = (-1)%Z) /\
    (~ no_food_present foods n ->
     exists idx f,
       snd near = Z.of_nat idx /\ (idx < n)%nat /\
       foods !! idx = Some f /\ Food.is_present f = true /\
       (forall j g, (j < n)%nat -> foods !! j = Some g -> Food.is_present g = true ->
          (food_distance lf f <= food_distance lf g)%Q) /\
       (forall j g, (j < idx)%nat -> foods !! j = Some g -> Food.is_present g = true ->
          (food_distance lf f < food_distance lf g)%Q)).
Proof.
  intros Hn.
  destruct (for_upto_rule
    (fun i near w' =>
       w' = w /\ (i <= n)%nat /\
       ((snd near = (-1)%Z /\ no_food_present foods i) \/
        exists idx f,
          snd near = Z.of_nat idx /\ (idx < i)%nat /\
          foods !! idx = Some f /\ Food.is_present f = true /\
          fst near = food_distance lf f /\
          (forall j g, (j < i)%nat -> foods !! j = Some g ->
             Food.is_present g = true ->
             (food_distance lf f <= food_distance lf g)%Q) /\
          (forall j g, (j < idx)%nat -> foods !! j = Some g ->
             Food.is_present g = true ->
             (food_distance lf f < food_distance lf g)%Q)))
    0 (fun _ _ => n) (nearest_food_body lf foods) ((-1)%Q, (-1)%Z) w)
    as (j & near & w' & Hrun & (-> & Hj & Hinv) & Hexit).
  - intros i near w' (-> & Hi & Hinv) Hlt. split; [lia|].
    destruct (lookup_lt_is_Some_2 foods i) as [f Hf]; [lia|].
    unfold nearest_food_body. rewrite (bind_Ok _ _ _ _ _ (load_Ok _ _ _ _ Hf)).
    fold (food_distance lf f).
    destruct (Food.is_present f) eqn:Hp.
    + destruct Hinv as [[Hnone Hno]|(idx & f0 & Hidx & Hlt0 & Hf0 & Hp0 & Hd & Hmin & Hfirst)].
      * rewrite Hnone. simpl. eexists _, _. split; [reflexivity|].
        split; [reflexivity|]. split; [lia|]. right. exists i, f.
        cbn [fst snd]. repeat split; auto.
        -- intros j g Hjlt Hg Hpg. destruct (decide (j = i)) as [->|Hne].
           ++ assert (g = f) as -> by congruence. apply Qle_refl.
           ++ rewrite (Hno j g) in Hpg by (auto; lia). discriminate.
        -- intros j g Hjlt Hg Hpg. rewrite (Hno j g) in Hpg by (auto; lia).
           discriminate.
      * replace (snd near =? -1)%Z with false by (symmetry; apply Z.eqb_neq; lia).
        simpl. destruct (Qlt_bool (food_distance lf f) (fst near)) eqn:Hcmp.
        -- apply Qlt_bool_iff in Hcmp. rewrite Hd in Hcmp.
           eexists _, _. split; [reflexivity|].
           split; [reflexivity|]. split; [lia|]. right. exists i, f.
           cbn [fst snd]. repeat split; auto.
           ++ intros j g Hjlt Hg Hpg. destruct (decide (j = i)) as [->|Hne].
              ** assert (g = f) as -> by congruence. apply Qle_refl.
              ** specialize (Hmin j g ltac:(lia) Hg Hpg). lra.
           ++ intros j g Hjlt Hg Hpg.
              specialize (Hmin j g ltac:(lia) Hg Hpg). lra.
        -- apply Qlt_bool_false in Hcmp. rewrite Hd in Hcmp.
           eexists _, _. split; [reflexivity|].
           split; [reflexivity|]. split; [lia|]. right. exists idx, f0.
           repeat split; auto; try lia.
           intros j g Hjlt Hg Hpg. destruct (decide (j = i)) as [->|Hne].
           ++ assert (g = f) as -> by congruence. exact Hcmp.
           ++ apply (Hmin j g); auto. lia.
    + eexists _, _. split; [reflexivity|]. split; [reflexivity|]. split; [lia|].
      destruct Hinv as [[Hnone Hno]|(idx & f0 & Hidx & Hlt0 & Hf0 & Hp0 & Hd & Hmin & Hfirst)].
      * left. split; [exact Hnone|]. intros j g Hjlt Hg.
        destruct (decide (j = i)) as [->|Hne]; [congruence|].
        apply (Hno j g); auto. lia.
      * right. exists idx, f0. repeat split; auto; try lia.
        intros j g Hjlt Hg Hpg. destruct (decide (j = i)) as [->|Hne];
          [congruence|]. apply (Hmin j g); auto. lia.
  - split; [reflexivity|]. split; [lia|]. left. split; [reflexivity|].
    intros j g Hjlt. lia.
  - assert (j = n) as -> by lia. exists near. rewrite Hrun.
    split; [reflexivity|].
    destruct Hinv as [[Hnone Hno]|(idx & f0 & Hidx & Hlt0 & Hf0 & Hp0 & Hd & Hmin & Hfirst)].
    + split; [auto|]. intros Hsome. contradiction.
    + split.
      * intros Hno. rewrite (Hno idx f0 Hlt0 Hf0) in Hp0. discriminate.
      * intros _. exists idx, f0. repeat split; auto.
Qed.

(** X5.  With a present food item among the first [num_foods],
    [update_life_form] aims the agent at the nearest one: the item [f]
    it steers to is present, no present item is nearer to the agent's new
    position, and every present item before [f] in the array is strictly
    farther (ties go to the first).  The new velocity is MAX_SPEED times
    the speed factor along the angle [atan2] gives for [f]; the previous
    velocity plays no part, and the generator is not called. *)
Theorem update_life_form_heads_for_nearest_food lf foods num_foods w :
  (num_foods <= length foods)%nat ->
  ~ no_food_present foods num_foods ->
  exists lf' idx f,
    update_life_form lf foods num_foods w = Ok (lf', w) /\
    (idx < num_foods)%nat /\ foods !! idx = Some f /\
    Food.is_present f = true /\
    (forall j g, (j < num_foods)%nat -> foods !! j = Some g ->
       Food.is_present g = true ->
       (food_distance (moved lf) f <= food_distance (moved lf) g)%Q) /\
    (forall j g, (j < idx)%nat -> foods !! j = Some g ->
       Food.is_present g = true ->
       (food_distance (moved lf) f < food_distance (moved lf) g)%Q) /\
    LifeForm.x lf' = LifeForm.x (moved lf) /\
    LifeForm.y lf' = LifeForm.y (moved lf) /\
    let angle := atan2 (Food.y f - LifeForm.y lf') (Food.x f - LifeForm.x lf') in
    LifeForm.vx lf' = (cos angle * MAX_SPEED * LifeForm.speed_factor lf)%Q /\
    LifeForm.vy lf' = (sin angle * MAX_SPEED * LifeForm.speed_factor lf)%Q.
Proof.
  intros Hn Hsome. unfold update_life_form. fold (moved lf).
  destruct (nearest_food_scan_min (moved lf) foods num_foods w Hn)
    as (near & Hscan & _ & Hmin).
  destruct (Hmin Hsome) as (idx & f & Hidx & Hlt & Hf & Hp & Hle & Hfirst).
  rewrite (bind_Ok _ _ _ _ _ Hscan).
  set (angle := atan2 (Food.y f - LifeForm.y (moved lf))
                      (Food.x f - LifeForm.x (moved lf))).
  set (steered :=
         LifeForm.set_vy (sin angle * MAX_SPEED * LifeForm.speed_factor (moved lf))
           (LifeForm.set_vx (cos angle * MAX_SPEED * LifeForm.speed_factor (moved lf))
              (moved lf))).
  assert (steer (moved lf) foods (snd near) w = Ok (steered, w)) as Hsteer.
  { unfold steer. rewrite Hidx.
    replace (Z.of_nat idx =? -1)%Z with false by (symmetry; apply Z.eqb_neq; lia).
    cbn [negb]. rewrite Nat2Z.id.
    rewrite (bind_Ok _ _ _ _ _ (load_Ok _ _ _ _ Hf)). reflexivity. }
  rewrite (bind_Ok _ _ _ _ _ Hsteer).
  exists (clamp_energy steered), idx, f. split; [reflexivity|].
  split; [exact Hlt|]. split; [exact Hf|]. split; [exact Hp|].
  split; [exact Hle|]. split; [exact Hfirst|].
  destruct (updated_identity lf) as (_ & _ & _ & _ & Hsf).
  assert (LifeForm.speed_factor (moved lf) = LifeForm.speed_factor lf) as Hsf'.
  { rewrite <- Hsf. unfold clamp_energy. case_tests; reflexivity. }
  assert (forall l, LifeForm.vy (clamp_energy l) = LifeForm.vy l) as Hvy
    by (intros l; unfold clamp_energy; case_tests; reflexivity).
  cbv zeta. rewrite clamp_energy_x, clamp_energy_y, clamp_energy_vx, Hvy.
  unfold steered, angle. fields. rewrite Hsf'. repeat split.
Qed.

(** X6.  Without a present food item among the first [num_foods],
    [update_life_form] draws once: below 0.01 the velocity is redrawn on
    both axes from the next two draws (three calls of [rand()] in all);
    otherwise the velocity is the one the bounce left, after a single
    call.  Nothing but the generator changes in the world. *)
Theorem update_life_form_wanders lf foods num_foods w :
  (num_foods <= length foods)%nat ->
  no_food_present foods num_foods ->
  exists lf' w',
    update_life_form lf foods num_foods w = Ok (lf', w') /\
    rand_only w w' /\
    if Qlt_bool (next_unit w) 0.01 then
      rand_calls w' = S (S (S (rand_calls w))) /\
      LifeForm.vx lf'
        = ((unit_at (S (rand_calls w)) - 0.5) * MAX_SPEED * LifeForm.speed_factor lf)%Q /\
      LifeForm.vy lf'
        = ((unit_at (S (S (rand_calls w))) - 0.5) * MAX_SPEED * LifeForm.speed_factor lf)%Q
    else
      rand_calls w' = S (rand_calls w) /\
      LifeForm.vx lf' = LifeForm.vx (moved lf) /\
      LifeForm.vy lf' = LifeForm.vy (moved lf).
Proof.
  intros Hn Hnone. unfold update_life_form. fold (moved lf).
  destruct (nearest_food_scan_min (moved lf) foods num_foods w Hn)
    as (near & Hscan & Hidx & _).
  rewrite (bind_Ok _ _ _ _ _ Hscan). rewrite (Hidx Hnone).
  destruct (updated_identity lf) as (_ & _ & _ & _ & Hsf).
  assert (LifeForm.speed_factor (moved lf) = LifeForm.speed_factor lf) as Hsf'.
  { rewrite <- Hsf. unfold clamp_energy. case_tests; reflexivity. }
  assert (forall l, LifeForm.vy (clamp_energy l) = LifeForm.vy l) as Hvy
    by (intros l; unfold clamp_energy; case_tests; reflexivity).
  destruct (Qlt_bool (next_unit w) 0.01) eqn:Hdraw.
  - set (redrawn :=
           LifeForm.set_vy
             ((unit_at (S (S (rand_calls w))) - 0.5) * MAX_SPEED
              * LifeForm.speed_factor (moved lf))
             (LifeForm.set_vx
                ((unit_at (S (rand_calls w)) - 0.5) * MAX_SPEED
                 * LifeForm.speed_factor (moved lf))
                (moved lf))).
    assert (steer (moved lf) foods (-1) w
            = Ok (redrawn, set_rand_calls (S (S (S (rand_calls w)))) w)) as Hsteer.
    { unfold steer. change (-1 =? -1)%Z with true. cbn [negb].
      rewrite (bind_Ok _ _ _ _ _ (rand_unit_Ok w)), Hdraw.
      rewrite (bind_Ok _ _ _ _ _ (rand_unit_Ok _)).
      rewrite (bind_Ok _ _ _ _ _ (rand_unit_Ok _)). reflexivity. }
    rewrite (bind_Ok _ _ _ _ _ Hsteer).
    eexists _, _. split; [reflexivity|]. split; [reflexivity|].
    rewrite clamp_energy_vx, Hvy. unfold redrawn. fields. rewrite Hsf'.
    repeat split.
  - assert (steer (moved lf) foods (-1) w
            = Ok (moved lf, set_rand_calls (S (rand_calls w)) w)) as Hsteer.
    { unfold steer. change (-1 =? -1)%Z with true. cbn [negb].
      rewrite (bind_Ok _ _ _ _ _ (rand_unit_Ok w)), Hdraw. reflexivity. }
    rewrite (bind_Ok _ _ _ _ _ Hsteer).
    eexists _, _. split; [reflexivity|]. split; [reflexivity|].
    rewrite clamp_energy_vx, Hvy. repeat split.
Qed.

End UpdaterMore.

(** ** More on the interaction pass *)

Section FeedingMore.
Context {stdlib_h : Stdlib_h} {math_h : Math_h}.

(** X7.  [handle_interactions] keeps the life-form count and touches
    nothing of a life form but its energy, which it only raises, by whole
    portions of ENERGY_GAIN_FROM_FOOD; it leaves a pool within capacity in
    which every item is present. *)
Theorem handle_interactions_only_feeds w :
  well_formed w ->
  exists w2,
    handle_interactions w = Ok (tt, w2) /\
    life_form_count w2 = life_form_count w /\
    (forall i lf, life_forms w !! i = Some lf ->
       exists lf' k,
         life_forms w2 !! i = Some lf' /\
         lf' = LifeForm.set_energy (LifeForm.energy lf') lf /\
         (LifeForm.energy lf' == LifeForm.energy lf + portions k)%Q /\
         (LifeForm.energy lf <= LifeForm.energy lf')%Q) /\
    pool_clean w2 /\
    (food_count w2 <= MAX_FOOD_SOURCES)%nat.
Proof.
  intros Hwf.
  destruct (handle_interactions_spec w Hwf)
    as (w1 & w2 & _ & H2 & Hwf2 & Hc2 & _ & Hpool & Hfed & _).
  exists w2. split; [exact H2|]. split; [exact Hc2|]. split; [|split].
  - intros i lf Hlf. destruct (Hfed i lf Hlf) as (k & e' & He' & Hlf').
    exists (LifeForm.set_energy e' lf), k. split; [exact Hlf'|].
    split; [reflexivity|]. fields. split; [exact He'|].
    rewrite He'. pose proof (portions_nonneg k). lra.
  - intros f. rewrite Hpool. apply filter_all_present.
  - apply Hwf2.
Qed.

Lemma present_count_app l1 l2 :
  present_count (l1 ++ l2) = (present_count l1 + present_count l2)%nat.
Proof. unfold present_count. now rewrite List.filter_app, length_app. Qed.

Lemma present_count_le l : (present_count l <= length l)%nat.
Proof. apply List.filter_length_le. Qed.

Lemma present_count_eat (l : list Food.t) j f :
  l !! j = Some f -> Food.is_present f = true ->
  S (present_count (<[j := Food.set_is_present false f]> l)) = present_count l.
Proof.
  revert j. induction l as [|a l IH]; intros j Hj Hp; [discriminate|].
  destruct j as [|j]; simpl in Hj.
  - injection Hj as ->. unfold present_count. simpl. now rewrite Hp.
  - specialize (IH j Hj Hp). unfold present_count in *. simpl.
    destruct (Food.is_present a); simpl; lia.
Qed.

(** One feeding test never raises the number of present items in the
    pool. *)
Lemma feed_present_count i j w lf f :
  life_forms w !! i = Some lf -> food_sources w !! j = Some f ->
  (j < food_count w)%nat ->
  length (food_sources w) = MAX_FOOD_SOURCES ->
  (food_count w <= MAX_FOOD_SOURCES)%nat ->
  exists w',
    feed i j tt w = Ok (tt, w') /\
    life_form_count w' = life_form_count w /\
    length (life_forms w') = length (life_forms w) /\
    length (food_sources w') = MAX_FOOD_SOURCES /\
    (food_count w' <= MAX_FOOD_SOURCES)%nat /\
    (present_count (food_pool w') <= present_count (food_pool w))%nat.
Proof.
  intros Hlf Hf Hj Hlen Hcap.
  destruct (feed_spec i j w lf f Hlf Hf Hlen) as (w' & Hrun & Hcase).
  exists w'. split; [exact Hrun|].
  unfold edible in Hcase. destruct (Food.is_present f) eqn:Hp; simpl in Hcase;
    [destruct (in_reach lf f)|]; try (subst w'; repeat split; auto; lia).
  destruct Hcase as (Hl & Hc & Hfood).
  split; [exact Hc|]. split; [now rewrite Hl, length_insert|].
  assert (present_count (take (food_count w)
            (<[j := Food.set_is_present false f]> (food_sources w)))
          < present_count (food_pool w))%nat as Heaten.
  { rewrite take_insert_lt by exact Hj.
    assert (food_pool w !! j = Some f) as Hpool
      by (unfold food_pool; now rewrite lookup_take_lt).
    pose proof (present_count_eat (food_pool w) j f Hpool Hp) as Heat.
    unfold food_pool in *. lia. }
  destruct Hfood as [[Hfs Hfc]|(nf & Hroom & Hfs & Hfc)]; unfold food_pool at 1;
    rewrite Hfs, Hfc, ?length_insert.
  - split; [exact Hlen|]. split; [lia|]. lia.
  - split; [exact Hlen|]. split; [lia|].
    erewrite take_S_r
      by (apply list_lookup_insert_eq; rewrite length_insert; lia).
    rewrite take_insert_ge by lia. rewrite present_count_app.
    pose proof (present_count_le [nf]). simpl in *. lia.
Qed.

Lemma feed_all_present_count i w :
  (i < length (life_forms w))%nat ->
  length (food_sources w) = MAX_FOOD_SOURCES ->
  (food_count w <= MAX_FOOD_SOURCES)%nat ->
  exists w',
    feed_all i tt w = Ok (tt, w') /\
    life_form_count w' = life_form_count w /\
    length (life_forms w') = length (life_forms w) /\
    length (food_sources w') = MAX_FOOD_SOURCES /\
    (food_count w' <= MAX_FOOD_SOURCES)%nat /\
    (present_count (food_pool w') <= present_count (food_pool w))%nat.
Proof.
  intros Hi Hlen Hcap. unfold feed_all.
  destruct (for_upto_rule
    (fun j (_ : unit) w' =>
       life_form_count w' = life_form_count w /\
       length (life_forms w') = length (life_forms w) /\
       length (food_sources w') = MAX_FOOD_SOURCES /\
       (food_count w' <= MAX_FOOD_SOURCES)%nat /\
       (present_count (food_pool w') <= present_count (food_pool w))%nat)
    MAX_FOOD_SOURCES (fun _ w => food_count w) (feed i) tt w)
    as (j & [] & w' & Hrun & Hinv & _).
  - intros j [] w' (Hc & Hl & Hfl & Hfc & Hcount) Hlt. split; [lia|].
    destruct (lookup_lt_is_Some_2 (life_forms w') i) as [lf Hlf]; [lia|].
    destruct (lookup_lt_is_Some_2 (food_sources w') j) as [f Hf]; [lia|].
    destruct (feed_present_count i j w' lf f Hlf Hf Hlt Hfl Hfc)
      as (w'' & Hstep & Hc'' & Hl'' & Hfl'' & Hfc'' & Hcount'').
    exists tt, w''. split; [exact Hstep|]. repeat split; try congruence; lia.
  - repeat split; auto.
  - exists w'. now rewrite Hrun.
Qed.

Lemma feeding_pass_present_count w :
  well_formed w ->
  exists w1,
    feeding_pass w = Ok (tt, w1) /\
    (present_count (food_pool w1) <= present_count (food_pool w))%nat.
Proof.
  intros [[Hal Haf] [Hcl Hcf]]. unfold feeding_pass.
  destruct (for_upto_rule
    (fun i (_ : unit) w' =>
       life_form_count w' = life_form_count w /\
       length (life_forms w') = length (life_forms w) /\
       length (food_sources w') = MAX_FOOD_SOURCES /\
       (food_count w' <= MAX_FOOD_SOURCES)%nat /\
       (present_count (food_pool w') <= present_count (food_pool w))%nat)
    0 (fun _ w => life_form_count w) feed_all tt w)
    as (j & [] & w1 & Hrun & (_ & _ & _ & _ & Hcount) & _).
  - intros i [] w' (Hc & Hl & Hfl & Hfc & Hcount) Hlt. split; [lia|].
    destruct (feed_all_present_count i w' ltac:(lia) Hfl Hfc)
      as (w'' & Hstep & Hc'' & Hl'' & Hfl'' & Hfc'' & Hcount'').
    exists tt, w''. split; [exact Hstep|]. repeat split; try congruence; lia.
  - repeat split; auto.
  - exists w1. now rewrite Hrun.
Qed.

(** The pool that [handle_interactions] leaves. *)
Lemma handle_interactions_pool w :
  well_formed w ->
  exists w2,
    handle_interactions w = Ok (tt, w2) /\
    pool_clean w2 /\
    (food_count w2 <= present_count (food_pool w))%nat /\
    (food_count w2 <= food_count w)%nat.
Proof.
  intros Hwf.
  destruct (feeding_pass_present_count w Hwf) as (w1 & H1 & Hcount).
  destruct (handle_interactions_spec w Hwf)
    as (w1' & w2 & H1' & H2 & Hwf2 & _ & _ & Hpool & _).
  assert (w1' = w1) as -> by congruence.
  exists w2. split; [exact H2|]. split.
  { intros f. rewrite Hpool. apply filter_all_present. }
  assert (food_count w2 = present_count (food_pool w1)) as ->.
  { unfold present_count. rewrite <- Hpool. unfold food_pool.
    rewrite length_take_le; [reflexivity|].
    destruct Hwf2 as [[_ Haf2] [_ Hcf2]]. lia. }
  split; [exact Hcount|].
  pose proof (present_count_le (food_pool w)) as Hle.
  unfold food_pool in Hle at 2. rewrite length_take in Hle. lia.
Qed.

(** X8.  [handle_interactions] never grows the food pool: it leaves at
    most as many items as were present before (each item eaten is
    replaced by at most one), so the food count cannot rise. *)
Theorem handle_interactions_never_grows_food w :
  well_formed w ->
  exists w2,
    handle_interactions w = Ok (tt, w2) /\
    (food_count w2 <= present_count (food_pool w))%nat /\
    (food_count w2 <= food_count w)%nat.
Proof.
  intros Hwf.
  destruct (handle_interactions_pool w Hwf) as (w2 & H2 & _ & Hcount & Hle).
  exists w2. auto.
Qed.

(** Compaction does nothing to a pool without absent items. *)
Lemma compact_food_clean w :
  (food_count w <= length (food_sources w))%nat ->
  pool_clean w -> compact_food w = Ok (tt, w).
Proof.
  intros Hcap Hclean. unfold compact_food.
  destruct (for_upto_rule
    (fun i (current_food_idx : nat) w' =>
       w' = w /\ current_food_idx = i /\ (i <= food_count w)%nat)
    0 (fun _ w => food_count w) compact_body 0%nat w)
    as (j & cur & w' & Hrun & (-> & -> & Hj) & Hexit).
  - intros i cur w' (-> & -> & Hi) Hlt. split; [lia|].
    destruct (lookup_lt_is_Some_2 (food_sources w) i) as [f Hf]; [lia|].
    unfold compact_body. rewrite (bind_Ok _ _ _ _ _ (load_food_Ok _ _ _ Hf)).
    rewrite (Hclean f)
      by (apply elem_of_take; exists i; split; [exact Hf | exact Hlt]).
    assert (i < length (food_sources w))%nat as Hslot by lia.
    rewrite (bind_Ok _ _ _ _ _ (store_food_Ok _ _ _ Hslot)).
    eexists _, _. split; [reflexivity|].
    rewrite (list_insert_id _ _ _ Hf). destruct w. repeat split. simpl in *. lia.
  - repeat split. lia.
  - rewrite (bind_Ok _ _ _ _ _ Hrun). unfold modify.
    assert (j = food_count w) as -> by lia. now destruct w.
Qed.

(** X9.  When no life form is within reach of a present item and the pool
    holds no absent item, [handle_interactions] leaves the world exactly
    as it found it: no energy moves, no food moves, [rand()] is not
    called. *)
Theorem handle_interactions_idle w :
  well_formed w -> out_of_reach w -> pool_clean w ->
  handle_interactions w = Ok (tt, w).
Proof.
  intros Hwf Hout Hclean.
  destruct (feeding_pass_spec w Hwf) as (w1 & H1 & _ & _ & _ & _ & _ & Hidle).
  rewrite (Hidle Hout) in H1.
  unfold handle_interactions. rewrite (bind_Ok _ _ _ _ _ H1).
  destruct Hwf as [[_ Haf] [_ Hcf]].
  apply compact_food_clean; [lia | exact Hclean].
Qed.

End FeedingMore.

(** ** More on the tick *)

Section TickMore.
Context {stdlib_h : Stdlib_h} {math_h : Math_h}.

(** The update pass and the turnover do not touch the food: a tick leaves
    the pool that its interaction pass leaves. *)
Lemma simulate_step_food_frame temp_life_forms w :
  well_formed w -> scratch_ok temp_life_forms ->
  exists w1 w2 w',
    update_pass w = Ok (tt, w1) /\
    handle_interactions w1 = Ok (tt, w2) /\
    simulate_step temp_life_forms w = Ok (tt, w') /\
    well_formed w1 /\
    food_pool w1 = food_pool w /\ food_count w1 = food_count w /\
    food_pool w' = food_pool w2 /\ food_count w' = food_count w2.
Proof.
  intros Hwf Hscratch.
  destruct (update_pass_spec w Hwf) as (w1 & H1 & Hf1 & Hfc1 & Hc1 & Hl1 & _).
  assert (well_formed w1) as Hwf1.
  { destruct Hwf as [[Hal Haf] [Hcl Hcf]]. repeat split; congruence. }
  destruct (update_and_feed_spec w Hwf)
    as (w1' & w2 & H1' & H2 & H12 & _ & Hwf2 & _).
  assert (w1' = w1) as -> by congruence.
  assert (food_pool w1 = food_pool w) as Hpool1
    by (unfold food_pool; congruence).
  destruct temp_life_forms as [temp|].
  - simpl in Hscratch.
    destruct (turnover_loop_spec (fun _ => True) w2 temp Hwf2 Hscratch)
      as (temp' & tc' & w3 & Hloop & Ht & Htc & _ & Hl3 & Hf3 & Hfc3 & _);
      [auto | auto |].
    destruct (simulate_step_Some w temp w2 temp' tc' w3 H12 Hloop)
      as (w' & Hrun & _ & _ & _ & Hf' & Hfc' & _); [lia | lia |].
    exists w1, w2, w'. repeat split; try assumption; try apply Hwf1.
    + unfold food_pool. congruence.
    + congruence.
  - exists w1, w2, w2. rewrite simulate_step_None.
    repeat split; try assumption; apply Hwf1.
Qed.

(** X10.  Whatever [malloc] returns, a tick from a well-formed world
    leaves a food pool in which every item is present and that holds at
    most as many items as were present before the tick: the update pass
    and the turnover do not touch the food. *)
Theorem simulate_step_food temp_life_forms w :
  well_formed w -> scratch_ok temp_life_forms ->
  exists w',
    simulate_step temp_life_forms w = Ok (tt, w') /\
    pool_clean w' /\
    (food_count w' <= present_count (food_pool w))%nat /\
    (food_count w' <= food_count w)%nat.
Proof.
  intros Hwf Hscratch.
  destruct (simulate_step_food_frame temp_life_forms w Hwf Hscratch)
    as (w1 & w2 & w' & _ & H2 & Hrun & Hwf1 & Hpool1 & Hfc1 & Hpool' & Hfc').
  destruct (handle_interactions_pool w1 Hwf1) as (w2' & H2' & Hclean & Hcount & Hle).
  assert (w2' = w2) as -> by congruence.
  exists w'. split; [exact Hrun|]. split.
  - unfold pool_clean. rewrite Hpool'. exact Hclean.
  - rewrite Hfc', <- Hpool1, <- Hfc1. split; [exact Hcount | exact Hle].
Qed.

(** The turnover loop when no life form is at or above the threshold:
    the world is not touched, and the scratch array receives the life
    forms of positive energy, in their order. *)
Lemma turnover_loop_quiet w temp :
  well_formed w -> length temp = MAX_LIFE_FORMS ->
  (forall i lf, (i < life_form_count w)%nat -> life_forms w !! i = Some lf ->
     (LifeForm.energy lf < REPRODUCTION_THRESHOLD)%Q) ->
  exists temp' tc',
    turnover_loop (temp, 0%nat) w = Ok ((temp', tc'), w) /\
    length temp' = MAX_LIFE_FORMS /\
    (tc' <= life_form_count w)%nat /\
    take tc' temp' = List.filter alive (population w).
Proof.
  intros [[Hal Haf] [Hcl Hcf]] Htemp Hlow. unfold turnover_loop.
  destruct (for_upto_rule
    (fun i (a : list LifeForm.t * nat) w' =>
       w' = w /\
       length (fst a) = MAX_LIFE_FORMS /\
       (snd a <= i)%nat /\ (i <= life_form_count w)%nat /\
       take (snd a) (fst a) = List.filter alive (take i (life_forms w)))
    MAX_LIFE_FORMS (fun _ w => life_form_count w) turnover_body (temp, 0%nat) w)
    as (j & [temp' tc'] & w' & Hrun & (-> & Ht & Htc & Hj & Htake) & Hexit).
  - intros i [tmp tc] w' (-> & Ht & Htc & Hi & Htake) Hlt. cbn [fst snd] in *.
    split; [lia|].
    destruct (lookup_lt_is_Some_2 (life_forms w) i) as [lf Hlf]; [lia|].
    destruct (turnover_body_spec i tmp tc w lf Hlf Hal Ht)
      as (a' & w'' & Hstep & _ & _ & Hcase).
    exists a', w''. split; [exact Hstep|].
    rewrite (take_S_r _ _ _ Hlf), List.filter_app. cbn [List.filter].
    destruct (alive lf) eqn:Halive.
    + assert (reproduces lf tc = false) as Hrep.
      { destruct (reproduces lf tc) eqn:Hrep; [|reflexivity].
        apply reproduces_iff in Hrep as [Hthr _].
        specialize (Hlow i lf Hlt Hlf). lra. }
      rewrite Hrep in Hcase. destruct Hcase as [-> ->].
      replace (tc <? MAX_LIFE_FORMS)%nat with true by (symmetry; apply Nat.ltb_lt; lia).
      cbn [fst snd]. rewrite length_insert.
      split; [reflexivity|]. split; [exact Ht|]. split; [lia|]. split; [lia|].
      erewrite take_S_r by (apply list_lookup_insert_eq; lia).
      rewrite take_insert_ge by lia. now rewrite Htake.
    + destruct Hcase as [-> ->]. cbn [fst snd].
      split; [reflexivity|]. split; [exact Ht|]. split; [lia|]. split; [lia|].
      now rewrite app_nil_r.
  - cbn [fst snd]. repeat split; auto; lia.
  - cbn [fst snd] in *. exists temp', tc'. rewrite Hrun.
    split; [reflexivity|]. split; [exact Ht|]. split; [lia|].
    assert (j = life_form_count w) as -> by lia. exact Htake.
Qed.

(** X11.  A tick in which no life form reaches the turnover at or above
    REPRODUCTION_THRESHOLD (and the scratch buffer was allocated) removes
    the life forms without energy and nothing else: the survivors keep
    their order and all their fields, [rand()] is not called by the
    turnover, and the food is left as the interaction pass left it. *)
Theorem quiet_tick_keeps_survivors_in_order temp w :
  well_formed w -> length temp = MAX_LIFE_FORMS ->
  exists w2 w',
    update_and_feed w = Ok (tt, w2) /\
    simulate_step (Some temp) w = Ok (tt, w') /\
    ((forall lf, lf ∈ population w2 ->
        (LifeForm.energy lf < REPRODUCTION_THRESHOLD)%Q) ->
     population w' = List.filter alive (population w2) /\
     rand_calls w' = rand_calls w2 /\
     food_pool w' = food_pool w2).
Proof.
  intros Hwf Hscratch.
  destruct (update_and_feed_spec w Hwf)
    as (w1 & w2 & _ & _ & H12 & _ & Hwf2 & _).
  destruct (simulate_step_total (Some temp) w Hwf Hscratch) as (w' & Hrun & _).
  exists w2, w'. split; [exact H12|]. split; [exact Hrun|].
  intros Hlow.
  destruct (turnover_loop_quiet w2 temp Hwf2 Hscratch)
    as (temp' & tc' & Hloop & Ht & Htc & Htake).
  { intros i lf Hi Hlf. apply Hlow, elem_of_population. eauto. }
  destruct Hwf2 as [[Hal2 Haf2] [Hcl2 Hcf2]].
  destruct (simulate_step_Some w temp w2 temp' tc' w2 H12 Hloop)
    as (w'' & Hrun' & Hpop & _ & _ & Hf' & Hfc' & Hr'); [lia | lia |].
  assert (w'' = w') as -> by congruence.
  split; [congruence|]. split; [exact Hr'|]. unfold food_pool. congruence.
Qed.

(** X12.  Extinction is permanent.  With no life form in the collection a
    tick returns, for either outcome of [malloc] (the scratch buffer is
    not accessed), without calling [rand()] and without touching the
    life-form array; it only compacts the food pool, and leaves the world
    exactly as it was when the pool holds no absent item. *)
Theorem extinction_is_permanent temp_life_forms w :
  well_formed w -> life_form_count w = 0%nat ->
  exists w',
    simulate_step temp_life_forms w = Ok (tt, w') /\
    life_form_count w' = 0%nat /\
    life_forms w' = life_forms w /\
    rand_calls w' = rand_calls w /\
    food_pool w' = List.filter Food.is_present (food_pool w) /\
    (pool_clean w -> w' = w).
Proof.
  intros Hwf Hc.
  assert (update_pass w = Ok (tt, w)) as H1.
  { unfold update_pass, for_upto. apply for_loop_done. lia. }
  assert (feeding_pass w = Ok (tt, w)) as Hfeed.
  { unfold feeding_pass, for_upto. apply for_loop_done. lia. }
  destruct Hwf as [[Hal Haf] [Hcl Hcf]].
  destruct (compact_food_spec w ltac:(lia))
    as (w2 & Hcompact & Hl2 & Hc2 & Hr2 & Hfl2 & Hfc2 & Hpool).
  assert (handle_interactions w = Ok (tt, w2)) as H2.
  { unfold handle_interactions. now rewrite (bind_Ok _ _ _ _ _ Hfeed). }
  assert (pool_clean w -> w2 = w) as Hsame.
  { intros Hclean. rewrite compact_food_clean in Hcompact by (auto; lia).
    congruence. }
  assert (set_life_form_count 0 w2 = w2) as Hcount.
  { destruct w2. simpl in Hc2. rewrite Hc in Hc2. now subst. }
  exists w2. split; [|split; [congruence|auto]].
  unfold simulate_step.
  rewrite (bind_Ok _ _ _ _ _ H1), (bind_Ok _ _ _ _ _ H2).
  destruct temp_life_forms as [temp|]; [|reflexivity].
  assert (turnover_loop (temp, 0%nat) w2 = Ok ((temp, 0%nat), w2)) as Hloop.
  { unfold turnover_loop, for_upto. apply for_loop_done. lia. }
  rewrite (bind_Ok _ _ _ _ _ Hloop). cbn [fst snd].
  unfold gets at 1. unfold bind at 1. rewrite Hc2, Hc. cbn [Nat.ltb Nat.leb].
  unfold ret at 1. unfold bind at 1.
  assert (for_upto 0 (fun _ _ => 0%nat) (copy_back_body temp) tt w2 = Ok (tt, w2))
    as Hcopy.
  { unfold for_upto. apply for_loop_done. lia. }
  rewrite (bind_Ok _ _ _ _ _ Hcopy). unfold modify. now rewrite Hcount.
Qed.

(** The turnover loop on a full collection: nothing is spawned, and the
    scratch array receives life forms of the collection only, as they
    were or with their energy halved. *)
Lemma turnover_loop_full w temp :
  well_formed w -> length temp = MAX_LIFE_FORMS ->
  life_form_count w = MAX_LIFE_FORMS ->
  exists temp' tc' w3,
    turnover_loop (temp, 0%nat) w = Ok ((temp', tc'), w3) /\
    length temp' = MAX_LIFE_FORMS /\
    (tc' <= MAX_LIFE_FORMS)%nat /\
    length (life_forms w3) = MAX_LIFE_FORMS /\
    (forall k lf', (k < tc')%nat -> temp' !! k = Some lf' ->
       exists lf, lf ∈ population w /\ (0 < LifeForm.energy lf)%Q /\
         (lf' = lf \/
          ((REPRODUCTION_THRESHOLD <= LifeForm.energy lf)%Q /\ lf' = halved lf))) /\
    (forall lf0, life_forms w !! 0%nat = Some lf0 ->
       (REPRODUCTION_THRESHOLD <= LifeForm.energy lf0)%Q ->
       (0 < tc')%nat /\ temp' !! 0%nat = Some (halved lf0)).
Proof.
  intros [[Hal Haf] [Hcl Hcf]] Htemp Hfull. unfold turnover_loop.
  set (kept := fun lf' : LifeForm.t =>
    exists lf, lf ∈ population w /\ (0 < LifeForm.energy lf)%Q /\
      (lf' = lf \/
       ((REPRODUCTION_THRESHOLD <= LifeForm.energy lf)%Q /\ lf' = halved lf))).
  destruct (for_upto_rule
    (fun i (a : list LifeForm.t * nat) w' =>
       length (fst a) = MAX_LIFE_FORMS /\
       (snd a <= i)%nat /\ (i <= MAX_LIFE_FORMS)%nat /\
       life_form_count w' = MAX_LIFE_FORMS /\
       length (life_forms w') = MAX_LIFE_FORMS /\
       (forall m, (i <= m)%nat -> life_forms w' !! m = life_forms w !! m) /\
       (forall k lf', (k < snd a)%nat -> fst a !! k = Some lf' -> kept lf') /\
       (forall lf0, life_forms w !! 0%nat = Some lf0 ->
          (REPRODUCTION_THRESHOLD <= LifeForm.energy lf0)%Q -> (0 < i)%nat ->
          (0 < snd a)%nat /\ fst a !! 0%nat = Some (halved lf0)))
    MAX_LIFE_FORMS (fun _ w => life_form_count w) turnover_body (temp, 0%nat) w)
    as (j & [temp' tc'] & w3 & Hrun &
        (Ht & Htc & Hj & Hc3 & Hl3 & _ & Hkept & Hfirst) & Hexit).
  - intros i [tmp tc] w' Hinv Hlt. cbn [fst snd] in *.
    destruct Hinv as (Ht & Htc & Hi & Hc & Hl & Hrest & Hkept & Hfirst).
    split; [lia|].
    destruct (lookup_lt_is_Some_2 (life_forms w') i) as [lf Hlf]; [lia|].
    assert (life_forms w !! i = Some lf) as Hlfw by (rewrite <- Hrest by lia; exact Hlf).
    assert (lf ∈ population w) as Hin.
    { apply elem_of_population. exists i. split; [lia | exact Hlfw]. }
    destruct (turnover_body_spec i tmp tc w' lf Hlf Hl Ht)
      as (a' & w'' & Hstep & _ & _ & Hcase).
    exists a', w''. split; [exact Hstep|].
    destruct (alive lf) eqn:Halive.
    + apply alive_iff in Halive.
      destruct (reproduces lf tc) eqn:Hrep.
      * apply reproduces_iff in Hrep as [Hthr Hroom].
        destruct Hcase as [-> [(_ & Hl'' & Hc'')|(Hroom' & _)]]; [|lia].
        cbn [fst snd]. rewrite Hl'', Hc'', !length_insert.
        split; [exact Ht|]. split; [lia|]. split; [lia|]. split; [exact Hc|].
        split; [exact Hl|]. split; [|split].
        -- intros m Hm. rewrite list_lookup_insert_ne by lia. apply Hrest. lia.
        -- apply kept_push; [lia | | exact Hkept]. exists lf. auto.
        -- intros lf0 Hlf0 Hthr0 _. split; [lia|].
           destruct (decide (i = 0%nat)) as [->|Hne].
           ++ assert (tc = 0%nat) as -> by lia.
              rewrite list_lookup_insert_eq by lia. congruence.
           ++ destruct (Hfirst lf0 Hlf0 Hthr0 ltac:(lia)) as [Hpos H0].
              rewrite list_lookup_insert_ne by lia. exact H0.
      * destruct Hcase as [-> ->].
        replace (tc <? MAX_LIFE_FORMS)%nat with true by (symmetry; apply Nat.ltb_lt; lia).
        cbn [fst snd]. rewrite length_insert.
        split; [exact Ht|]. split; [lia|]. split; [lia|]. split; [exact Hc|].
        split; [exact Hl|]. split; [|split].
        -- intros m Hm. apply Hrest. lia.
        -- apply kept_push; [lia | | exact Hkept]. exists lf. auto.
        -- intros lf0 Hlf0 Hthr0 _. split; [lia|].
           destruct (decide (i = 0%nat)) as [->|Hne].
           ++ assert (tc = 0%nat) as -> by lia.
              assert (lf0 = lf) as -> by congruence.
              assert (reproduces lf 0 = true) as Hyes.
              { apply reproduces_iff. split; [exact Hthr0|].
                unfold MAX_LIFE_FORMS. lia. }
              congruence.
           ++ destruct (Hfirst lf0 Hlf0 Hthr0 ltac:(lia)) as [Hpos H0].
              rewrite list_lookup_insert_ne by lia. exact H0.
    + destruct Hcase as [-> ->]. cbn [fst snd].
      split; [exact Ht|]. split; [lia|]. split; [lia|]. split; [exact Hc|].
      split; [exact Hl|]. split; [|split; [exact Hkept|]].
      * intros m Hm. apply Hrest. lia.
      * intros lf0 Hlf0 Hthr0 _.
        destruct (decide (i = 0%nat)) as [->|Hne].
        -- assert (lf0 = lf) as -> by congruence.
           assert (alive lf = true) as Hyes.
           { apply alive_iff. revert Hthr0. unfold_params. lra. }
           congruence.
        -- apply (Hfirst lf0 Hlf0 Hthr0). lia.
  - cbn [fst snd]. split; [exact Htemp|]. split; [lia|].
    split; [lia|]. split; [exact Hfull|]. split; [exact Hal|].
    split; [reflexivity|]. split; [intros k lf' Hk; lia|].
    intros lf0 _ _ Hpos. lia.
  - cbn [fst snd] in *. exists temp', tc', w3. rewrite Hrun.
    split; [reflexivity|]. split; [exact Ht|]. split; [lia|].
    split; [exact Hl3|]. split; [exact Hkept|].
    intros lf0 Hlf0 Hthr0. apply (Hfirst lf0 Hlf0 Hthr0).
    rewrite Hc3 in Hexit. unfold MAX_LIFE_FORMS in *. lia.
Qed.

(** X13.  On a full collection (life_form_count = MAX_LIFE_FORMS) no
    life form is born: every life form of the post-tick collection is one
    that reached the turnover with positive energy, as it was or with its
    energy halved.  A parent still pays for the offspring it does not
    get: the first life form, when at or above REPRODUCTION_THRESHOLD,
    is kept with half its energy. *)
Theorem full_collection_has_no_births temp w :
  well_formed w -> length temp = MAX_LIFE_FORMS ->
  life_form_count w = MAX_LIFE_FORMS ->
  exists w2 w',
    update_and_feed w = Ok (tt, w2) /\
    simulate_step (Some temp) w = Ok (tt, w') /\
    (life_form_count w' <= MAX_LIFE_FORMS)%nat /\
    (forall lf', lf' ∈ population w' ->
       exists lf, lf ∈ population w2 /\ (0 < LifeForm.energy lf)%Q /\
         (lf' = lf \/
          ((REPRODUCTION_THRESHOLD <= LifeForm.energy lf)%Q /\ lf' = halved lf))) /\
    (forall lf0, life_forms w2 !! 0%nat = Some lf0 ->
       (REPRODUCTION_THRESHOLD <= LifeForm.energy lf0)%Q ->
       population w' !! 0%nat = Some (halved lf0)).
Proof.
  intros Hwf Hscratch Hfull.
  destruct (update_and_feed_spec w Hwf)
    as (w1 & w2 & _ & _ & H12 & _ & Hwf2 & _ & Hc2 & _).
  destruct (turnover_loop_full w2 temp Hwf2 Hscratch ltac:(congruence))
    as (temp' & tc' & w3 & Hloop & Ht & Htc & Hl3 & Hkept & Hfirst).
  destruct (simulate_step_Some w temp w2 temp' tc' w3 H12 Hloop)
    as (w' & Hrun & Hpop & Hc' & _); [lia | lia |].
  exists w2, w'. split; [exact H12|]. split; [exact Hrun|].
  split; [lia|]. rewrite Hpop. split.
  - intros lf' (k & Hlf' & Hk)%elem_of_take. apply (Hkept k lf' Hk Hlf').
  - intros lf0 Hlf0 Hthr0. destruct (Hfirst lf0 Hlf0 Hthr0) as [Hpos H0].
    rewrite lookup_take_lt by lia. exact H0.
Qed.

End TickMore.

(** ** What holds along every run *)

Section Lifecycle.
Context {stdlib_h : Stdlib_h} {math_h : Math_h}.

Lemma rand_colour_Uint8 n : is_Uint8 (Z.rem n 256 mod 256).
Proof. unfold is_Uint8. apply Z.mod_pos_bound. lia. Qed.

Lemma spawn_food_rand_calls x y w w' :
  spawn_food x y w = Ok (tt, w') -> rand_calls w' = rand_calls w.
Proof.
  unfold spawn_food, gets, store_food, modify, ret, bind.
  destruct (food_count w <? MAX_FOOD_SOURCES)%nat; [|now intros [= <-]].
  destruct (food_count w <? length (food_sources w))%nat; [|discriminate].
  now intros [= <-].
Qed.

(** [initialize_simulation], for a property [P] of the life forms it can
    spawn and a property [F] of the food items it can spawn, whatever the
    draws they are made of. *)
Lemma initialize_simulation_forall (P : LifeForm.t -> Prop) (F : Food.t -> Prop) w0 :
  allocated w0 ->
  (forall c1 c2 c3 c4 n1 n2 n3 id,
     P {| LifeForm.x := unit_at c1 * WINDOW_WIDTH;
          LifeForm.y := unit_at c2 * WINDOW_HEIGHT;
          LifeForm.vx := (unit_at c3 - 0.5) * MAX_SPEED * 1.0;
          LifeForm.vy := (unit_at c4 - 0.5) * MAX_SPEED * 1.0;
          LifeForm.energy := MAX_ENERGY / 2.0; LifeForm.speed_factor := 1.0;
          LifeForm.id := id;
          LifeForm.r := (Z.rem (rand_seq n1) 256 mod 256)%Z;
          LifeForm.g := (Z.rem (rand_seq n2) 256 mod 256)%Z;
          LifeForm.b := (Z.rem (rand_seq n3) 256 mod 256)%Z |}) ->
  (forall c1 c2,
     F {| Food.x := unit_at c1 * WINDOW_WIDTH;
          Food.y := unit_at c2 * WINDOW_HEIGHT;
          Food.is_present := true |}) ->
  exists w,
    initialize_simulation w0 = Ok (tt, w) /\
    rand_calls w = (rand_calls w0 + 170)%nat /\
    (forall lf, lf ∈ population w -> P lf) /\
    (forall f, f ∈ food_pool w -> F f).
Proof.
  intros [Hal Haf] HP HF. unfold initialize_simulation, modify. unfold bind at 1 2.
  set (w1 := set_food_count 0 (set_life_form_count 0 w0)).
  destruct (for_upto_rule
    (fun i (_ : unit) w =>
       (i <= INITIAL_LIFE_FORMS)%nat /\
       length (life_forms w) = MAX_LIFE_FORMS /\
       food_sources w = food_sources w0 /\ food_count w = 0%nat /\
       life_form_count w = i /\
       rand_calls w = (rand_calls w0 + 7 * i)%nat /\
       (forall lf, lf ∈ take i (life_forms w) -> P lf))
    0 (fun _ _ => INITIAL_LIFE_FORMS) initial_life_form tt w1)
    as (j & [] & w2 & Hrun2 & (Hj & Hl2 & Hf2 & Hfc2 & Hc2 & Hr2 & HP2) & Hexit2).
  - intros i [] w (Hi & Hl & Hf & Hfc & Hc & Hr & HPi) Hlt. split; [lia|].
    unfold initial_life_form, rand_colour, rand_unit, rand, ret.
    unfold bind at 1 2 3 4 5 6 7 8 9 10.
    match goal with |- context [spawn_life_form ?x ?y ?e ?s ?r ?g ?b ?w'] =>
      destruct (spawn_life_form_spec x y e s r g b w' Hl)
        as (w'' & Hspawn & Hf'' & Hfc'' & Hcase)
    end.
    exists tt, w''. split; [exact Hspawn|].
    cbn [life_forms food_sources life_form_count food_count rand_calls
         set_rand_calls] in *.
    destruct Hcase as [[Hfull _]|(_ & Hl'' & Hc'' & Hr'')];
      [unfold INITIAL_LIFE_FORMS, MAX_LIFE_FORMS in *; lia|].
    rewrite Hl'', Hc'', Hc, length_insert.
    split; [lia|]. split; [exact Hl|]. split; [congruence|].
    split; [congruence|]. split; [reflexivity|]. split; [lia|].
    erewrite take_S_r
      by (apply list_lookup_insert_eq; rewrite Hl;
          unfold INITIAL_LIFE_FORMS, MAX_LIFE_FORMS in *; lia).
    rewrite take_insert_ge by lia.
    intros lf [Hold | ->%list_elem_of_singleton]%elem_of_app.
    + now apply HPi.
    + apply HP.
  - unfold INITIAL_LIFE_FORMS. repeat split; auto; try lia.
    intros lf Hin. apply elem_of_nil in Hin. contradiction.
  - rewrite (bind_Ok _ _ _ _ _ Hrun2).
    assert (j = INITIAL_LIFE_FORMS) as -> by lia.
    destruct (for_upto_rule
      (fun i (_ : unit) w =>
         (i <= INITIAL_FOOD_SOURCES)%nat /\
         life_forms w = life_forms w2 /\
         life_form_count w = INITIAL_LIFE_FORMS /\
         length (food_sources w) = MAX_FOOD_SOURCES /\
         food_count w = i /\
         rand_calls w = (rand_calls w2 + 2 * i)%nat /\
         (forall f, f ∈ take i (food_sources w) -> F f))
      0 (fun _ _ => INITIAL_FOOD_SOURCES) initial_food tt w2)
      as (k & [] & w3 & Hrun3 & (Hk & Hl3 & Hc3 & Hfl3 & Hfc3 & Hr3 & HF3) & Hexit3).
    + intros i [] w (Hi & Hl & Hc & Hfl & Hfc & Hr & HFi) Hlt. split; [lia|].
      unfold initial_food, rand_unit, rand, ret.
      unfold bind at 1 2 3 4.
      match goal with |- context [spawn_food ?x ?y ?w'] =>
        destruct (spawn_food_spec x y w' Hfl) as (w'' & Hspawn & Hl'' & Hc'' & Hcase)
      end.
      pose proof (spawn_food_rand_calls _ _ _ _ Hspawn) as Hr''.
      exists tt, w''. split; [exact Hspawn|].
      cbn [life_forms food_sources life_form_count food_count rand_calls
           set_rand_calls] in *.
      destruct Hcase as [[_ Hfull]|(_ & Hfs'' & Hfc'')];
        [unfold INITIAL_FOOD_SOURCES, MAX_FOOD_SOURCES in *; lia|].
      rewrite Hfs'', Hfc'', Hfc, length_insert.
      split; [lia|]. split; [congruence|]. split; [congruence|].
      split; [exact Hfl|]. split; [reflexivity|]. split; [lia|].
      erewrite take_S_r
        by (apply list_lookup_insert_eq; rewrite Hfl;
            unfold INITIAL_FOOD_SOURCES, MAX_FOOD_SOURCES in *; lia).
      rewrite take_insert_ge by lia.
      intros f [Hold | ->%list_elem_of_singleton]%elem_of_app.
      * now apply HFi.
      * apply HF.
    + unfold INITIAL_FOOD_SOURCES. repeat split; auto; try lia; try congruence.
      intros f Hin. apply elem_of_nil in Hin. contradiction.
    + exists w3. split; [exact Hrun3|].
      assert (k = INITIAL_FOOD_SOURCES) as -> by lia.
      split; [unfold INITIAL_LIFE_FORMS, INITIAL_FOOD_SOURCES in *; lia|].
      split.
      * unfold population. rewrite Hc3, Hl3. exact HP2.
      * unfold food_pool. rewrite Hfc3. exact HF3.
Qed.

(** X15.  On freshly allocated arrays and with [rand()] in its range,
    [initialize_simulation] draws 170 numbers and leaves ten life forms,
    with ids 0 to 9, energy MAX_ENERGY / 2, speed factor 1, a position
    inside the window, a velocity of at most MAX_SPEED / 2 on each axis
    and 8-bit colours, and fifty food items, all present and inside the
    window; what the counts held before is forgotten. *)
Theorem initialize_simulation_scatters w0 :
  allocated w0 -> rand_in_range ->
  exists w,
    initialize_simulation w0 = Ok (tt, w) /\
    life_form_count w = INITIAL_LIFE_FORMS /\
    food_count w = INITIAL_FOOD_SOURCES /\
    rand_calls w = (rand_calls w0 + 170)%nat /\
    ids w = seq 0 INITIAL_LIFE_FORMS /\
    (forall lf, lf ∈ population w ->
       (LifeForm.energy lf == MAX_ENERGY / 2)%Q /\
       (LifeForm.speed_factor lf == 1)%Q /\
       in_window (LifeForm.x lf) (LifeForm.y lf) /\
       (- (MAX_SPEED / 2) <= LifeForm.vx lf <= MAX_SPEED / 2)%Q /\
       (- (MAX_SPEED / 2) <= LifeForm.vy lf <= MAX_SPEED / 2)%Q /\
       is_Uint8 (LifeForm.r lf) /\ is_Uint8 (LifeForm.g lf) /\
       is_Uint8 (LifeForm.b lf)) /\
    (forall f, f ∈ food_pool w ->
       Food.is_present f = true /\ in_window (Food.x f) (Food.y f)).
Proof.
  intros Halloc [Hmax Hrange].
  assert (forall c1 c2, in_window (unit_at c1 * WINDOW_WIDTH)
                                  (unit_at c2 * WINDOW_HEIGHT)) as Hwin.
  { intros c1 c2.
    pose proof (unit_at_range c1 Hmax (Hrange c1)).
    pose proof (unit_at_range c2 Hmax (Hrange c2)).
    unfold in_window. unfold_params. split; lra. }
  assert (forall c, - (MAX_SPEED / 2) <= (unit_at c - 0.5) * MAX_SPEED * 1.0
                    <= MAX_SPEED / 2)%Q as Hvel.
  { intros c. pose proof (unit_at_range c Hmax (Hrange c)).
    assert (MAX_SPEED / 2 == 3 # 4)%Q as -> by reflexivity.
    unfold_params. split; lra. }
  destruct (initialize_simulation_spec w0 Halloc)
    as (w & Hrun & _ & Hc & Hfc & Hids).
  destruct (initialize_simulation_forall
    (fun lf =>
       (LifeForm.energy lf == MAX_ENERGY / 2)%Q /\
       (LifeForm.speed_factor lf == 1)%Q /\
       in_window (LifeForm.x lf) (LifeForm.y lf) /\
       (- (MAX_SPEED / 2) <= LifeForm.vx lf <= MAX_SPEED / 2)%Q /\
       (- (MAX_SPEED / 2) <= LifeForm.vy lf <= MAX_SPEED / 2)%Q /\
       is_Uint8 (LifeForm.r lf) /\ is_Uint8 (LifeForm.g lf) /\
       is_Uint8 (LifeForm.b lf))
    (fun f => Food.is_present f = true /\ in_window (Food.x f) (Food.y f))
    w0 Halloc) as (w' & Hrun' & Hr & HP & HF).
  - intros c1 c2 c3 c4 n1 n2 n3 id. fields.
    split; [reflexivity|]. split; [reflexivity|]. split; [apply Hwin|].
    split; [apply Hvel|]. split; [apply Hvel|].
    repeat split; apply rand_colour_Uint8.
  - intros c1 c2. fields. split; [reflexivity | apply Hwin].
  - assert (w' = w) as -> by congruence.
    exists w. auto 10.
Qed.

Lemma updated_viable lf lf' :
  viable lf -> revectored (clamp_energy (moved lf)) lf' -> viable lf'.
Proof.
  intros (_ & Hsf & Hr & Hg & Hb) Hrev. unfold viable.
  rewrite Hrev. fields.
  destruct (updated_identity lf) as (_ & -> & -> & -> & ->).
  split; [apply clamp_energy_range | auto].
Qed.

Lemma halved_viable lf : viable lf -> viable (halved lf).
Proof.
  intros (He & Hrest). unfold viable, halved. fields. split; [|exact Hrest].
  apply Qle_shift_div_l; lra.
Qed.

Lemma offspring_viable lf n c : viable lf -> viable (offspring lf n c).
Proof.
  intros (He & _ & Hcolours). unfold viable, offspring. fields.
  split; [exact He|]. split; [apply mutated_speed_factor_range | exact Hcolours].
Qed.

(** The turnover loop keeps a property of life forms that halving and
    spawning an offspring preserve. *)
Lemma turnover_loop_keeps (P : LifeForm.t -> Prop) w temp :
  well_formed w -> length temp = MAX_LIFE_FORMS ->
  (forall lf, P lf -> P (halved lf)) ->
  (forall lf n c, P lf -> P (offspring lf n c)) ->
  (forall lf, lf ∈ population w -> P lf) ->
  exists temp' tc' w',
    turnover_loop (temp, 0%nat) w = Ok ((temp', tc'), w') /\
    forall k lf, (k < tc')%nat -> temp' !! k = Some lf -> P lf.
Proof.
  intros [[Hal Haf] [Hcl Hcf]] Htemp Hhalf Hchild HP. unfold turnover_loop.
  destruct (for_upto_rule
    (fun i (a : list LifeForm.t * nat) w' =>
       length (fst a) = MAX_LIFE_FORMS /\
       (snd a <= i)%nat /\
       (i <= life_form_count w' <= MAX_LIFE_FORMS)%nat /\
       length (life_forms w') = MAX_LIFE_FORMS /\
       (forall k lf, (k < snd a)%nat -> fst a !! k = Some lf -> P lf) /\
       (forall m lf, (i <= m < life_form_count w')%nat ->
          life_forms w' !! m = Some lf -> P lf))
    MAX_LIFE_FORMS (fun _ w => life_form_count w) turnover_body (temp, 0%nat) w)
    as (j & [temp' tc'] & w' & Hrun & (_ & _ & _ & _ & Hkept & _) & _).
  - intros i [tmp tc] w' Hinv Hlt. cbn [fst snd] in *.
    destruct Hinv as (Ht & Htc & Hi & Hl & Hkept & Hrest).
    split; [lia|].
    destruct (lookup_lt_is_Some_2 (life_forms w') i) as [lf Hlf]; [lia|].
    assert (P lf) as HPlf by (apply (Hrest i); [lia | exact Hlf]).
    destruct (turnover_body_spec i tmp tc w' lf Hlf Hl Ht)
      as (a' & w'' & Hstep & _ & _ & Hcase).
    exists a', w''. split; [exact Hstep|].
    destruct (alive lf) eqn:Halive.
    + destruct (reproduces lf tc) eqn:Hrep.
      * apply reproduces_iff in Hrep as [Hthr Hroom].
        destruct Hcase as [-> Hworld]. cbn [fst snd]. rewrite length_insert.
        split; [exact Ht|]. split; [lia|].
        assert ((S i <= life_form_count w'' <= MAX_LIFE_FORMS)%nat /\
                length (life_forms w'') = MAX_LIFE_FORMS /\
                (forall m lfm, (S i <= m < life_form_count w'')%nat ->
                   life_forms w'' !! m = Some lfm -> P lfm))
          as (Hc'' & Hl'' & Hrest'').
        { destruct Hworld as [(Hfull & -> & ->)|(Hroom' & -> & ->)].
          - rewrite length_insert. split; [lia|]. split; [exact Hl|].
            intros m lfm Hm. rewrite list_lookup_insert_ne by lia.
            apply Hrest. lia.
          - rewrite !length_insert. split; [lia|]. split; [exact Hl|].
            intros m lfm Hm.
            destruct (decide (m = life_form_count w')) as [->|Hne].
            + rewrite list_lookup_insert_eq by (rewrite length_insert; lia).
              intros [= <-]. apply Hchild, Hhalf, HPlf.
            + rewrite !list_lookup_insert_ne by lia. apply Hrest. lia. }
        split; [exact Hc''|]. split; [exact Hl''|]. split; [|exact Hrest''].
        apply kept_push; [lia | apply Hhalf, HPlf | exact Hkept].
      * destruct Hcase as [-> ->].
        replace (tc <? MAX_LIFE_FORMS)%nat with true by (symmetry; apply Nat.ltb_lt; lia).
        cbn [fst snd]. rewrite length_insert.
        split; [exact Ht|]. split; [lia|]. split; [lia|]. split; [exact Hl|].
        split; [apply kept_push; [lia | exact HPlf | exact Hkept]|].
        intros m lfm Hm. apply Hrest. lia.
    + destruct Hcase as [-> ->]. cbn [fst snd].
      split; [exact Ht|]. split; [lia|]. split; [lia|]. split; [exact Hl|].
      split; [exact Hkept|]. intros m lfm Hm. apply Hrest. lia.
  - cbn [fst snd]. split; [exact Htemp|]. split; [lia|]. split; [lia|].
    split; [exact Hal|]. split; [intros k lf Hk; lia|].
    intros m lf Hm Hlf. apply HP, elem_of_population. exists m. split; [lia | exact Hlf].
  - exists temp', tc', w'. rewrite Hrun. split; [reflexivity | exact Hkept].
Qed.

(** A tick keeps every life form of the collection viable. *)
Lemma simulate_step_viable temp_life_forms w :
  well_formed w -> scratch_ok temp_life_forms ->
  (forall lf, lf ∈ population w -> viable lf) ->
  exists w',
    simulate_step temp_life_forms w = Ok (tt, w') /\
    forall lf, lf ∈ population w' -> viable lf.
Proof.
  intros Hwf Hscratch Hviable.
  destruct (update_pass_spec w Hwf) as (w1 & H1 & Hf1 & Hfc1 & Hc1 & Hl1 & Hupd & _).
  assert (well_formed w1) as Hwf1.
  { destruct Hwf as [[Hal Haf] [Hcl Hcf]]. repeat split; congruence. }
  destruct (handle_interactions_spec w1 Hwf1)
    as (wf_ & w2 & _ & H2 & Hwf2 & Hc2 & _ & _ & Hfed & _).
  assert (update_and_feed w = Ok (tt, w2)) as H12
    by (unfold update_and_feed; now rewrite (bind_Ok _ _ _ _ _ H1)).
  assert (forall lf, lf ∈ population w2 -> viable lf) as Hviable2.
  { intros lf2 (i & Hi & Hlf2)%elem_of_population.
    destruct (lookup_lt_is_Some_2 (life_forms w) i) as [lf Hlf].
    { destruct Hwf as [[Hal _] [Hcl _]]. lia. }
    destruct (Hupd i lf ltac:(lia) Hlf) as (lf1 & Hlf1 & Hrev).
    destruct (Hfed i lf1 Hlf1) as (k & e' & He' & Hlf2').
    assert (lf2 = LifeForm.set_energy e' lf1) as -> by congruence.
    assert (viable lf1) as (He1 & Hrest1).
    { apply (updated_viable lf); [|exact Hrev].
      apply Hviable, elem_of_population. exists i. split; [lia | exact Hlf]. }
    unfold viable. fields. split; [|exact Hrest1].
    rewrite He'. pose proof (portions_nonneg k). lra. }
  destruct temp_life_forms as [temp|].
  - simpl in Hscratch.
    destruct (turnover_loop_keeps viable w2 temp Hwf2 Hscratch
                halved_viable offspring_viable Hviable2)
      as (temp' & tc' & w3 & Hloop & Hkept).
    destruct (turnover_loop_spec (fun _ => True) w2 temp Hwf2 Hscratch)
      as (temp2 & tc2 & w32 & Hloop2 & Ht & Htc & _ & Hl3 & _);
      [auto | auto |].
    rewrite Hloop in Hloop2. injection Hloop2 as <- <- <-.
    destruct (simulate_step_Some w temp w2 temp' tc' w3 H12 Hloop)
      as (w' & Hrun & Hpop & _); [lia | lia |].
    exists w'. split; [exact Hrun|]. rewrite Hpop.
    intros lf (k & Hlf & Hk)%elem_of_take. now apply (Hkept k lf).
  - exists w2. rewrite simulate_step_None. auto.
Qed.

(** X14.  In every world the program goes through (after
    [initialize_simulation] and after any number of ticks, whatever
    [malloc] returned in each), every life form of the collection has
    energy at least 0, a speed factor between 0.5 and 2.0 and 8-bit
    colours, and every item of the food pool is present. *)
Theorem reachable_viable w :
  reachable w ->
  (forall lf, lf ∈ population w -> viable lf) /\ pool_clean w.
Proof.
  induction 1 as [w0 w Halloc Hinit|t w w' Hreach [IHviable _] Hscratch Hstep].
  - destruct (initialize_simulation_forall viable
                (fun f => Food.is_present f = true) w0 Halloc)
      as (w1 & Hrun & _ & HP & HF).
    + intros c1 c2 c3 c4 n1 n2 n3 id. unfold viable. fields.
      split; [apply Qle_bool_imp_le; reflexivity|].
      split; [split; apply Qle_bool_imp_le; reflexivity|].
      repeat split; apply rand_colour_Uint8.
    + reflexivity.
    + assert (w1 = w) as -> by congruence. split; [exact HP | exact HF].
  - pose proof (reachable_well_formed w Hreach) as Hwf.
    destruct (simulate_step_viable t w Hwf Hscratch IHviable) as (w1 & Hrun & Hv).
    destruct (simulate_step_food_frame t w Hwf Hscratch)
      as (wu & wf & w2 & _ & Hfeed & Hrun2 & Hwfu & _ & _ & Hpool & _).
    destruct (handle_interactions_pool wu Hwfu) as (wf' & Hfeed' & Hclean & _).
    assert (wf' = wf) as -> by congruence.
    assert (w1 = w') as -> by congruence.
    assert (w2 = w') as -> by congruence.
    split; [exact Hv|]. unfold pool_clean. rewrite Hpool. exact Hclean.
Qed.

End Lifecycle.

(** ** The further properties at concrete inputs *)

Lemma mid_rand_in_range : @rand_in_range mid_rand.
Proof. split; [reflexivity | intros n; simpl; lia]. Qed.

Lemma empty_world_well_formed : well_formed empty_world.
Proof. concrete_well_formed. Qed.

Lemma distant_food_world_well_formed : well_formed distant_food_world.
Proof. concrete_well_formed. Qed.

Lemma full_world_well_formed : well_formed full_world.
Proof. concrete_well_formed. Qed.

Lemma distant_food_world_has_food :
  ~ no_food_present (food_sources distant_food_world) (food_count distant_food_world).
Proof.
  intros Hnone.
  assert (0 < food_count distant_food_world)%nat as H0 by (vm_compute; lia).
  specialize (Hnone 0%nat (Food.mk 500 400 true) H0 eq_refl). discriminate Hnone.
Qed.

Lemma starving_world_has_no_food :
  no_food_present (food_sources starving_world) (food_count starving_world).
Proof. intros j f Hj. vm_compute in Hj. lia. Qed.

Lemma distant_food_world_out_of_reach : out_of_reach distant_food_world.
Proof.
  intros i j lf f Hi Hj Hlf Hf.
  change (i < 1)%nat in Hi. change (j < 1)%nat in Hj.
  assert (i = 0%nat) as -> by lia. assert (j = 0%nat) as -> by lia.
  change (Some (LifeForm.mk 100 100 0 0 50 1 0 200 30 30) = Some lf) in Hlf.
  change (Some (Food.mk 500 400 true) = Some f) in Hf.
  injection Hlf as <-. injection Hf as <-. reflexivity.
Qed.

Lemma distant_food_world_pool_clean : pool_clean distant_food_world.
Proof.
  intros f Hin. change (f ∈ [Food.mk 500 400 true]) in Hin.
  apply list_elem_of_singleton in Hin. now subst.
Qed.

Lemma spawn_life_form_appends_witness :
  length (life_forms feast_world) = MAX_LIFE_FORMS /\
  @rand_in_range mid_rand /\ (0 <= 1)%Q /\
  exists w',
    @spawn_life_form mid_rand 10 20 50 1 1 2 3 feast_world = Ok (tt, w') /\
    food_sources w' = food_sources feast_world /\
    food_count w' = food_count feast_world /\
    if (life_form_count feast_world <? MAX_LIFE_FORMS)%nat then
      exists lf,
        population w' = population feast_world ++ [lf] /\
        life_form_count w' = S (life_form_count feast_world) /\
        rand_calls w' = S (S (rand_calls feast_world)) /\
        LifeForm.x lf = 10%Q /\ LifeForm.y lf = 20%Q /\
        LifeForm.energy lf = 50%Q /\ LifeForm.speed_factor lf = 1%Q /\
        LifeForm.id lf = life_form_count feast_world /\
        (LifeForm.r lf, LifeForm.g lf, LifeForm.b lf) = (1, 2, 3)%Z /\
        (- ((1 # 2) * MAX_SPEED * 1) <= LifeForm.vx lf
         <= (1 # 2) * MAX_SPEED * 1)%Q /\
        (- ((1 # 2) * MAX_SPEED * 1) <= LifeForm.vy lf
         <= (1 # 2) * MAX_SPEED * 1)%Q
    else w' = feast_world.
Proof.
  assert (length (life_forms feast_world) = MAX_LIFE_FORMS) as H1 by reflexivity.
  assert (0 <= 1)%Q as H3 by discriminate.
  split; [exact H1|]. split; [exact mid_rand_in_range|]. split; [exact H3|].
  exact (@spawn_life_form_appends mid_rand 10 20 50 1 1 2 3 feast_world
           H1 mid_rand_in_range H3).
Defined.

Lemma spawn_food_appends_witness :
  length (food_sources feast_world) = MAX_FOOD_SOURCES /\
  exists w',
    spawn_food 10 20 feast_world = Ok (tt, w') /\
    life_forms w' = life_forms feast_world /\
    life_form_count w' = life_form_count feast_world /\
    rand_calls w' = rand_calls feast_world /\
    if (food_count feast_world <? MAX_FOOD_SOURCES)%nat then
      food_pool w' = food_pool feast_world ++ [Food.mk 10 20 true] /\
      food_count w' = S (food_count feast_world)
    else w' = feast_world.
Proof.
  assert (length (food_sources feast_world) = MAX_FOOD_SOURCES) as H1 by reflexivity.
  split; [exact H1|]. exact (spawn_food_appends 10 20 feast_world H1).
Defined.

Lemma update_life_form_fields_witness :
  let lf := LifeForm.mk 5000 (-70) 3 (-9) 50 1 7 200 30 30 in
  (food_count feast_world <= length (food_sources feast_world))%nat /\
  forall math_h : Math_h,
  exists lf' w',
    @update_life_form mid_rand math_h lf
      (food_sources feast_world) (food_count feast_world) feast_world
      = Ok (lf', w') /\
    (LifeForm.x lf'
     == clamped LIFE_FORM_RADIUS (WINDOW_WIDTH - LIFE_FORM_RADIUS)
          (LifeForm.x lf + LifeForm.vx lf))%Q /\
    (LifeForm.y lf'
     == clamped LIFE_FORM_RADIUS (WINDOW_HEIGHT - LIFE_FORM_RADIUS)
          (LifeForm.y lf + LifeForm.vy lf))%Q /\
    (LifeForm.energy lf'
     == clamped 0 MAX_ENERGY (LifeForm.energy lf - ENERGY_LOSS_PER_STEP))%Q /\
    LifeForm.id lf' = LifeForm.id lf /\
    (LifeForm.r lf', LifeForm.g lf', LifeForm.b lf')
      = (LifeForm.r lf, LifeForm.g lf, LifeForm.b lf) /\
    LifeForm.speed_factor lf' = LifeForm.speed_factor lf.
Proof.
  cbv zeta.
  assert (food_count feast_world <= length (food_sources feast_world))%nat as H
    by (vm_compute; lia).
  split; [exact H|]. intros math_h.
  exact (update_life_form_fields _ _ _ _ H).
Defined.

Lemma update_life_form_heads_for_nearest_food_witness :
  let lf := LifeForm.mk 100 100 0 0 50 1 0 200 30 30 in
  let foods := food_sources distant_food_world in
  let num_foods := food_count distant_food_world in
  (num_foods <= length foods)%nat /\
  ~ no_food_present foods num_foods /\
  forall math_h : Math_h,
  exists lf' idx f,
    @update_life_form mid_rand math_h lf foods num_foods distant_food_world
      = Ok (lf', distant_food_world) /\
    (idx < num_foods)%nat /\ foods !! idx = Some f /\
    Food.is_present f = true /\
    (forall j g, (j < num_foods)%nat -> foods !! j = Some g ->
       Food.is_present g = true ->
       (food_distance (moved lf) f <= food_distance (moved lf) g)%Q) /\
    (forall j g, (j < idx)%nat -> foods !! j = Some g ->
       Food.is_present g = true ->
       (food_distance (moved lf) f < food_distance (moved lf) g)%Q) /\
    LifeForm.x lf' = LifeForm.x (moved lf) /\
    LifeForm.y lf' = LifeForm.y (moved lf) /\
    let angle := atan2 (Food.y f - LifeForm.y lf') (Food.x f - LifeForm.x lf') in
    LifeForm.vx lf' = (cos angle * MAX_SPEED * LifeForm.speed_factor lf)%Q /\
    LifeForm.vy lf' = (sin angle * MAX_SPEED * LifeForm.speed_factor lf)%Q.
Proof.
  cbv zeta.
  assert (food_count distant_food_world
          <= length (food_sources distant_food_world))%nat as H
    by (vm_compute; lia).
  split; [exact H|]. split; [exact distant_food_world_has_food|]. intros math_h.
  exact (update_life_form_heads_for_nearest_food _ _ _ _ H
           distant_food_world_has_food).
Defined.

Lemma update_life_form_wanders_witness :
  let lf := LifeForm.mk 100 100 1 0 50 1 0 200 30 30 in
  let foods := food_sources starving_world in
  let num_foods := food_count starving_world in
  (num_foods <= length foods)%nat /\
  no_food_present foods num_foods /\
  forall math_h : Math_h,
  exists lf' w',
    @update_life_form mid_rand math_h lf foods num_foods starving_world
      = Ok (lf', w') /\
    rand_only starving_world w' /\
    if Qlt_bool (@next_unit mid_rand starving_world) 0.01 then
      rand_calls w' = S (S (S (rand_calls starving_world))) /\
      LifeForm.vx lf'
        = ((@unit_at mid_rand (S (rand_calls starving_world)) - 0.5)
           * MAX_SPEED * LifeForm.speed_factor lf)%Q /\
      LifeForm.vy lf'
        = ((@unit_at mid_rand (S (S (rand_calls starving_world))) - 0.5)
           * MAX_SPEED * LifeForm.speed_factor lf)%Q
    else
      rand_calls w' = S (rand_calls starving_world) /\
      LifeForm.vx lf' = LifeForm.vx (moved lf) /\
      LifeForm.vy lf' = LifeForm.vy (moved lf).
Proof.
  cbv zeta.
  assert (food_count starving_world <= length (food_sources starving_world))%nat as H
    by (vm_compute; lia).
  split; [exact H|]. split; [exact starving_world_has_no_food|]. intros math_h.
  exact (update_life_form_wanders _ _ _ _ H starving_world_has_no_food).
Defined.

Lemma handle_interactions_only_feeds_witness :
  well_formed feast_world /\
  exists w2,
    @handle_interactions mid_rand feast_world = Ok (tt, w2) /\
    life_form_count w2 = life_form_count feast_world /\
    (forall i lf, life_forms feast_world !! i = Some lf ->
       exists lf' k,
         life_forms w2 !! i = Some lf' /\
         lf' = LifeForm.set_energy (LifeForm.energy lf') lf /\
         (LifeForm.energy lf' == LifeForm.energy lf + portions k)%Q /\
         (LifeForm.energy lf <= LifeForm.energy lf')%Q) /\
    pool_clean w2 /\
    (food_count w2 <= MAX_FOOD_SOURCES)%nat.
Proof.
  split; [exact feast_world_well_formed|].
  exact (handle_interactions_only_feeds feast_world feast_world_well_formed).
Defined.

Lemma handle_interactions_never_grows_food_witness :
  well_formed feast_world /\
  exists w2,
    @handle_interactions mid_rand feast_world = Ok (tt, w2) /\
    (food_count w2 <= present_count (food_pool feast_world))%nat /\
    (food_count w2 <= food_count feast_world)%nat.
Proof.
  split; [exact feast_world_well_formed|].
  exact (handle_interactions_never_grows_food feast_world feast_world_well_formed).
Defined.

Lemma handle_interactions_idle_witness :
  well_formed distant_food_world /\ out_of_reach distant_food_world /\
  pool_clean distant_food_world /\
  @handle_interactions mid_rand distant_food_world = Ok (tt, distant_food_world).
Proof.
  split; [exact distant_food_world_well_formed|].
  split; [exact distant_food_world_out_of_reach|].
  split; [exact distant_food_world_pool_clean|].
  exact (handle_interactions_idle distant_food_world
           distant_food_world_well_formed distant_food_world_out_of_reach
           distant_food_world_pool_clean).
Defined.

Lemma simulate_step_food_witness :
  well_formed feast_world /\ scratch_ok (Some blank_scratch) /\
  forall math_h : Math_h,
  exists w',
    @simulate_step mid_rand math_h (Some blank_scratch) feast_world = Ok (tt, w') /\
    pool_clean w' /\
    (food_count w' <= present_count (food_pool feast_world))%nat /\
    (food_count w' <= food_count feast_world)%nat.
Proof.
  split; [exact feast_world_well_formed|]. split; [reflexivity|]. intros math_h.
  exact (simulate_step_food (Some blank_scratch) feast_world
           feast_world_well_formed eq_refl).
Defined.

Lemma quiet_tick_keeps_survivors_in_order_witness :
  well_formed starving_world /\ length blank_scratch = MAX_LIFE_FORMS /\
  forall math_h : Math_h,
  exists w2 w',
    @update_and_feed mid_rand math_h starving_world = Ok (tt, w2) /\
    @simulate_step mid_rand math_h (Some blank_scratch) starving_world = Ok (tt, w') /\
    ((forall lf, lf ∈ population w2 ->
        (LifeForm.energy lf < REPRODUCTION_THRESHOLD)%Q) ->
     population w' = List.filter alive (population w2) /\
     rand_calls w' = rand_calls w2 /\
     food_pool w' = food_pool w2).
Proof.
  split; [exact starving_world_well_formed|]. split; [reflexivity|]. intros math_h.
  exact (quiet_tick_keeps_survivors_in_order blank_scratch starving_world
           starving_world_well_formed eq_refl).
Defined.

Lemma extinction_is_permanent_witness :
  well_formed empty_world /\ life_form_count empty_world = 0%nat /\
  forall math_h : Math_h,
  exists w',
    @simulate_step mid_rand math_h None empty_world = Ok (tt, w') /\
    life_form_count w' = 0%nat /\
    life_forms w' = life_forms empty_world /\
    rand_calls w' = rand_calls empty_world /\
    food_pool w' = List.filter Food.is_present (food_pool empty_world) /\
    (pool_clean empty_world -> w' = empty_world).
Proof.
  split; [exact empty_world_well_formed|]. split; [reflexivity|]. intros math_h.
  exact (extinction_is_permanent None empty_world empty_world_well_formed eq_refl).
Defined.

Lemma full_collection_has_no_births_witness :
  well_formed full_world /\ length blank_scratch = MAX_LIFE_FORMS /\
  life_form_count full_world = MAX_LIFE_FORMS /\
  forall math_h : Math_h,
  exists w2 w',
    @update_and_feed mid_rand math_h full_world = Ok (tt, w2) /\
    @simulate_step mid_rand math_h (Some blank_scratch) full_world = Ok (tt, w') /\
    (life_form_count w' <= MAX_LIFE_FORMS)%nat /\
    (forall lf', lf' ∈ population w' ->
       exists lf, lf ∈ population w2 /\ (0 < LifeForm.energy lf)%Q /\
         (lf' = lf \/
          ((REPRODUCTION_THRESHOLD <= LifeForm.energy lf)%Q /\ lf' = halved lf))) /\
    (forall lf0, life_forms w2 !! 0%nat = Some lf0 ->
       (REPRODUCTION_THRESHOLD <= LifeForm.energy lf0)%Q ->
       population w' !! 0%nat = Some (halved lf0)).
Proof.
  assert (life_form_count full_world = MAX_LIFE_FORMS) as Hfull by reflexivity.
  split; [exact full_world_well_formed|]. split; [reflexivity|].
  split; [exact Hfull|]. intros math_h.
  exact (full_collection_has_no_births blank_scratch full_world
           full_world_well_formed eq_refl Hfull).
Defined.

Lemma reachable_viable_witness :
  allocated empty_world /\
  forall math_h : Math_h,
  exists w,
    @initialize_simulation mid_rand empty_world = Ok (tt, w) /\
    @reachable mid_rand math_h w /\
    (forall lf, lf ∈ population w -> viable lf) /\ pool_clean w.
Proof.
  assert (allocated empty_world) as Halloc by (split; reflexivity).
  split; [exact Halloc|]. intros math_h.
  destruct (@initialize_simulation_spec mid_rand empty_world Halloc)
    as (w & Hrun & _).
  assert (@reachable mid_rand math_h w) as Hreach
    by exact (reachable_init empty_world w Halloc Hrun).
  exists w. split; [exact Hrun|]. split; [exact Hreach|].
  exact (reachable_viable w Hreach).
Defined.

Lemma initialize_simulation_scatters_witness :
  allocated empty_world /\ @rand_in_range mid_rand /\
  exists w,
    @initialize_simulation mid_rand empty_world = Ok (tt, w) /\
    life_form_count w = INITIAL_LIFE_FORMS /\
    food_count w = INITIAL_FOOD_SOURCES /\
    rand_calls w = (rand_calls empty_world + 170)%nat /\
    ids w = seq 0 INITIAL_LIFE_FORMS /\
    (forall lf, lf ∈ population w ->
       (LifeForm.energy lf == MAX_ENERGY / 2)%Q /\
       (LifeForm.speed_factor lf == 1)%Q /\
       in_window (LifeForm.x lf) (LifeForm.y lf) /\
       (- (MAX_SPEED / 2) <= LifeForm.vx lf <= MAX_SPEED / 2)%Q /\
       (- (MAX_SPEED / 2) <= LifeForm.vy lf <= MAX_SPEED / 2)%Q /\
       is_Uint8 (LifeForm.r lf) /\ is_Uint8 (LifeForm.g lf) /\
       is_Uint8 (LifeForm.b lf)) /\
    (forall f, f ∈ food_pool w ->
       Food.is_present f = true /\ in_window (Food.x f) (Food.y f)).
Proof.
  assert (allocated empty_world) as Halloc by (split; reflexivity).
  split; [exact Halloc|]. split; [exact mid_rand_in_range|].
  exact (@initialize_simulation_scatters mid_rand empty_world Halloc mid_rand_in_range).
Defined.

(** ** The renderer *)

Lemma to_int_Some z : (INT_MIN <= z <= INT_MAX)%Z -> to_int z = Some z.
Proof.
  intros [Hlo Hhi]. unfold to_int.
  apply Z.leb_le in Hlo, Hhi. now rewrite Hlo, Hhi.
Qed.

Lemma draw_each_Some {A} (body : A -> option (list SDL_call))
    (g : A -> list SDL_call) l :
  (forall a, a ∈ l -> body a = Some (g a)) ->
  draw_each body l = Some (l ≫= g).
Proof.
  induction l as [|a l IH]; intros Hbody; [reflexivity|].
  cbn [draw_each]. rewrite (Hbody a) by apply list_elem_of_here.
  rewrite IH by (intros b Hb; apply Hbody; now apply list_elem_of_further).
  reflexivity.
Qed.

Lemma for_int_Some lo hi body (g : Z -> list SDL_call) :
  (INT_MIN <= hi < INT_MAX)%Z ->
  (forall i, (lo <= i <= hi)%Z -> body i = Some (g i)) ->
  for_int lo hi body = Some (seqZ lo (hi - lo + 1) ≫= g).
Proof.
  intros Hhi Hbody. unfold for_int.
  destruct (Z.leb_spec lo hi) as [Hle|Hgt].
  - rewrite (draw_each_Some body g)
      by (intros i Hi%elem_of_seqZ; apply Hbody; lia).
    rewrite to_int_Some by lia. reflexivity.
  - rewrite seqZ_nil by lia. reflexivity.
Qed.

(** The test of [draw_circle], on integers. *)
Lemma in_disc_iff x y i j radius_sq :
  Qle_bool (distance_sq (inject_Z x) (inject_Z y) (inject_Z i) (inject_Z j))
           (inject_Z radius_sq) = true
  <-> ((i - x) * (i - x) + (j - y) * (j - y) <= radius_sq)%Z.
Proof.
  rewrite Qle_bool_iff. unfold distance_sq. cbv zeta. unfold Qminus.
  rewrite <- !inject_Z_opp, <- !inject_Z_plus, <- !inject_Z_mult,
    <- inject_Z_plus, <- Zle_Qle.
  split; intros H; nia.
Qed.

Lemma square_le_bound (a b r : Z) :
  (0 <= r)%Z -> (a * a + b * b <= r * r)%Z -> (- r <= a <= r)%Z /\ (- r <= b <= r)%Z.
Proof.
  intros Hr H.
  pose proof (Z.square_nonneg a). pose proof (Z.square_nonneg b).
  repeat split; nia.
Qed.

(** X16.  [draw_circle], when none of its [int] operations overflows (the
    bounding square fits into [int], and the radius is at most 46340),
    calls SDL_RenderDrawPoint exactly on the integer points whose squared
    distance to the centre is at most the squared radius, once for each
    (no point of the disc is outside the square that the loops scan), and
    makes no other call; a negative radius draws nothing. *)
Theorem draw_circle_disc x y radius :
  (INT_MIN <= x - radius <= INT_MAX)%Z -> (INT_MIN <= x + radius < INT_MAX)%Z ->
  (INT_MIN <= y - radius <= INT_MAX)%Z -> (INT_MIN <= y + radius < INT_MAX)%Z ->
  (radius <= 46340)%Z ->
  exists calls,
    draw_circle x y radius = Some calls /\
    NoDup calls /\
    forall c, c ∈ calls <->
      exists i j, c = SDL_RenderDrawPoint i j /\
        (0 <= radius)%Z /\
        ((i - x) * (i - x) + (j - y) * (j - y) <= radius * radius)%Z.
Proof.
  intros Hx0 Hx1 Hy0 Hy1 Hr. unfold draw_circle.
  rewrite (to_int_Some (x - radius)) by lia.
  rewrite (to_int_Some (x + radius)) by lia. cbn [mbind option_bind].
  set (point := fun i j : Z =>
    if Qle_bool (distance_sq (inject_Z x) (inject_Z y) (inject_Z i) (inject_Z j))
                (inject_Z (radius * radius))
    then [SDL_RenderDrawPoint i j] else []).
  set (row := fun i : Z =>
    seqZ (y - radius) (y + radius - (y - radius) + 1) ≫= point i).
  destruct (Z.ltb_spec radius 0) as [Hneg|Hpos].
  - exists []. split; [|split; [constructor|]].
    + unfold for_int. destruct (Z.leb_spec (x - radius) (x + radius)); [lia|].
      reflexivity.
    + intros c. split; [intros Hc; apply elem_of_nil in Hc; contradiction|].
      intros (i & j & _ & H0 & _). lia.
  - assert (INT_MIN <= radius * radius <= INT_MAX)%Z as Hrr
      by (unfold INT_MIN, INT_MAX; nia).
    exists (seqZ (x - radius) (x + radius - (x - radius) + 1) ≫= row).
    assert (forall i j c, c ∈ point i j <->
              c = SDL_RenderDrawPoint i j /\
              ((i - x) * (i - x) + (j - y) * (j - y) <= radius * radius)%Z)
      as Hpoint.
    { intros i j c. unfold point. rewrite <- in_disc_iff.
      destruct (Qle_bool _ _).
      - rewrite list_elem_of_singleton. tauto.
      - split; [intros Hc; apply elem_of_nil in Hc; contradiction|].
        intros [_ H]. discriminate H. }
    split; [|split].
    + apply for_int_Some; [lia|]. intros i Hi.
      rewrite (to_int_Some (y - radius)) by lia.
      rewrite (to_int_Some (y + radius)) by lia. cbn [mbind option_bind].
      apply for_int_Some; [lia|]. intros j Hj.
      rewrite (to_int_Some (radius * radius)) by exact Hrr.
      cbn [mbind option_bind]. unfold point. now destruct (Qle_bool _ _).
    + apply NoDup_bind; [| |apply NoDup_seqZ].
      * intros i1 i2 c _ _ (j1 & Hc1 & _)%list_elem_of_bind
          (j2 & Hc2 & _)%list_elem_of_bind.
        apply Hpoint in Hc1 as [-> _]. apply Hpoint in Hc2 as [Heq _].
        now injection Heq.
      * intros i _. apply NoDup_bind; [| |apply NoDup_seqZ].
        -- intros j1 j2 c _ _ Hc1 Hc2.
           apply Hpoint in Hc1 as [-> _]. apply Hpoint in Hc2 as [Heq _].
           now injection Heq.
        -- intros j _. unfold point. destruct (Qle_bool _ _).
           ++ apply NoDup_singleton.
           ++ constructor.
    + intros c. rewrite list_elem_of_bind. split.
      * intros (i & (j & Hc & _)%list_elem_of_bind & _).
        apply Hpoint in Hc as [-> Hin]. exists i, j. auto.
      * intros (i & j & -> & _ & Hin).
        destruct (square_le_bound _ _ _ Hpos Hin) as [Hi Hj].
        exists i. split.
        -- apply list_elem_of_bind. exists j. split; [now apply Hpoint|].
           apply elem_of_seqZ. lia.
        -- apply elem_of_seqZ. lia.
Qed.

(** [draw_circle] on a pixel well inside [int]: defined, and nothing but
    points. *)
Lemma draw_circle_points x y radius :
  (-1000000000 <= x <= 1000000000)%Z -> (-1000000000 <= y <= 1000000000)%Z ->
  (0 <= radius <= 46340)%Z ->
  exists calls,
    draw_circle x y radius = Some calls /\
    forall c, c ∈ calls -> exists i j, c = SDL_RenderDrawPoint i j.
Proof.
  intros Hx Hy Hr. unfold draw_circle.
  assert (INT_MIN <= radius * radius <= INT_MAX)%Z as Hrr
    by (unfold INT_MIN, INT_MAX; nia).
  unfold INT_MIN, INT_MAX in *.
  rewrite (to_int_Some (x - radius)) by (unfold INT_MIN, INT_MAX; lia).
  rewrite (to_int_Some (x + radius)) by (unfold INT_MIN, INT_MAX; lia).
  cbn [mbind option_bind].
  set (point := fun i j : Z =>
    if Qle_bool (distance_sq (inject_Z x) (inject_Z y) (inject_Z i) (inject_Z j))
                (inject_Z (radius * radius))
    then [SDL_RenderDrawPoint i j] else []).
  set (row := fun i : Z =>
    seqZ (y - radius) (y + radius - (y - radius) + 1) ≫= point i).
  exists (seqZ (x - radius) (x + radius - (x - radius) + 1) ≫= row).
  split.
  - apply for_int_Some; [unfold INT_MIN, INT_MAX; lia|]. intros i Hi.
    rewrite (to_int_Some (y - radius)) by (unfold INT_MIN, INT_MAX; lia).
    rewrite (to_int_Some (y + radius)) by (unfold INT_MIN, INT_MAX; lia).
    cbn [mbind option_bind].
    apply for_int_Some; [unfold INT_MIN, INT_MAX; lia|]. intros j Hj.
    rewrite (to_int_Some (radius * radius)) by (unfold INT_MIN, INT_MAX; lia).
    cbn [mbind option_bind]. unfold point. now destruct (Qle_bool _ _).
  - intros c (i & (j & Hc & _)%list_elem_of_bind & _)%list_elem_of_bind.
    unfold point in Hc. destruct (Qle_bool _ _).
    + apply list_elem_of_singleton in Hc. eauto.
    + apply elem_of_nil in Hc. contradiction.
Qed.

Lemma integral_part_Z z : integral_part (inject_Z z) = z.
Proof.
  unfold integral_part. destruct (Qle_bool 0 (inject_Z z));
    [apply Qfloor_Z | apply Qceiling_Z].
Qed.

Lemma integral_part_bounds d (lo hi : Z) :
  (inject_Z lo <= d <= inject_Z hi)%Q -> (lo <= integral_part d <= hi)%Z.
Proof.
  intros [Hlo Hhi]. unfold integral_part. destruct (Qle_bool 0 d).
  - rewrite <- (Qfloor_Z lo), <- (Qfloor_Z hi). split; now apply Qfloor_resp_le.
  - rewrite <- (Qceiling_Z lo), <- (Qceiling_Z hi).
    split; now apply Qceiling_resp_le.
Qed.

(** [(int)round(d * SCALE_FACTOR)] is the integer nearest to [d]. *)
Lemma pixel_of d :
  (-1000000000 <= d <= 1000000000)%Q ->
  exists p,
    double_to_int (round (d * SCALE_FACTOR)) = Some p /\
    (-1000000000 <= p <= 1000000000)%Z /\
    (d - (1 # 2) <= inject_Z p <= d + (1 # 2))%Q.
Proof.
  intros [Hlo Hhi]. unfold double_to_int, round. rewrite integral_part_Z.
  set (p := if Qle_bool 0 (d * SCALE_FACTOR)
            then Qfloor (d * SCALE_FACTOR + (1 # 2))
            else Qceiling (d * SCALE_FACTOR - (1 # 2))).
  assert (d - (1 # 2) <= inject_Z p <= d + (1 # 2))%Q as Hnear.
  { unfold p, SCALE_FACTOR. destruct (Qle_bool 0 (d * 1)).
    - pose proof (Qfloor_le (d * 1 + (1 # 2))) as H1.
      pose proof (Qlt_floor (d * 1 + (1 # 2))) as H2.
      rewrite inject_Z_plus in H2. change (inject_Z 1) with 1%Q in H2.
      split; lra.
    - pose proof (Qle_ceiling (d * 1 - (1 # 2))) as H1.
      pose proof (Qceiling_lt (d * 1 - (1 # 2))) as H2.
      assert (inject_Z (Qceiling (d * 1 - (1 # 2)) - 1)
              == inject_Z (Qceiling (d * 1 - (1 # 2))) - 1)%Q as Hpred
        by (unfold Z.sub; rewrite inject_Z_plus, inject_Z_opp; reflexivity).
      rewrite Hpred in H2. split; lra. }
  assert (-1000000000 <= p <= 1000000000)%Z as Hrange.
  { assert (inject_Z (-1000000001) < inject_Z p)%Q as H1
      by (change (inject_Z (-1000000001)) with (-1000000001)%Q; lra).
    assert (inject_Z p < inject_Z 1000000001)%Q as H2
      by (change (inject_Z 1000000001) with 1000000001%Q; lra).
    rewrite <- Zlt_Qlt in H1, H2. lia. }
  exists p. split; [|split; [exact Hrange | exact Hnear]].
  apply to_int_Some. unfold INT_MIN, INT_MAX. lia.
Qed.

Lemma double_to_Uint8_Some d :
  (0 <= d <= 255)%Q ->
  double_to_Uint8 d = Some (integral_part d) /\ (0 <= integral_part d <= 255)%Z.
Proof.
  intros Hd.
  assert (0 <= integral_part d <= 255)%Z as Hz by (apply integral_part_bounds; exact Hd).
  split; [|exact Hz]. unfold double_to_Uint8. cbv zeta.
  destruct Hz as [H0%Z.leb_le H1%Z.leb_le]. now rewrite H0, H1.
Qed.

(** The share of MAX_ENERGY that the energy bar shows. *)
Lemma energy_share lf :
  exists t, (LifeForm.energy lf / MAX_ENERGY == t)%Q /\
            (LifeForm.energy lf == 100 * t)%Q.
Proof.
  exists (LifeForm.energy lf * (1 # 100))%Q. split.
  - unfold Qdiv. reflexivity.
  - ring.
Qed.

(** The calls of [draw_life_form] for a life form with energy in
    (0, MAX_ENERGY] at a paintable position: every [int] operation and
    conversion on the way has a result. *)
Lemma draw_life_form_run lf :
  (0 < LifeForm.energy lf <= MAX_ENERGY)%Q ->
  paintable (LifeForm.x lf) (LifeForm.y lf) ->
  exists px py circle,
    double_to_int (round (LifeForm.x lf * SCALE_FACTOR)) = Some px /\
    double_to_int (round (LifeForm.y lf * SCALE_FACTOR)) = Some py /\
    draw_circle px py LIFE_FORM_RADIUS_PX = Some circle /\
    (forall c, c ∈ circle -> exists i j, c = SDL_RenderDrawPoint i j) /\
    draw_life_form lf
    = Some ([SDL_SetRenderDrawColor (LifeForm.r lf) (LifeForm.g lf) (LifeForm.b lf) 255]
            ++ circle
            ++ [SDL_SetRenderDrawColor
                  (integral_part (255 * (1 - LifeForm.energy lf / MAX_ENERGY)))
                  (integral_part (255 * (LifeForm.energy lf / MAX_ENERGY))) 0 255;
                SDL_RenderFillRect (px - LIFE_FORM_RADIUS_PX)
                  (py - LIFE_FORM_RADIUS_PX - 5)
                  (integral_part (inject_Z (LIFE_FORM_RADIUS_PX * 2)
                                  * (LifeForm.energy lf / MAX_ENERGY))) 3]).
Proof.
  intros [Hpos Hmax] [Hx Hy]. unfold draw_life_form.
  replace (Qlt_bool 0 (LifeForm.energy lf)) with true
    by (symmetry; now apply Qlt_bool_iff).
  destruct (pixel_of _ Hx) as (px & Hpx & Hpxr & _).
  destruct (pixel_of _ Hy) as (py & Hpy & Hpyr & _).
  rewrite Hpx, Hpy. cbn [mbind option_bind].
  destruct (draw_circle_points px py LIFE_FORM_RADIUS_PX Hpxr Hpyr)
    as (circle & Hcircle & Hpoints); [unfold LIFE_FORM_RADIUS_PX; lia|].
  rewrite Hcircle. cbn [mbind option_bind].
  destruct (energy_share lf) as (t & Ht & He).
  assert (0 < t <= 1)%Q as Hshare by (revert Hmax; unfold_params; lra).
  destruct (double_to_Uint8_Some (255 * (1 - LifeForm.energy lf / MAX_ENERGY)))
    as [Hr _]; [rewrite Ht; lra|].
  destruct (double_to_Uint8_Some (255 * (LifeForm.energy lf / MAX_ENERGY)))
    as [Hg _]; [rewrite Ht; lra|].
  rewrite Hr, Hg. cbn [mbind option_bind].
  rewrite (to_int_Some (px - LIFE_FORM_RADIUS_PX))
    by (unfold LIFE_FORM_RADIUS_PX, INT_MIN, INT_MAX; lia).
  rewrite (to_int_Some (py - LIFE_FORM_RADIUS_PX))
    by (unfold LIFE_FORM_RADIUS_PX, INT_MIN, INT_MAX; lia).
  cbn [mbind option_bind].
  rewrite (to_int_Some (py - LIFE_FORM_RADIUS_PX - 5))
    by (unfold LIFE_FORM_RADIUS_PX, INT_MIN, INT_MAX; lia).
  cbn [mbind option_bind].
  assert (0 <= integral_part (inject_Z (LIFE_FORM_RADIUS_PX * 2)
                              * (LifeForm.energy lf / MAX_ENERGY))
          <= 16)%Z as Hbar.
  { apply integral_part_bounds. rewrite Ht.
    change (inject_Z (LIFE_FORM_RADIUS_PX * 2)) with 16%Q.
    change (inject_Z 0) with 0%Q. change (inject_Z 16) with 16%Q. lra. }
  unfold double_to_int at 1.
  rewrite to_int_Some by (revert Hbar; unfold INT_MIN, INT_MAX; lia).
  cbn [mbind option_bind].
  exists px, py, circle. auto.
Qed.

(** X17.  For a life form with energy in (0, MAX_ENERGY] at a position
    of at most 10^9 in absolute value on each axis, the renderer sets the
    life form's colour, draws the disc of radius LIFE_FORM_RADIUS_PX
    around the pixel nearest to the position, and then the energy bar:
    its colour components are in 0..255 and add up to 254 or 255 (red
    falls as green rises), its width is between 0 and twice the radius,
    and it sits 5 pixels above the disc; no [int] operation or conversion
    in between is out of range. *)
Theorem draw_life_form_energy_bar lf :
  (0 < LifeForm.energy lf <= MAX_ENERGY)%Q ->
  paintable (LifeForm.x lf) (LifeForm.y lf) ->
  exists px py circle energy_r energy_g bar_w,
    draw_life_form lf
    = Some ([SDL_SetRenderDrawColor (LifeForm.r lf) (LifeForm.g lf) (LifeForm.b lf) 255]
            ++ circle
            ++ [SDL_SetRenderDrawColor energy_r energy_g 0 255;
                SDL_RenderFillRect (px - LIFE_FORM_RADIUS_PX)
                  (py - LIFE_FORM_RADIUS_PX - 5) bar_w 3]) /\
    draw_circle px py LIFE_FORM_RADIUS_PX = Some circle /\
    (forall c, c ∈ circle -> exists i j, c = SDL_RenderDrawPoint i j) /\
    (LifeForm.x lf - (1 # 2) <= inject_Z px <= LifeForm.x lf + (1 # 2))%Q /\
    (LifeForm.y lf - (1 # 2) <= inject_Z py <= LifeForm.y lf + (1 # 2))%Q /\
    (0 <= energy_r <= 255)%Z /\ (0 <= energy_g <= 255)%Z /\
    (254 <= energy_r + energy_g <= 255)%Z /\
    (0 <= bar_w <= 2 * LIFE_FORM_RADIUS_PX)%Z.
Proof.
  intros [Hpos Hmax] [Hx Hy].
  destruct (draw_life_form_run lf (conj Hpos Hmax) (conj Hx Hy))
    as (px & py & circle & Hpx & Hpy & Hcircle & Hpoints & Hrun).
  destruct (pixel_of _ Hx) as (px' & Hpx' & _ & Hpxq).
  destruct (pixel_of _ Hy) as (py' & Hpy' & _ & Hpyq).
  assert (px' = px) as -> by congruence. assert (py' = py) as -> by congruence.
  destruct (energy_share lf) as (t & Ht & He).
  assert (0 < t <= 1)%Q as Hshare by (revert Hmax; unfold_params; lra).
  set (v := (255 * (1 - LifeForm.energy lf / MAX_ENERGY))%Q) in *.
  set (v' := (255 * (LifeForm.energy lf / MAX_ENERGY))%Q) in *.
  set (b := (inject_Z (LIFE_FORM_RADIUS_PX * 2)
             * (LifeForm.energy lf / MAX_ENERGY))%Q) in *.
  exists px, py, circle, (integral_part v), (integral_part v'), (integral_part b).
  split; [exact Hrun|]. split; [exact Hcircle|]. split; [exact Hpoints|].
  split; [exact Hpxq|]. split; [exact Hpyq|].
  assert (0 <= v)%Q as Hv by (unfold v; rewrite Ht; lra).
  assert (0 <= v')%Q as Hv' by (unfold v'; rewrite Ht; lra).
  assert (v + v' == 255)%Q as Hsum by (unfold v, v'; rewrite Ht; ring).
  split; [apply integral_part_bounds; change (inject_Z 0) with 0%Q;
          change (inject_Z 255) with 255%Q; lra|].
  split; [apply integral_part_bounds; change (inject_Z 0) with 0%Q;
          change (inject_Z 255) with 255%Q; lra|].
  split.
  - unfold integral_part.
    apply Qle_bool_iff in Hv as Hvb. apply Qle_bool_iff in Hv' as Hvb'.
    rewrite Hvb, Hvb'.
    pose proof (Qfloor_le v) as H1. pose proof (Qlt_floor v) as H2.
    pose proof (Qfloor_le v') as H3. pose proof (Qlt_floor v') as H4.
    rewrite inject_Z_plus in H2, H4. change (inject_Z 1) with 1%Q in H2, H4.
    assert (inject_Z (Qfloor v + Qfloor v') < inject_Z 256)%Q as Hhi
      by (rewrite inject_Z_plus; change (inject_Z 256) with 256%Q; lra).
    assert (inject_Z 253 < inject_Z (Qfloor v + Qfloor v'))%Q as Hlo
      by (rewrite inject_Z_plus; change (inject_Z 253) with 253%Q; lra).
    rewrite <- Zlt_Qlt in Hhi, Hlo. lia.
  - apply integral_part_bounds. unfold b. rewrite Ht.
    change (inject_Z (LIFE_FORM_RADIUS_PX * 2)) with 16%Q.
    change (inject_Z 0) with 0%Q.
    change (inject_Z (2 * LIFE_FORM_RADIUS_PX)) with 16%Q. lra.
Qed.

(** X18.  For a life form whose energy is at least MAX_ENERGY * 256 / 255
    (about 100.39; the interaction pass adds food energy without a clamp)
    the renderer has no defined result: the red component of the energy
    bar, 255 * (1 - energy / MAX_ENERGY), is at most -1, and its
    conversion to [Uint8] is out of range. *)
Theorem draw_life_form_overfed lf :
  (MAX_ENERGY * (256 # 255) <= LifeForm.energy lf)%Q ->
  draw_life_form lf = None.
Proof.
  intros Hover. unfold draw_life_form.
  destruct (Qlt_bool 0 (LifeForm.energy lf)) eqn:Halive.
  2: { apply Qlt_bool_false in Halive. revert Hover. unfold_params. lra. }
  destruct (double_to_int (round (LifeForm.x lf * SCALE_FACTOR))) as [px|];
    [|reflexivity].
  destruct (double_to_int (round (LifeForm.y lf * SCALE_FACTOR))) as [py|];
    [|reflexivity].
  cbn [mbind option_bind].
  destruct (draw_circle px py LIFE_FORM_RADIUS_PX) as [circle|]; [|reflexivity].
  cbn [mbind option_bind].
  destruct (energy_share lf) as (t & Ht & He).
  assert (255 * (1 - LifeForm.energy lf / MAX_ENERGY) <= inject_Z (-1))%Q as Hred.
  { rewrite Ht. change (inject_Z (-1)) with (-1)%Q. revert Hover. unfold_params. lra. }
  assert (integral_part (255 * (1 - LifeForm.energy lf / MAX_ENERGY)) <= -1)%Z as Hz.
  { unfold integral_part.
    destruct (Qle_bool 0 (255 * (1 - LifeForm.energy lf / MAX_ENERGY))) eqn:Hsign.
    - apply Qle_bool_iff in Hsign. change (inject_Z (-1)) with (-1)%Q in Hred. lra.
    - rewrite <- (Qceiling_Z (-1)). now apply Qceiling_resp_le. }
  assert (double_to_Uint8 (255 * (1 - LifeForm.energy lf / MAX_ENERGY)) = None) as ->.
  { unfold double_to_Uint8. cbv zeta.
    destruct (Z.leb_spec 0
                (integral_part (255 * (1 - LifeForm.energy lf / MAX_ENERGY))));
      [lia | reflexivity]. }
  reflexivity.
Qed.

Lemma draw_each_app {A} (body : A -> option (list SDL_call)) l1 l2 :
  draw_each body (l1 ++ l2)
  = (calls ← draw_each body l1; rest ← draw_each body l2; Some (calls ++ rest)).
Proof.
  induction l1 as [|a l1 IH]; cbn [draw_each app].
  - destruct (draw_each body l2); reflexivity.
  - rewrite IH. destruct (body a) as [ca|]; [|reflexivity].
    destruct (draw_each body l1) as [c1|]; [|reflexivity].
    destruct (draw_each body l2) as [c2|]; [|reflexivity].
    cbn [mbind option_bind]. now rewrite app_assoc.
Qed.

(** A loop over the first [n] slots of an array that holds them. *)
Lemma draw_each_lookup {A} (body : A -> option (list SDL_call)) (l : list A) n :
  (n <= length l)%nat ->
  draw_each (fun i => a ← l !! i; body a) (seq 0 n) = draw_each body (take n l).
Proof.
  induction n as [|n IH]; intros Hn; [reflexivity|].
  destruct (lookup_lt_is_Some_2 l n) as [a Ha]; [lia|].
  rewrite seq_S, (take_S_r _ _ _ Ha), !draw_each_app, IH by lia.
  cbn [draw_each Nat.add]. now rewrite Ha.
Qed.

Lemma no_fill_rect_in_points (calls : list SDL_call) :
  (forall c, c ∈ calls -> exists i j, c = SDL_RenderDrawPoint i j) ->
  List.filter is_fill_rect calls = [].
Proof.
  induction calls as [|c calls IH]; intros Hpoints; [reflexivity|].
  destruct (Hpoints c (list_elem_of_here _ _)) as (i & j & ->).
  cbn. apply IH. intros c' Hc'. apply Hpoints. now apply list_elem_of_further.
Qed.

Lemma points_paint (calls : list SDL_call) :
  (forall c, c ∈ calls -> exists i j, c = SDL_RenderDrawPoint i j) ->
  forall c, c ∈ calls -> paints c.
Proof. intros Hpoints c Hc. destruct (Hpoints c Hc) as (i & j & ->). now split. Qed.

(** The calls of a loop whose iterations only paint, with one rectangle
    for each element that [keep] selects. *)
Lemma draw_each_paints {A} (body : A -> option (list SDL_call)) (keep : A -> bool) l :
  (forall a, a ∈ l ->
     exists calls,
       body a = Some calls /\ (forall c, c ∈ calls -> paints c) /\
       length (List.filter is_fill_rect calls) = if keep a then 1%nat else 0%nat) ->
  exists calls,
    draw_each body l = Some calls /\ (forall c, c ∈ calls -> paints c) /\
    length (List.filter is_fill_rect calls) = length (List.filter keep l).
Proof.
  induction l as [|a l IH]; intros Hbody.
  - exists []. split; [reflexivity|]. split; [|reflexivity].
    intros c Hc. apply elem_of_nil in Hc. contradiction.
  - destruct (Hbody a (list_elem_of_here _ _)) as (ca & Ha & Hpa & Hna).
    destruct IH as (cl & Hl & Hpl & Hnl).
    { intros b Hb. apply Hbody. now apply list_elem_of_further. }
    exists (ca ++ cl). cbn [draw_each]. rewrite Ha, Hl. split; [reflexivity|].
    split.
    + intros c [Hc|Hc]%elem_of_app; auto.
    + rewrite List.filter_app, length_app, Hna, Hnl. cbn [List.filter].
      now destruct (keep a).
Qed.

Lemma draw_food_paints f :
  (Food.is_present f = true -> paintable (Food.x f) (Food.y f)) ->
  exists calls,
    draw_food f = Some calls /\ (forall c, c ∈ calls -> paints c) /\
    length (List.filter is_fill_rect calls) = 0%nat.
Proof.
  intros Hpaint. unfold draw_food. destruct (Food.is_present f).
  - destruct (Hpaint eq_refl) as [Hx Hy].
    destruct (pixel_of _ Hx) as (px & Hpx & Hpxr & _).
    destruct (pixel_of _ Hy) as (py & Hpy & Hpyr & _).
    rewrite Hpx, Hpy. cbn [mbind option_bind].
    destruct (draw_circle_points px py FOOD_RADIUS_PX Hpxr Hpyr)
      as (circle & Hcircle & Hpoints); [unfold FOOD_RADIUS_PX; lia|].
    exists circle. split; [exact Hcircle|]. split; [now apply points_paint|].
    now rewrite no_fill_rect_in_points.
  - exists []. split; [reflexivity|]. split; [|reflexivity].
    intros c Hc. apply elem_of_nil in Hc. contradiction.
Qed.

Lemma draw_life_form_paints lf :
  (alive lf = true ->
   paintable (LifeForm.x lf) (LifeForm.y lf) /\ (LifeForm.energy lf <= MAX_ENERGY)%Q) ->
  exists calls,
    draw_life_form lf = Some calls /\ (forall c, c ∈ calls -> paints c) /\
    length (List.filter is_fill_rect calls) = if alive lf then 1%nat else 0%nat.
Proof.
  intros Hpaint. destruct (alive lf) eqn:Halive.
  - destruct (Hpaint eq_refl) as [Hpos Hmax]. apply alive_iff in Halive.
    destruct (draw_life_form_run lf (conj Halive Hmax) Hpos)
      as (px & py & circle & _ & _ & _ & Hpoints & Hrun).
    eexists. split; [exact Hrun|]. split.
    + intros c [Hc|[Hc|Hc]%elem_of_app]%elem_of_app.
      * apply list_elem_of_singleton in Hc as ->. now split.
      * now apply (points_paint circle).
      * apply elem_of_cons in Hc as [->|Hc]; [now split|].
        apply list_elem_of_singleton in Hc as ->. now split.
    + rewrite !List.filter_app, (no_fill_rect_in_points circle Hpoints).
      reflexivity.
  - exists []. unfold draw_life_form. unfold alive in Halive. rewrite Halive.
    split; [reflexivity|]. split; [|reflexivity].
    intros c Hc. apply elem_of_nil in Hc. contradiction.
Qed.

(** X19.  On a well-formed world in which every present food item and
    every life form with energy above 0 is at a paintable position and no
    such life form is above MAX_ENERGY, [draw_simulation_state] has a
    defined result: it sets the background colour and clears the frame
    once, first, sets the food colour, presents the frame once, last, and
    in between draws exactly one energy bar for each life form of the
    collection with energy above 0, and none for the others; slots at or
    above the two counts are not read. *)
Theorem draw_simulation_state_frame w :
  well_formed w ->
  (forall f, f ∈ food_pool w -> Food.is_present f = true ->
     paintable (Food.x f) (Food.y f)) ->
  (forall lf, lf ∈ population w -> alive lf = true ->
     paintable (LifeForm.x lf) (LifeForm.y lf) /\
     (LifeForm.energy lf <= MAX_ENERGY)%Q) ->
  exists body,
    draw_simulation_state w
    = Some ([SDL_SetRenderDrawColor 173 216 230 255; SDL_RenderClear;
             SDL_SetRenderDrawColor 76 175 80 255]
            ++ body ++ [SDL_RenderPresent]) /\
    (forall c, c ∈ body -> paints c) /\
    length (List.filter is_fill_rect body)
    = length (List.filter alive (population w)).
Proof.
  intros [[Hal Haf] [Hcl Hcf]] Hfood Hlife. unfold draw_simulation_state.
  rewrite (draw_each_lookup draw_food) by lia.
  rewrite (draw_each_lookup draw_life_form) by lia.
  fold (food_pool w). fold (population w).
  destruct (draw_each_paints draw_food (fun _ => false) (food_pool w))
    as (foods & Hfoods & Hpf & Hnf).
  { intros f Hf. apply draw_food_paints. now apply Hfood. }
  destruct (draw_each_paints draw_life_form alive (population w))
    as (agents & Hagents & Hpa & Hna).
  { intros lf Hlf. apply draw_life_form_paints. now apply Hlife. }
  rewrite Hfoods, Hagents. cbn [mbind option_bind].
  exists (foods ++ agents). split; [now rewrite <- app_assoc|]. split.
  - intros c [Hc|Hc]%elem_of_app; auto.
  - rewrite List.filter_app, length_app, Hnf, Hna.
    assert (forall l : list Food.t, List.filter (fun _ => false) l = []) as ->
      by (intros l; induction l; [reflexivity | assumption]).
    reflexivity.
Qed.

Lemma draw_circle_disc_witness :
  (INT_MIN <= 100 - 3 <= INT_MAX)%Z /\ (INT_MIN <= 100 + 3 < INT_MAX)%Z /\
  (INT_MIN <= 200 - 3 <= INT_MAX)%Z /\ (INT_MIN <= 200 + 3 < INT_MAX)%Z /\
  (3 <= 46340)%Z /\
  exists calls,
    draw_circle 100 200 3 = Some calls /\
    NoDup calls /\
    forall c, c ∈ calls <->
      exists i j, c = SDL_RenderDrawPoint i j /\
        (0 <= 3)%Z /\
        ((i - 100) * (i - 100) + (j - 200) * (j - 200) <= 3 * 3)%Z.
Proof.
  assert (INT_MIN <= 100 - 3 <= INT_MAX)%Z as H1 by (unfold INT_MIN, INT_MAX; lia).
  assert (INT_MIN <= 100 + 3 < INT_MAX)%Z as H2 by (unfold INT_MIN, INT_MAX; lia).
  assert (INT_MIN <= 200 - 3 <= INT_MAX)%Z as H3 by (unfold INT_MIN, INT_MAX; lia).
  assert (INT_MIN <= 200 + 3 < INT_MAX)%Z as H4 by (unfold INT_MIN, INT_MAX; lia).
  assert (3 <= 46340)%Z as H5 by lia.
  split; [exact H1|]. split; [exact H2|]. split; [exact H3|]. split; [exact H4|].
  split; [exact H5|].
  exact (draw_circle_disc 100 200 3 H1 H2 H3 H4 H5).
Defined.

Lemma paintable_100_100 : paintable 100 100.
Proof. unfold paintable. split; split; lra. Qed.

Lemma draw_life_form_energy_bar_witness :
  let lf := LifeForm.mk 100 100 0 0 50 1 0 200 30 30 in
  (0 < LifeForm.energy lf <= MAX_ENERGY)%Q /\
  paintable (LifeForm.x lf) (LifeForm.y lf) /\
  exists px py circle energy_r energy_g bar_w,
    draw_life_form lf
    = Some ([SDL_SetRenderDrawColor (LifeForm.r lf) (LifeForm.g lf) (LifeForm.b lf) 255]
            ++ circle
            ++ [SDL_SetRenderDrawColor energy_r energy_g 0 255;
                SDL_RenderFillRect (px - LIFE_FORM_RADIUS_PX)
                  (py - LIFE_FORM_RADIUS_PX - 5) bar_w 3]) /\
    draw_circle px py LIFE_FORM_RADIUS_PX = Some circle /\
    (forall c, c ∈ circle -> exists i j, c = SDL_RenderDrawPoint i j) /\
    (LifeForm.x lf - (1 # 2) <= inject_Z px <= LifeForm.x lf + (1 # 2))%Q /\
    (LifeForm.y lf - (1 # 2) <= inject_Z py <= LifeForm.y lf + (1 # 2))%Q /\
    (0 <= energy_r <= 255)%Z /\ (0 <= energy_g <= 255)%Z /\
    (254 <= energy_r + energy_g <= 255)%Z /\
    (0 <= bar_w <= 2 * LIFE_FORM_RADIUS_PX)%Z.
Proof.
  cbv zeta.
  assert (0 < LifeForm.energy (LifeForm.mk 100 100 0 0 50 1 0 200 30 30)
          <= MAX_ENERGY)%Q as H1 by (fields; unfold_params; lra).
  split; [exact H1|]. split; [exact paintable_100_100|].
  exact (draw_life_form_energy_bar _ H1 paintable_100_100).
Defined.

Lemma draw_life_form_overfed_witness :
  (MAX_ENERGY * (256 # 255) <= LifeForm.energy overfed_life_form)%Q /\
  draw_life_form overfed_life_form = None.
Proof.
  assert (MAX_ENERGY * (256 # 255) <= LifeForm.energy overfed_life_form)%Q as H
    by (unfold overfed_life_form; fields; unfold_params; lra).
  split; [exact H|]. exact (draw_life_form_overfed overfed_life_form H).
Defined.

Lemma feast_world_food_paintable :
  forall f, f ∈ food_pool feast_world -> Food.is_present f = true ->
    paintable (Food.x f) (Food.y f).
Proof.
  intros f Hin _. change (f ∈ replicate 6 (Food.mk 100 100 true)) in Hin.
  apply elem_of_replicate_inv in Hin. subst f. exact paintable_100_100.
Qed.

Lemma feast_world_life_paintable :
  forall lf, lf ∈ population feast_world -> alive lf = true ->
    paintable (LifeForm.x lf) (LifeForm.y lf) /\
    (LifeForm.energy lf <= MAX_ENERGY)%Q.
Proof.
  intros lf Hin _.
  change (lf ∈ [LifeForm.mk 100 100 0 0 100 1 0 200 30 30]) in Hin.
  apply list_elem_of_singleton in Hin. subst lf.
  split; [exact paintable_100_100|]. fields. unfold_params. lra.
Qed.

Lemma draw_simulation_state_frame_witness :
  well_formed feast_world /\
  (forall f, f ∈ food_pool feast_world -> Food.is_present f = true ->
     paintable (Food.x f) (Food.y f)) /\
  (forall lf, lf ∈ population feast_world -> alive lf = true ->
     paintable (LifeForm.x lf) (LifeForm.y lf) /\
     (LifeForm.energy lf <= MAX_ENERGY)%Q) /\
  exists body,
    draw_simulation_state feast_world
    = Some ([SDL_SetRenderDrawColor 173 216 230 255; SDL_RenderClear;
             SDL_SetRenderDrawColor 76 175 80 255]
            ++ body ++ [SDL_RenderPresent]) /\
    (forall c, c ∈ body -> paints c) /\
    length (List.filter is_fill_rect body)
    = length (List.filter alive (population feast_world)).
Proof.
  split; [exact feast_world_well_formed|].
  split; [exact feast_world_food_paintable|].
  split; [exact feast_world_life_paintable|].
  exact (draw_simulation_state_frame feast_world feast_world_well_formed
           feast_world_food_paintable feast_world_life_paintable).
Defined.

(** ** Positions through a tick *)

Section Positions.
Context {stdlib_h : Stdlib_h} {math_h : Math_h}.

Lemma updated_on_field lf lf' :
  revectored (clamp_energy (moved lf)) lf' -> on_field lf'.
Proof.
  intros Hrev. unfold on_field.
  rewrite (revectored_x _ _ Hrev), (revectored_y _ _ Hrev).
  rewrite clamp_energy_x, clamp_energy_y. unfold moved.
  rewrite bounce_y_x. split; [apply bounce_x_range | apply bounce_y_range].
Qed.

(** X20.  Whatever the positions before the tick, after the update and
    interaction passes every life form of the collection is inside the
    window, a radius away from every edge; the same holds of the post-tick
    collection when [malloc] fails or when no life form reaches the
    turnover at or above REPRODUCTION_THRESHOLD (only offspring, spawned
    up to 5 units from their parent, can be elsewhere). *)
Theorem collection_stays_on_the_field temp_life_forms w :
  well_formed w -> scratch_ok temp_life_forms ->
  exists w2 w',
    update_and_feed w = Ok (tt, w2) /\
    simulate_step temp_life_forms w = Ok (tt, w') /\
    (forall lf, lf ∈ population w2 -> on_field lf) /\
    (temp_life_forms = None \/
     (forall lf, lf ∈ population w2 ->
        (LifeForm.energy lf < REPRODUCTION_THRESHOLD)%Q) ->
     forall lf, lf ∈ population w' -> on_field lf).
Proof.
  intros Hwf Hscratch.
  destruct (update_pass_spec w Hwf) as (w1 & H1 & Hf1 & Hfc1 & Hc1 & Hl1 & Hupd & _).
  assert (well_formed w1) as Hwf1.
  { destruct Hwf as [[Hal Haf] [Hcl Hcf]]. repeat split; congruence. }
  destruct (handle_interactions_spec w1 Hwf1)
    as (wf_ & w2 & _ & H2 & Hwf2 & Hc2 & _ & _ & Hfed & _).
  assert (update_and_feed w = Ok (tt, w2)) as H12
    by (unfold update_and_feed; now rewrite (bind_Ok _ _ _ _ _ H1)).
  assert (forall lf, lf ∈ population w2 -> on_field lf) as Hfield2.
  { intros lf2 (i & Hi & Hlf2)%elem_of_population.
    destruct (lookup_lt_is_Some_2 (life_forms w) i) as [lf Hlf].
    { destruct Hwf as [[Hal _] [Hcl _]]. lia. }
    destruct (Hupd i lf ltac:(lia) Hlf) as (lf1 & Hlf1 & Hrev).
    destruct (Hfed i lf1 Hlf1) as (k & e' & He' & Hlf2').
    assert (lf2 = LifeForm.set_energy e' lf1) as -> by congruence.
    exact (updated_on_field lf lf1 Hrev). }
  destruct (simulate_step_total temp_life_forms w Hwf Hscratch) as (w' & Hrun & _).
  exists w2, w'. split; [exact H12|]. split; [exact Hrun|].
  split; [exact Hfield2|].
  destruct temp_life_forms as [temp|].
  - intros [Hnone|Hlow]; [discriminate Hnone|]. simpl in Hscratch.
    destruct (turnover_loop_quiet w2 temp Hwf2 Hscratch)
      as (temp' & tc' & Hloop & Ht & Htc & Htake).
    { intros i lf Hi Hlf. apply Hlow, elem_of_population. eauto. }
    destruct Hwf2 as [[Hal2 Haf2] [Hcl2 Hcf2]].
    destruct (simulate_step_Some w temp w2 temp' tc' w2 H12 Hloop)
      as (w'' & Hrun' & Hpop & _); [lia | lia |].
    assert (w'' = w') as -> by congruence.
    intros lf Hlf. rewrite Hpop, Htake in Hlf.
    apply list_elem_of_In, filter_In in Hlf as [Hin _].
    apply Hfield2, list_elem_of_In, Hin.
  - intros _. rewrite simulate_step_None in Hrun.
    assert (w' = w2) as -> by congruence. exact Hfield2.
Qed.

End Positions.

Lemma collection_stays_on_the_field_witness :
  well_formed feast_world /\ scratch_ok (Some blank_scratch) /\
  forall math_h : Math_h,
  exists w2 w',
    @update_and_feed mid_rand math_h feast_world = Ok (tt, w2) /\
    @simulate_step mid_rand math_h (Some blank_scratch) feast_world = Ok (tt, w') /\
    (forall lf, lf ∈ population w2 -> on_field lf) /\
    (Some blank_scratch = None \/
     (forall lf, lf ∈ population w2 ->
        (LifeForm.energy lf < REPRODUCTION_THRESHOLD)%Q) ->
     forall lf, lf ∈ population w' -> on_field lf).
Proof.
  split; [exact feast_world_well_formed|]. split; [reflexivity|]. intros math_h.
  exact (collection_stays_on_the_field (Some blank_scratch) feast_world
           feast_world_well_formed eq_refl).
Defined.
